(** * Sticker placement and texture baking: a shallow embedding

  The development follows two source files of the repository:

  - the customize page (`src/unnamed/part_004`): the sticker stack held in
    React state, the pointer gestures (drag, resize, rotate), the crop
    commit;
  - the 3D scene (`src/unnamed/part_009`): the per-mesh snapshot of the
    original maps, the bake effect and the reset effect;

  and the two libraries the customize page imports: the color grading of
  sticker images (`src/lib/colorGradingUtils.ts`) and the device profile
  and image compression (`src/lib/deviceUtils.ts`).

  JavaScript numbers are idealised as exact rationals ([Q]); every
  statement that divides carries the hypothesis that the divisor is not
  zero, so that [NaN] and the infinities never arise inside the model.
  What the browser does (image decoding, 2D rasterisation) is an explicit
  argument of the functions that depend on it. *)

From Stdlib Require Import ZArith QArith Qround Qminmax Lia Lqa String Ascii.
From Stdlib Require Import DecimalString DecimalNat.
From stdpp Require Import base option list strings.

Open Scope Q_scope.

(** ** JavaScript arithmetic used by the sources *)

Module JS.

(** [Math.round]: the nearest integer, halves rounded towards +infinity. *)
Definition Math_round (x : Q) : Q := inject_Z (Qfloor (x + (1 # 2))).

Definition Math_max (a b : Q) : Q := Qmax a b.
Definition Math_min (a b : Q) : Q := Qmin a b.

(** Truncation towards zero, as in the definition of the [%] operator. *)
Definition trunc (x : Q) : Z := Z.quot (Qnum x) (Zpos (Qden x)).

(** [a % b] on numbers: [a - b * trunc (a / b)]; the result has the sign
    of the dividend. *)
Definition rem (a b : Q) : Q := a - b * inject_Z (trunc (a / b)).

(** [a || b] on numbers, for a finite [a]: [0] is falsy. *)
Definition or (a b : Q) : Q := if Qeq_bool a 0 then b else a.

(** Truthiness of an integer such as [img.width]. *)
Definition truthy (n : Z) : bool := negb (Z.eqb n 0).

End JS.

(** ** The customize page (part_004) *)

Module Editor.

(** An image reference: an uploaded data URL, or the data URL exported by
    [canvas.toDataURL()] after [drawImage(img, sx, sy, sw, sh, 0, 0, sw, sh)]
    on a canvas whose [width] and [height] were assigned [cw] and [ch]. *)
Inductive Src : Type :=
| DataUrl (data : string)
| CanvasDataUrl (source : Src) (sx sy sw sh : Q) (cw ch : Q).

(** The crop rectangle [{ x, y, width, height }], in percent of the image. *)
Record Crop : Type := mkCrop {
  cropX : Q; cropY : Q; cropWidth : Q; cropHeight : Q
}.

Definition fullCrop : Crop := mkCrop 0 0 100 100.

(** [interface Sticker]; [colorGrading] is not read by any function
    embedded here and is left out. *)
Record Sticker : Type := mkSticker {
  id : string;
  src : Src;
  originalSrc : option Src;
  uvX : Q;
  uvY : Q;
  scale : Q;
  width : Q;
  height : Q;
  rotation : Q;
  aspectRatio : Q;
  zIndex : nat;
  crop : option Crop
}.

(** [{ ...s, zIndex: i }] *)
Definition with_zIndex (i : nat) (s : Sticker) : Sticker :=
  mkSticker (id s) (src s) (originalSrc s) (uvX s) (uvY s) (scale s)
            (width s) (height s) (rotation s) (aspectRatio s) i (crop s).

(** [{ ...s, uvX, uvY }] *)
Definition with_uv (u v : Q) (s : Sticker) : Sticker :=
  mkSticker (id s) (src s) (originalSrc s) u v (scale s)
            (width s) (height s) (rotation s) (aspectRatio s) (zIndex s) (crop s).

(** [{ ...s, width: w, height: h, scale: sc }] *)
Definition with_size (w h sc : Q) (s : Sticker) : Sticker :=
  mkSticker (id s) (src s) (originalSrc s) (uvX s) (uvY s) sc
            w h (rotation s) (aspectRatio s) (zIndex s) (crop s).

(** [{ ...s, rotation: r }] *)
Definition with_rotation (r : Q) (s : Sticker) : Sticker :=
  mkSticker (id s) (src s) (originalSrc s) (uvX s) (uvY s) (scale s)
            (width s) (height s) r (aspectRatio s) (zIndex s) (crop s).

(** The value of [{ ...undefined }]: an object none of whose fields is
    set.  It only arises when [splice] is asked for an index past the end
    of the array; the fields are given empty values here. *)
Definition blank : Sticker :=
  mkSticker "" (DataUrl "") None 0 0 0 0 0 0 0 0%nat None.

(** [{ ...item }] for an [item] that may be [undefined]. *)
Definition spread (item : option Sticker) : Sticker := default blank item.

(** The two pieces of React state the stack operations touch. *)
Record State : Type := mkState {
  stickers : list Sticker;
  selectedIndex : option nat
}.

Definition initial : State := mkState [] None.

(** What [new Image()] reports after [img.src = ...]: [onload] with the
    decoded dimensions, or [onerror]. *)
Inductive ImageEvent : Type :=
| Onload (imgWidth imgHeight : Z)
| Onerror.

(** [.map((s, i) => ({ ...s, zIndex: i }))] *)
Definition renumber (l : list Sticker) : list Sticker :=
  imap with_zIndex l.

(** *** Adding a sticker

    Every handler is a closure over the state of the render that created
    it ([render]); the updater it passes to [setStickers] receives the
    state current at the time it runs ([st]). *)

Definition newSticker (render : State) (newId : string) (dataUrl : string)
           (imgWidth imgHeight : Z) : Sticker :=
  let aspect :=
    if JS.truthy imgWidth && JS.truthy imgHeight
    then inject_Z imgWidth / inject_Z imgHeight else 1 in
  let sizePx := 100 in
  mkSticker newId (DataUrl dataUrl) (Some (DataUrl dataUrl))
            (1 # 2) (1 # 2) (15 # 100)
            sizePx (JS.Math_round (sizePx / aspect))
            0 aspect
            (length (stickers render))
            (Some fullCrop).

Definition addStickerFromDataUrl (render : State) (newId dataUrl : string)
           (ev : ImageEvent) (st : State) : State :=
  match ev with
  | Onload w h =>
      let next := stickers st ++ [newSticker render newId dataUrl w h] in
      mkState next (Some (length next - 1)%nat)
  | Onerror => st
  end.

(** One file of an upload, with the identifier [genId()] draws for it and
    the outcome of decoding it. *)
Record Upload : Type := mkUpload {
  upId : string; upData : string; upEvent : ImageEvent
}.

(** [handleImageUpload]: every file of the selection goes through the
    [addStickerFromDataUrl] of the render in which the file input fired;
    [arrivals] lists the files in the order their images finish loading. *)
Definition handleImageUpload (render : State) (arrivals : list Upload)
           (st : State) : State :=
  foldl (fun acc f =>
           addStickerFromDataUrl render (upId f) (upData f) (upEvent f) acc)
        st arrivals.

(** *** Removing *)

Definition removeById (idToRemove : string) (prev : list Sticker) : list Sticker :=
  renumber (filter (fun s => id s <> idToRemove) prev).

(** [deleteSelected]; reading [.id] of [stickers[selectedIndex]] when that
    is [undefined] throws, and the handler changes nothing. *)
Definition deleteSelected (render st : State) : State :=
  match selectedIndex render with
  | None => st
  | Some i =>
      match stickers render !! i with
      | None => st
      | Some s => mkState (removeById (id s) (stickers st)) None
      end
  end.

(** The delete button of thumbnail [idx]. *)
Definition deleteThumbnail (render : State) (idx : nat) (st : State) : State :=
  match stickers render !! idx with
  | None => st
  | Some s => mkState (removeById (id s) (stickers st)) None
  end.

(** *** Reordering *)

Definition bringForward (render st : State) : State :=
  match selectedIndex render with
  | None => st
  | Some i =>
      let prev := stickers st in
      let item := prev !! i in
      let copy := delete i prev ++ [spread item] in
      mkState (renumber copy)
              (match selectedIndex st with
               | Some _ =>
                   if (0 <? length (stickers render))%nat
                   then Some (length (stickers render) - 1)%nat else None
               | None => None
               end)
  end.

Definition sendBackward (render st : State) : State :=
  match selectedIndex render with
  | None => st
  | Some i =>
      let prev := stickers st in
      let item := prev !! i in
      let copy := spread item :: delete i prev in
      mkState (renumber copy) (Some 0%nat)
  end.

(** *** Pointer gestures *)

(** [frame.getBoundingClientRect()] *)
Record Rect : Type := mkRect {
  rectLeft : Q; rectTop : Q; rectWidth : Q; rectHeight : Q
}.

(** The pointer position returned by [getEventCoords]. *)
Record Coords : Type := mkCoords { clientX : Q; clientY : Q }.

(** [Math.max(lo, Math.min(hi, v))] *)
Definition clamp (lo hi v : Q) : Q := JS.Math_max lo (JS.Math_min hi v).

(** The center of a dragged sticker, in frame pixels, after the move. *)
Definition dragCenter (rect : Rect) (dragStart coords : Coords) (s : Sticker)
  : Q * Q :=
  let dx := clientX coords - clientX dragStart in
  let dy := clientY coords - clientY dragStart in
  let centerX := uvX s * rectWidth rect in
  let centerY := (1 - uvY s) * rectHeight rect in
  (clamp 0 (rectWidth rect) (centerX + dx),
   clamp 0 (rectHeight rect) (centerY + dy)).

(** The updater of the dragging branch of [onMove]. *)
Definition dragMove (selected : nat) (rect : Rect) (dragStart coords : Coords)
           (prev : list Sticker) : list Sticker :=
  match prev !! selected with
  | None => prev
  | Some s =>
      let '(newCenterX, newCenterY) := dragCenter rect dragStart coords s in
      let u := newCenterX / rectWidth rect in
      let v := 1 - newCenterY / rectHeight rect in
      <[selected := with_uv u v s]> prev
  end.

(** [resizeStateRef.current], captured by [startResize]. *)
Record ResizeState : Type := mkResizeState {
  rsId : string; rsX : Q; rsY : Q; rsWidth : Q; rsHeight : Q
}.

Definition startResize (render : State) (coords : Coords) (stickerId : string)
  : option ResizeState :=
  match List.find (fun s => String.eqb (id s) stickerId) (stickers render) with
  | None => None
  | Some s =>
      Some (mkResizeState stickerId (clientX coords) (clientY coords)
                          (width s) (height s))
  end.

(** [Math.max(dx, dy)] of the pointer displacement since the grab. *)
Definition resizeDelta (rs : ResizeState) (coords : Coords) : Q :=
  JS.Math_max (clientX coords - rsX rs) (clientY coords - rsY rs).

Definition resizeOne (rs : ResizeState) (rect : Rect) (coords : Coords)
           (s : Sticker) : Sticker :=
  let delta := resizeDelta rs coords in
  if negb (String.eqb (id s) (rsId rs)) then s
  else
    let newW := JS.Math_max 24 (JS.Math_round (rsWidth rs + delta)) in
    let newH := JS.Math_max 24 (JS.Math_round (rsHeight rs + delta / aspectRatio s)) in
    let biggest := JS.Math_max (rectWidth rect) (rectHeight rect) in
    let relative := JS.Math_min (1 # 2) (JS.Math_max (5 # 100) (newW / biggest)) in
    with_size newW newH relative s.

(** The updater of the resizing branch of [onMove]. *)
Definition resizeMove (rs : ResizeState) (rect : Rect) (coords : Coords)
           (prev : list Sticker) : list Sticker :=
  resizeOne rs rect coords <$> prev.

(** [rotateStateRef.current], captured by [startRotateHandle]. *)
Record RotateState : Type := mkRotateState {
  rotIndex : nat; startAngle : Q; pointerAngle : Q
}.

(** The angle of the pointer about the sticker's center on screen.
    [atan2Deg y x] stands for [Math.atan2(y, x) * (180 / Math.PI)]. *)
Definition pointerAngleDeg (atan2Deg : Q -> Q -> Q) (rect : Rect)
           (coords : Coords) (s : Sticker) : Q :=
  let centerX := uvX s * rectWidth rect + rectLeft rect in
  let centerY := (1 - uvY s) * rectHeight rect + rectTop rect in
  atan2Deg (clientY coords - centerY) (clientX coords - centerX).

Definition startRotateHandle (atan2Deg : Q -> Q -> Q) (render : State)
           (rect : Rect) (coords : Coords) (idx : nat) : option RotateState :=
  match stickers render !! idx with
  | None => None
  | Some s =>
      Some (mkRotateState idx (JS.or (rotation s) 0)
                          (pointerAngleDeg atan2Deg rect coords s))
  end.

(** [(st.startAngle + delta) % 360] *)
Definition handleRotation (st : RotateState) (angleDeg : Q) : Q :=
  let delta := angleDeg - pointerAngle st in
  JS.rem (startAngle st + delta) 360.

(** [prev.map((x, i) => i === k ? f(x) : x)] *)
Definition mapAt (k : nat) (f : Sticker -> Sticker) (prev : list Sticker)
  : list Sticker :=
  imap (fun i x => if (i =? k)%nat then f x else x) prev.

(** The updater of the rotating branch of [onMove]. *)
Definition rotateMove (atan2Deg : Q -> Q -> Q) (st : RotateState)
           (rect : Rect) (coords : Coords) (prev : list Sticker)
  : list Sticker :=
  match prev !! rotIndex st with
  | None => prev
  | Some s =>
      let newRotation :=
        handleRotation st (pointerAngleDeg atan2Deg rect coords s) in
      mapAt (rotIndex st) (with_rotation newRotation) prev
  end.

Inductive Direction : Type := RotLeft | RotRight.

(** [(s.rotation + angle) % 360] *)
Definition buttonRotation (s : Sticker) (angle : Q) : Q :=
  JS.rem (rotation s + angle) 360.

(** [rotateSelectedBy(deg)] *)
Definition rotateSelectedBy (render : State) (deg : Q) (prev : list Sticker)
  : list Sticker :=
  match selectedIndex render with
  | None => prev
  | Some k => mapAt k (fun s => with_rotation (buttonRotation s deg) s) prev
  end.

(** [rotateSticker(direction)]: the -15 and +15 degree buttons. *)
Definition rotateSticker (render : State) (direction : Direction)
           (prev : list Sticker) : list Sticker :=
  let angle := match direction with RotLeft => -15 | RotRight => 15 end in
  rotateSelectedBy render angle prev.

(** *** Crop commit *)

(** [crop.x === 0 && crop.y === 0 && crop.width === 100 && crop.height === 100] *)
Definition isFull (c : Crop) : bool :=
  Qeq_bool (cropX c) 0 && Qeq_bool (cropY c) 0
  && Qeq_bool (cropWidth c) 100 && Qeq_bool (cropHeight c) 100.

(** The source rectangle, in pixels of an image of size [w] by [h]:
    [(cropX, cropY, cropW, cropH)]. *)
Definition cropPixels (c : Crop) (w h : Z) : Q * Q * Q * Q :=
  (cropX c / 100 * inject_Z w, cropY c / 100 * inject_Z h,
   cropWidth c / 100 * inject_Z w, cropHeight c / 100 * inject_Z h).

(** The object the updater of [commitCrop] builds for the cropped sticker
    [x]; [s] is the sticker the closure read the crop and the source from. *)
Definition cropped (s : Sticker) (c : Crop) (w h : Z) (x : Sticker) : Sticker :=
  let '(cX, cY, cropW, cropH) := cropPixels c w h in
  let dataUrl := CanvasDataUrl (src s) cX cY cropW cropH cropW cropH in
  let aspect := JS.or (cropW / cropH) (aspectRatio x) in
  mkSticker (id x) dataUrl (originalSrc x) (uvX x) (uvY x) (scale x)
            (JS.Math_round (width x)) (JS.Math_round (width x / aspect))
            (rotation x) aspect (zIndex x) (Some fullCrop).

(** [commitCrop(idx)]: [ev] is what loading [s.src] reports and [ctx2d]
    tells whether [canvas.getContext('2d')] returned a context. *)
Definition commitCrop (render : State) (idx : nat) (ev : ImageEvent)
           (ctx2d : bool) (prev : list Sticker) : list Sticker :=
  match stickers render !! idx with
  | None => prev
  | Some s =>
      match crop s with
      | None => prev
      | Some c =>
          if isFull c then prev
          else match ev with
               | Onerror => prev
               | Onload w h =>
                   if ctx2d then mapAt idx (cropped s c w h) prev else prev
               end
      end
  end.

(** [interface StickerForScene]: what the page hands to the scene.  [scale]
    is not optional in the interface, so the [?? 0.15] the scene applies to
    it never fires. *)
Record StickerForScene : Type := mkStickerForScene {
  sceneSrc : Src;
  sceneUvX : Q;
  sceneUvY : Q;
  sceneScale : Q;
  sceneRotation : option Q;
  sceneAspectRatio : option Q
}.

(** [s => ({ src: s.src, uvX: s.uvX, ... })] *)
Definition forScene (s : Sticker) : StickerForScene :=
  mkStickerForScene (src s) (uvX s) (uvY s) (scale s)
                    (Some (rotation s)) (Some (aspectRatio s)).

Definition stickerPropsForScene (l : list Sticker) : list StickerForScene :=
  forScene <$> l.

(** *** The stack invariant: [zIndex] is the position in the array *)

Definition zIndex_ok (l : list Sticker) : Prop :=
  zIndex <$> l = seq 0 (length l).

Definition zIndex_okb (l : list Sticker) : bool :=
  bool_decide (zIndex <$> l = seq 0 (length l)).

(** *** The control buttons of the selected sticker *)

Inductive MoveDirection : Type := MoveUp | MoveDown | MoveLeft | MoveRight.

(** The object [moveSticker] builds for the selected sticker; the step is
    [5 / rect.width] on both axes. *)
Definition moveOne (rect : Rect) (direction : MoveDirection) (s : Sticker)
  : Sticker :=
  let moveAmount := 5 / rectWidth rect in
  let newUvX :=
    match direction with
    | MoveLeft => JS.Math_max 0 (uvX s - moveAmount)
    | MoveRight => JS.Math_min 1 (uvX s + moveAmount)
    | _ => uvX s
    end in
  let newUvY :=
    match direction with
    | MoveUp => JS.Math_min 1 (uvY s + moveAmount)
    | MoveDown => JS.Math_max 0 (uvY s - moveAmount)
    | _ => uvY s
    end in
  with_uv newUvX newUvY s.

(** [moveSticker(direction)]; [frame] is [frameRef.current]'s rectangle,
    if the frame is mounted. *)
Definition moveSticker (render : State) (frame : option Rect)
           (direction : MoveDirection) (prev : list Sticker) : list Sticker :=
  match selectedIndex render, frame with
  | Some k, Some rect => mapAt k (moveOne rect direction) prev
  | _, _ => prev
  end.

Inductive ScaleDirection : Type := ScaleUp | ScaleDown | ScaleReset.

Definition scaleOne (rect : Rect) (direction : ScaleDirection) (s : Sticker)
  : Sticker :=
  let newScale :=
    match direction with
    | ScaleUp => JS.Math_min (1 # 2) (scale s + (2 # 100))
    | ScaleDown => JS.Math_max (5 # 100) (scale s - (2 # 100))
    | ScaleReset => 15 # 100
    end in
  let biggest := JS.Math_max (rectWidth rect) (rectHeight rect) in
  let newW := JS.Math_round (newScale * biggest) in
  let newH := JS.Math_round (newW / aspectRatio s) in
  with_size newW newH newScale s.

(** [scaleSticker(direction)] *)
Definition scaleSticker (render : State) (frame : option Rect)
           (direction : ScaleDirection) (prev : list Sticker) : list Sticker :=
  match selectedIndex render, frame with
  | Some k, Some rect => mapAt k (scaleOne rect direction) prev
  | _, _ => prev
  end.

Inductive FlipDirection : Type := Horizontal | Vertical.

(** Both branches of [flipSticker] build the same object. *)
Definition flipOne (direction : FlipDirection) (s : Sticker) : Sticker :=
  match direction with
  | Horizontal => with_rotation (JS.rem (rotation s + 180) 360) s
  | Vertical => with_rotation (JS.rem (rotation s + 180) 360) s
  end.

(** [flipSticker(direction)] *)
Definition flipSticker (render : State) (direction : FlipDirection)
           (prev : list Sticker) : list Sticker :=
  match selectedIndex render with
  | Some k => mapAt k (flipOne direction) prev
  | None => prev
  end.

Definition resetOne (rect : Rect) (s : Sticker) : Sticker :=
  let biggest := JS.Math_max (rectWidth rect) (rectHeight rect) in
  let resetScale := 15 # 100 in
  let newW := JS.Math_round (resetScale * biggest) in
  let newH := JS.Math_round (newW / aspectRatio s) in
  mkSticker (id s) (src s) (originalSrc s) (1 # 2) (1 # 2) resetScale
            newW newH 0 (aspectRatio s) (zIndex s) (crop s).

(** [resetSticker()] *)
Definition resetSticker (render : State) (frame : option Rect)
           (prev : list Sticker) : list Sticker :=
  match selectedIndex render, frame with
  | Some k, Some rect => mapAt k (resetOne rect) prev
  | _, _ => prev
  end.

(** *** A drag, move after move

    [startDragSticker] stores the pointer position in [dragStartRef]; each
    move of the dragging branch of [onMove] runs the updater and stores the
    new pointer position. *)
Fixpoint dragPath (selected : nat) (rect : Rect) (dragStart : Coords)
         (path : list Coords) (prev : list Sticker) : list Sticker :=
  match path with
  | [] => prev
  | coords :: rest =>
      dragPath selected rect coords rest
               (dragMove selected rect dragStart coords prev)
  end.

(** *** The crop rectangle during a drag *)

Inductive Handle : Type := GrabNW | GrabNE | GrabSW | GrabSE | GrabN | GrabS | GrabE | GrabW.

(** [cHandle.includes('n')] and its three siblings. *)
Definition includesN (h : Handle) : bool :=
  match h with GrabN | GrabNE | GrabNW => true | _ => false end.
Definition includesS (h : Handle) : bool :=
  match h with GrabS | GrabSE | GrabSW => true | _ => false end.
Definition includesW (h : Handle) : bool :=
  match h with GrabW | GrabNW | GrabSW => true | _ => false end.
Definition includesE (h : Handle) : bool :=
  match h with GrabE | GrabNE | GrabSE => true | _ => false end.

(** [cropStateRef.current] *)
Record CropState : Type := mkCropState {
  handle : option Handle;
  startX : Q;
  startY : Q;
  startCrop : Crop
}.

(** [handleCropMouseDown(e, handle)] *)
Definition handleCropMouseDown (render : State) (e : Coords)
           (h : option Handle) : option CropState :=
  match selectedIndex render with
  | None => None
  | Some k =>
      match stickers render !! k with
      | None => None
      | Some s =>
          Some (mkCropState h (clientX e) (clientY e)
                            (default fullCrop (crop s)))
      end
  end.

(** The rectangle [onMove] of the crop effect computes; [thumb] is the
    thumbnail's bounding rectangle. *)
Definition cropMove (cs : CropState) (thumb : Rect) (e : Coords) : Crop :=
  let deltaX := (clientX e - startX cs) / rectWidth thumb * 100 in
  let deltaY := (clientY e - startY cs) / rectHeight thumb * 100 in
  let c0 := startCrop cs in
  let cHandle := default GrabSE (handle cs) in
  let c1 :=
    if includesN cHandle then
      let newY := JS.Math_max 0 (JS.Math_min (cropY c0 + deltaY)
                                             (cropY c0 + cropHeight c0 - 5)) in
      mkCrop (cropX c0) newY (cropWidth c0) (cropHeight c0 - (newY - cropY c0))
    else c0 in
  let c2 :=
    if includesS cHandle then
      mkCrop (cropX c1) (cropY c1) (cropWidth c1)
             (JS.Math_max 5 (JS.Math_min (100 - cropY c0) (cropHeight c0 + deltaY)))
    else c1 in
  let c3 :=
    if includesW cHandle then
      let newX := JS.Math_max 0 (JS.Math_min (cropX c0 + deltaX)
                                             (cropX c0 + cropWidth c0 - 5)) in
      mkCrop newX (cropY c2) (cropWidth c0 - (newX - cropX c0)) (cropHeight c2)
    else c2 in
  if includesE cHandle then
    mkCrop (cropX c3) (cropY c3)
           (JS.Math_max 5 (JS.Math_min (100 - cropX c0) (cropWidth c0 + deltaX)))
           (cropHeight c3)
  else c3.

(** [{ ...s, crop: c }] *)
Definition with_crop (c : Crop) (s : Sticker) : Sticker :=
  mkSticker (id s) (src s) (originalSrc s) (uvX s) (uvY s) (scale s)
            (width s) (height s) (rotation s) (aspectRatio s) (zIndex s)
            (Some c).

(** The updater of the crop effect's [onMove]. *)
Definition cropLive (selected : nat) (cs : CropState) (thumb : Rect)
           (e : Coords) (prev : list Sticker) : list Sticker :=
  mapAt selected (with_crop (cropMove cs thumb e)) prev.

(** One crop drag.  The crop effect depends on [isCropping],
    [selectedIndex] and the thumbnail element, not on [stickers]: its
    [onMove] and [onUp] are those of the render in which the drag began
    ([grab]), and stay in place while the moves change the stack.  [onUp]
    calls the [commitCrop] of that render. *)
Definition cropDrag (grab : State) (selected : nat) (cs : CropState)
           (thumb : Rect) (moves : list Coords) (ev : ImageEvent)
           (ctx2d : bool) (st : list Sticker) : list Sticker :=
  let moved := foldl (fun acc e => cropLive selected cs thumb e acc) st moves in
  commitCrop grab selected ev ctx2d moved.

(** A crop rectangle inside the image, at least 5 percent wide and high. *)
Definition validCrop (c : Crop) : Prop :=
  0 <= cropX c /\ 0 <= cropY c /\ 5 <= cropWidth c /\ 5 <= cropHeight c
  /\ cropX c + cropWidth c <= 100 /\ cropY c + cropHeight c <= 100.

(** *** Color grading reset *)

(** Truthiness of a source string: the empty string is falsy. *)
Definition srcTruthy (o : option Src) : bool :=
  match o with
  | Some (DataUrl d) => negb (String.eqb d "")
  | Some (CanvasDataUrl _ _ _ _ _ _ _) => true
  | None => false
  end.

(** [{ ...s, src: s.originalSrc || s.src }]; the [colorGrading] field the
    source resets along with it is not part of the record here. *)
Definition ungraded (s : Sticker) : Sticker :=
  mkSticker (id s)
            (if srcTruthy (originalSrc s) then default (src s) (originalSrc s)
             else src s)
            (originalSrc s) (uvX s) (uvY s) (scale s)
            (width s) (height s) (rotation s) (aspectRatio s) (zIndex s)
            (crop s).

(** [resetColorGrading()] *)
Definition resetColorGrading (render : State) (prev : list Sticker)
  : list Sticker :=
  match selectedIndex render with
  | None => prev
  | Some k =>
      match stickers render !! k with
      | None => prev
      | Some sticker =>
          if srcTruthy (originalSrc sticker) then mapAt k ungraded prev
          else prev
      end
  end.

(** *** Well-formed stickers: the ranges the interface documents *)

Definition wellFormed (s : Sticker) : Prop :=
  0 <= uvX s <= 1 /\ 0 <= uvY s <= 1
  /\ 5 # 100 <= scale s <= 1 # 2
  /\ 0 < aspectRatio s.

(** The identity and the paint position of every sticker, in array order. *)
Definition shape (l : list Sticker) : list (string * nat) :=
  (fun s => (id s, zIndex s)) <$> l.

(** *** The recording clock *)

(** [String(n)] for a natural number: its decimal digits. *)
Definition String_ (n : nat) : string :=
  NilEmpty.string_of_uint (Nat.to_uint n).

Fixpoint repeatChar (n : nat) (c : ascii) : string :=
  match n with
  | O => EmptyString
  | S k => String c (repeatChar k c)
  end.

(** [s.padStart(targetLength, c)] for a one-character pad string. *)
Definition padStart (s : string) (targetLength : nat) (c : ascii) : string :=
  (repeatChar (targetLength - String.length s) c ++ s)%string.

(** [formatRecordingTime(seconds)]; [recordingTime] counts whole seconds
    from 0, so [Math.floor(seconds / 60)] and [seconds % 60] are the
    quotient and the remainder of natural numbers. *)
Definition formatRecordingTime (seconds : nat) : string :=
  let mins := (seconds / 60)%nat in
  let secs := (seconds mod 60)%nat in
  (padStart (String_ mins) 2 "0" ++ ":" ++ padStart (String_ secs) 2 "0")%string.

(** Reading a string of decimal digits. *)
Definition readNat (s : string) : option nat :=
  Nat.of_uint <$> NilEmpty.uint_of_string s.

End Editor.

(** ** The 3D scene (part_009) *)

Module Scene.

(** A color, as the style string the source passes around ([modelColor],
    [fillStyle], the argument of [new THREE.Color], the value of
    [color.getStyle()]). *)
Definition Color : Type := string.

Definition white : Color := "#ffffff".

(** A decoded image.  [imgUsable] is [false] for an image on which
    [ctx.drawImage] throws. *)
Record Image : Type := mkImage {
  imgName : string;
  imgWidth : Z;
  imgHeight : Z;
  imgUsable : bool
}.

(** What has been painted on a 2D context.  [DrawImage img tx ty deg dx dy
    dw dh] is the block [save(); translate(tx, ty); rotate(deg * PI / 180);
    drawImage(img, dx, dy, dw, dh); restore()]; a plain [drawImage] has
    [tx = ty = deg = 0]. *)
Inductive CanvasOp : Type :=
| FillRect (fillStyle : Color) (x y w h : Q)
| DrawImage (img : Image) (tx ty deg : Q) (dx dy dw dh : Q).

(** A canvas: its size and what was painted on it, oldest first. *)
Record Canvas : Type := mkCanvas {
  canvasWidth : Z;
  canvasHeight : Z;
  painted : list CanvasOp
}.

Definition paint (op : CanvasOp) (c : Canvas) : Canvas :=
  mkCanvas (canvasWidth c) (canvasHeight c) (painted c ++ [op]).

(** A texture: one that came with the model, or a [THREE.CanvasTexture]
    with its [flipY] flag. *)
Inductive Texture : Type :=
| ModelTexture (name : string) (image : option Image)
| CanvasTexture (canvas : Canvas) (flipY : bool).

(** The [image] of a canvas texture is the canvas; it is described here by
    its size, and [drawImage] throws on a canvas without width or height. *)
Definition canvasImage (c : Canvas) : Image :=
  mkImage "canvas" (canvasWidth c) (canvasHeight c)
          (JS.truthy (canvasWidth c) && JS.truthy (canvasHeight c)).

(** [stored.map?.image] *)
Definition textureImage (t : option Texture) : option Image :=
  match t with
  | Some (ModelTexture _ im) => im
  | Some (CanvasTexture c _) => Some (canvasImage c)
  | None => None
  end.

(** [interface OriginalMaps] *)
Module OriginalMaps.
Record t : Type := mk {
  map : option Texture;
  normalMap : option Texture;
  roughnessMap : option Texture;
  metalnessMap : option Texture;
  aoMap : option Texture;
  emissiveMap : option Texture;
  color : Color
}.
End OriginalMaps.

(** The fields of a mesh material the scene reads and writes. *)
Module Material.
Record t : Type := mk {
  map : option Texture;
  normalMap : option Texture;
  roughnessMap : option Texture;
  metalnessMap : option Texture;
  aoMap : option Texture;
  emissiveMap : option Texture;
  color : option Color;
  needsUpdate : bool
}.
End Material.

(** The snapshot taken when the model loads:
    [originalMaps.current.set(child, { map: mat.map || null, ... })]. *)
Definition snapshot (mat : Material.t) : OriginalMaps.t :=
  OriginalMaps.mk (Material.map mat) (Material.normalMap mat)
                  (Material.roughnessMap mat) (Material.metalnessMap mat)
                  (Material.aoMap mat) (Material.emissiveMap mat)
                  (default white (Material.color mat)).

(** *** Canvas size and background *)

Definition texSize (baseImage : option Image) : Z * Z :=
  let texWidth :=
    match baseImage with
    | Some im => if JS.truthy (imgWidth im) then imgWidth im else 2048%Z
    | None => 2048%Z
    end in
  let texHeight :=
    match baseImage with
    | Some im => if JS.truthy (imgHeight im) then imgHeight im else texWidth
    | None => texWidth
    end in
  (texWidth, texHeight).

(** [modelColor && modelColor !== 'reset' && modelColor !== 'original'] *)
Definition isCustom (modelColor : string) : bool :=
  negb (String.eqb modelColor "") && negb (String.eqb modelColor "reset")
  && negb (String.eqb modelColor "original").

Definition fillAll (style : Color) (texWidth texHeight : Z) : CanvasOp :=
  FillRect style 0 0 (inject_Z texWidth) (inject_Z texHeight).

Definition background (modelColor : string) (stored : OriginalMaps.t)
           (texWidth texHeight : Z) : CanvasOp :=
  if isCustom modelColor then fillAll modelColor texWidth texHeight
  else
    match textureImage (OriginalMaps.map stored) with
    | Some baseImage =>
        if imgUsable baseImage
        then DrawImage baseImage 0 0 0 0 0 (inject_Z texWidth) (inject_Z texHeight)
        else fillAll (OriginalMaps.color stored) texWidth texHeight
    | None => fillAll (OriginalMaps.color stored) texWidth texHeight
    end.

(** *** Drawing one sticker *)

(** The state the asynchronous part of a bake threads: the canvas behind
    [ctx] and the console. *)
Record BakeState : Type := mkBakeState {
  canvas : Canvas;
  console : list (string * Editor.Src)
}.

(** The body of [img.onload] in [drawSticker]. *)
Definition stickerOp (texWidth texHeight : Z) (sticker : Editor.StickerForScene)
           (img : Image) : CanvasOp :=
  let baseSize :=
    Editor.sceneScale sticker
    * JS.Math_max (inject_Z texWidth) (inject_Z texHeight) in
  let aspect :=
    match Editor.sceneAspectRatio sticker with
    | Some a => a
    | None => JS.or (inject_Z (imgWidth img) / inject_Z (imgHeight img)) 1
    end in
  let '(stickerW, stickerH) :=
    if negb (Qle_bool aspect 1) then (baseSize, baseSize / aspect)
    else (baseSize * aspect, baseSize) in
  let x := Editor.sceneUvX sticker * inject_Z texWidth - stickerW / 2 in
  let y := (1 - Editor.sceneUvY sticker) * inject_Z texHeight - stickerH / 2 in
  let cx := x + stickerW / 2 in
  let cy := y + stickerH / 2 in
  let angle := default 0 (Editor.sceneRotation sticker) in
  DrawImage img cx cy angle (- stickerW / 2) (- stickerH / 2) stickerW stickerH.

Definition onload (texWidth texHeight : Z) (sticker : Editor.StickerForScene)
           (img : Image) (st : BakeState) : BakeState :=
  mkBakeState (paint (stickerOp texWidth texHeight sticker img) (canvas st))
              (console st).

Definition warning : string := "Sticker image failed to load during bake".

(** The body of [img.onerror] in [drawSticker]. *)
Definition onerror (sticker : Editor.StickerForScene) (st : BakeState)
  : BakeState :=
  mkBakeState (canvas st) (console st ++ [(warning, Editor.sceneSrc sticker)]).

(** *** Asynchronous code

    A computation that may wait for images: it is finished, or it has set
    [img.src] and continues in [onload] or in [onerror] once the browser
    reports. *)
Inductive Async (A : Type) : Type :=
| Done (a : A)
| AwaitImage (src : Editor.Src) (loaded : Image -> Async A) (failed : Async A).

Arguments Done {A} a.
Arguments AwaitImage {A} src loaded failed.

Fixpoint bind {A B : Type} (m : Async A) (k : A -> Async B) : Async B :=
  match m with
  | Done a => k a
  | AwaitImage s loaded failed =>
      AwaitImage s (fun img => bind (loaded img) k) (bind failed k)
  end.

(** [drawSticker(sticker)]: the promise resolves in both handlers. *)
Definition drawSticker (texWidth texHeight : Z)
           (sticker : Editor.StickerForScene) (st : BakeState)
  : Async BakeState :=
  AwaitImage (Editor.sceneSrc sticker)
             (fun img => Done (onload texWidth texHeight sticker img st))
             (Done (onerror sticker st)).

(** [for (let i = 0; i < stickers.length; i++)
       if (stickers[i]) await drawSticker(stickers[i]);] *)
Fixpoint drawAll (texWidth texHeight : Z)
         (stickers : list (option Editor.StickerForScene)) (st : BakeState)
  : Async BakeState :=
  match stickers with
  | [] => Done st
  | None :: rest => drawAll texWidth texHeight rest st
  | Some sticker :: rest =>
      bind (drawSticker texWidth texHeight sticker st)
           (drawAll texWidth texHeight rest)
  end.

(** *** Assigning the composite *)

Definition assignComposite (stored : OriginalMaps.t) (c : Canvas)
           (mat : Material.t) : Material.t :=
  let composite := CanvasTexture c false in
  Material.mk (Some composite)
              (OriginalMaps.normalMap stored)
              (OriginalMaps.roughnessMap stored)
              (OriginalMaps.metalnessMap stored)
              (OriginalMaps.aoMap stored)
              (OriginalMaps.emissiveMap stored)
              (Some white)
              true.

(** A child of the model's scene graph, with the entry of [originalMaps]
    for it, if any. *)
Record Child : Type := mkChild {
  isMesh : bool;
  material : option Material.t;
  stored : option OriginalMaps.t
}.

Definition with_material (mat : Material.t) (child : Child) : Child :=
  mkChild (isMesh child) (Some mat) (stored child).

(** The result of a bake on one child: the child and the console. *)
Record Baked : Type := mkBaked {
  bakedChild : Child;
  bakedConsole : list (string * Editor.Src)
}.

(** The callback of [model.traverse] in the bake effect.  [ctx2d] tells
    whether [canvas.getContext('2d')] returned a context. *)
Definition bakeChild (ctx2d : bool) (modelColor : string)
           (stickers : list (option Editor.StickerForScene)) (child : Child)
  : Async Baked :=
  match isMesh child, material child, stored child with
  | true, Some mat, Some st0 =>
      let baseImage := textureImage (OriginalMaps.map st0) in
      let '(texWidth, texHeight) := texSize baseImage in
      if ctx2d then
        let c0 := paint (background modelColor st0 texWidth texHeight)
                        (mkCanvas texWidth texHeight []) in
        bind (drawAll texWidth texHeight stickers (mkBakeState c0 []))
             (fun st =>
                Done (mkBaked (with_material (assignComposite st0 (canvas st) mat)
                                             child)
                              (console st)))
      else Done (mkBaked child [])
  | _, _, _ => Done (mkBaked child [])
  end.

(** The callback of [model.traverse] in the reset effect. *)
Definition restoreChild (modelColor : string) (child : Child) : Child :=
  if String.eqb modelColor "reset" then
    match isMesh child, material child, stored child with
    | true, Some _, Some st0 =>
        with_material
          (Material.mk (OriginalMaps.map st0)
                       (OriginalMaps.normalMap st0)
                       (OriginalMaps.roughnessMap st0)
                       (OriginalMaps.metalnessMap st0)
                       (OriginalMaps.aoMap st0)
                       (OriginalMaps.emissiveMap st0)
                       (Some (OriginalMaps.color st0))
                       true)
          child
    | _, _, _ => child
    end
  else child.

(** *** The event loop

    [decode] is what the browser makes of a source, [latency] how long it
    takes to report.  [run] plays a computation from time [now] and returns
    its result together with the image events, in the order they happen. *)
Inductive Event : Type :=
| Requested (src : Editor.Src) (at_ : nat)
| Loaded (src : Editor.Src) (at_ : nat)
| Failed (src : Editor.Src) (at_ : nat).

(** What [run] reports: the value, the time at which the computation
    completed and the image events in the order they happened. *)
Record Outcome (A : Type) : Type := mkOutcome {
  result : A;
  finishedAt : nat;
  events : list Event
}.

Arguments mkOutcome {A} _ _ _.
Arguments result {A} _.
Arguments finishedAt {A} _.
Arguments events {A} _.

Fixpoint run {A : Type} (decode : Editor.Src -> option Image)
         (latency : Editor.Src -> nat) (p : Async A) (now : nat)
  : Outcome A :=
  match p with
  | Done a => mkOutcome a now []
  | AwaitImage s loaded failed =>
      let t := (now + latency s)%nat in
      match decode s with
      | Some img =>
          let out := run decode latency (loaded img) t in
          mkOutcome (result out) (finishedAt out)
                    (Requested s now :: Loaded s t :: events out)
      | None =>
          let out := run decode latency failed t in
          mkOutcome (result out) (finishedAt out)
                    (Requested s now :: Failed s t :: events out)
      end
  end.

(** At most one image is pending at any time: every request is answered
    before the next one is made, and time does not run backwards. *)
Fixpoint oneAtATime (now : nat) (evs : list Event) : Prop :=
  match evs with
  | [] => True
  | Requested s t :: Loaded s' t' :: rest
  | Requested s t :: Failed s' t' :: rest =>
      s = s' /\ (now <= t)%nat /\ (t <= t')%nat /\ oneAtATime t' rest
  | _ => False
  end.

(** The sources requested, in the order of the requests. *)
Definition requests (evs : list Event) : list Editor.Src :=
  omap (fun e => match e with Requested s _ => Some s | _ => None end) evs.

(** The paints a stack leaves on the canvas, read off the array from its
    first element to its last: one for each sticker whose image decodes. *)
Definition stickerOps (decode : Editor.Src -> option Image)
           (texWidth texHeight : Z)
           (stickers : list (option Editor.StickerForScene)) : list CanvasOp :=
  omap (fun entry =>
          sticker ← entry;
          img ← decode (Editor.sceneSrc sticker);
          Some (stickerOp texWidth texHeight sticker img)) stickers.

(** The warnings a stack leaves on the console. *)
Definition stickerWarnings (decode : Editor.Src -> option Image)
           (stickers : list (option Editor.StickerForScene))
  : list (string * Editor.Src) :=
  omap (fun entry =>
          sticker ← entry;
          match decode (Editor.sceneSrc sticker) with
          | Some _ => None
          | None => Some (warning, Editor.sceneSrc sticker)
          end) stickers.

(** *** Pixels

    [sample] is the browser's rasteriser: the color [drawImage] paints at
    a pixel, or nothing outside the footprint of the drawn image.  Pixels
    are painted or left alone; partial transparency is not modelled. *)
Definition Rasterizer : Type :=
  Image -> Q -> Q -> Q -> Q -> Q -> Q -> Q -> Z -> Z -> option Color.

Definition opAt (sample : Rasterizer) (op : CanvasOp) (px py : Z)
  : option Color :=
  match op with
  | FillRect style x y w h =>
      if Qle_bool x (inject_Z px) && negb (Qle_bool (x + w) (inject_Z px))
         && Qle_bool y (inject_Z py) && negb (Qle_bool (y + h) (inject_Z py))
      then Some style else None
  | DrawImage img tx ty deg dx dy dw dh =>
      sample img tx ty deg dx dy dw dh px py
  end.

(** The color of a pixel after a sequence of paints: the last paint that
    touches the pixel wins. *)
Definition pixelOf (sample : Rasterizer) (ops : list CanvasOp) (px py : Z)
  : option Color :=
  foldl (fun under op =>
           match opAt sample op px py with
           | Some c => Some c
           | None => under
           end) None ops.

Definition pixelAt (sample : Rasterizer) (c : Canvas) (px py : Z)
  : option Color :=
  pixelOf sample (painted c) px py.

(** The pixels of a mesh's color map, when it is a canvas texture. *)
Definition mapPixel (sample : Rasterizer) (child : Child) (px py : Z)
  : option Color :=
  match material child with
  | Some mat =>
      match Material.map mat with
      | Some (CanvasTexture c _) => pixelAt sample c px py
      | _ => None
      end
  | None => None
  end.

(** *** The two effects of one commit

    The bake effect and the reset effect both depend on [modelColor] and
    [model]; when one of these changes they run in the order of the
    source.  The asynchronous part of the bake runs inside the bake
    effect up to its first [await]: with no sticker to wait for it has
    assigned the composite before the reset effect runs; otherwise the
    reset effect runs first and the bake assigns when its images have
    reported. *)
Definition modelColorEffects (decode : Editor.Src -> option Image)
           (latency : Editor.Src -> nat) (now : nat) (ctx2d : bool)
           (modelColor : string)
           (stickers : list (option Editor.StickerForScene)) (child : Child)
  : Child :=
  match bakeChild ctx2d modelColor stickers child with
  | Done baked => restoreChild modelColor (bakedChild baked)
  | AwaitImage _ _ _ as pending =>
      let restored := restoreChild modelColor child in
      match material (bakedChild (result (run decode latency pending now))) with
      | Some mat => with_material mat restored
      | None => restored
      end
  end.

(** *** Sample inputs *)

(** A browser that fails on the source ["data:broken"] and decodes every
    other uploaded data URL to a 400 by 200 image named after it. *)
Definition sampleDecode (src : Editor.Src) : option Image :=
  match src with
  | Editor.DataUrl d =>
      if String.eqb d "data:broken" then None else Some (mkImage d 400 200 true)
  | _ => None
  end.

(** A rasteriser that paints the name of the image on the axis-aligned box
    of the draw, whatever the rotation. *)
Definition sampleRaster : Rasterizer :=
  fun img tx ty deg dx dy dw dh px py =>
    if Qle_bool (tx + dx) (inject_Z px)
       && negb (Qle_bool (tx + dx + dw) (inject_Z px))
       && Qle_bool (ty + dy) (inject_Z py)
       && negb (Qle_bool (ty + dy + dh) (inject_Z py))
    then Some (imgName img) else None.

(** A slow first image and a fast second one. *)
Definition sampleLatency (src : Editor.Src) : nat :=
  match src with
  | Editor.DataUrl d => if String.eqb d "data:a" then 100%nat else 1%nat
  | _ => 0%nat
  end.

Definition sampleMaterial : Material.t :=
  Material.mk None (Some (ModelTexture "normal" None)) None None None None
              (Some "#808080") false.

Definition sampleChild : Child :=
  mkChild true (Some sampleMaterial) (Some (snapshot sampleMaterial)).

Definition sampleSticker (name : string) (z : nat) : Editor.Sticker :=
  Editor.mkSticker name (Editor.DataUrl name) (Some (Editor.DataUrl name))
                   (1 # 2) (1 # 2) (15 # 100) 100 50 0 2 z
                   (Some Editor.fullCrop).


Definition sampleTexturedMaterial : Material.t :=
  Material.mk (Some (ModelTexture "base" (Some (mkImage "base" 1024 512 true))))
              (Some (ModelTexture "normal" None)) None None None None
              (Some "#808080") false.

Definition sampleTexturedChild : Child :=
  mkChild true (Some sampleTexturedMaterial)
          (Some (snapshot sampleTexturedMaterial)).

End Scene.

(** ** Color grading (lib/colorGradingUtils.ts) *)

Module ColorGrading.

(** [interface ColorGradingParams] *)
Record Params : Type := mkParams {
  brightness : Q;
  exposure : Q;
  contrast : Q;
  saturation : Q;
  hue : Q;
  temperature : Q;
  tint : Q;
  vibrance : Q;
  highlights : Q;
  shadows : Q;
  gamma : Q
}.

Definition DEFAULT_COLOR_GRADING : Params :=
  mkParams 0 0 0 0 0 0 0 0 0 0 1.

(** [Partial<ColorGradingParams>]: a key is present or not. *)
Record PartialParams : Type := mkPartial {
  brightness_ : option Q;
  exposure_ : option Q;
  contrast_ : option Q;
  saturation_ : option Q;
  hue_ : option Q;
  temperature_ : option Q;
  tint_ : option Q;
  vibrance_ : option Q;
  highlights_ : option Q;
  shadows_ : option Q;
  gamma_ : option Q
}.

Definition noParams : PartialParams :=
  mkPartial None None None None None None None None None None None.

(** [{ ...DEFAULT_COLOR_GRADING, ...params }] *)
Definition merge (p : PartialParams) : Params :=
  mkParams (default (brightness DEFAULT_COLOR_GRADING) (brightness_ p))
           (default (exposure DEFAULT_COLOR_GRADING) (exposure_ p))
           (default (contrast DEFAULT_COLOR_GRADING) (contrast_ p))
           (default (saturation DEFAULT_COLOR_GRADING) (saturation_ p))
           (default (hue DEFAULT_COLOR_GRADING) (hue_ p))
           (default (temperature DEFAULT_COLOR_GRADING) (temperature_ p))
           (default (tint DEFAULT_COLOR_GRADING) (tint_ p))
           (default (vibrance DEFAULT_COLOR_GRADING) (vibrance_ p))
           (default (highlights DEFAULT_COLOR_GRADING) (highlights_ p))
           (default (shadows DEFAULT_COLOR_GRADING) (shadows_ p))
           (default (gamma DEFAULT_COLOR_GRADING) (gamma_ p)).


(** [a < b] and [a !== b] on numbers. *)
Definition lt (a b : Q) : bool := negb (Qle_bool b a).
Definition neq (a b : Q) : bool := negb (Qeq_bool a b).

Definition max3 (a b c : Q) : Q := Qmax (Qmax a b) c.
Definition min3 (a b c : Q) : Q := Qmin (Qmin a b) c.

Record HSL : Type := mkHSL { hslH : Q; hslS : Q; hslL : Q }.
Record RGB : Type := mkRGB { red : Q; green : Q; blue : Q }.

Definition rgbToHsl (r g b : Q) : HSL :=
  let max := max3 r g b in
  let min := min3 r g b in
  let l := (max + min) / 2 in
  if Qeq_bool max min then mkHSL 0 0 l
  else
    let d := max - min in
    let s := if lt (1 # 2) l then d / (2 - max - min) else d / (max + min) in
    let h :=
      if Qeq_bool max r then ((g - b) / d + (if lt g b then 6 else 0)) / 6
      else if Qeq_bool max g then ((b - r) / d + 2) / 6
           else ((r - g) / d + 4) / 6 in
    mkHSL (h * 360) s l.

Definition hue2rgb (p q t : Q) : Q :=
  let t1 := if lt t 0 then t + 1 else t in
  let t2 := if lt 1 t1 then t1 - 1 else t1 in
  if lt t2 (1 / 6) then p + (q - p) * 6 * t2
  else if lt t2 (1 / 2) then q
       else if lt t2 (2 / 3) then p + (q - p) * (2 / 3 - t2) * 6
            else p.

Definition hslToRgb (h s l : Q) : RGB :=
  let h := h / 360 in
  if Qeq_bool s 0 then mkRGB l l l
  else
    let q := if lt l (1 # 2) then l * (1 + s) else l + s - l * s in
    let p := 2 * l - q in
    mkRGB (hue2rgb p q (h + 1 / 3)) (hue2rgb p q h) (hue2rgb p q (h - 1 / 3)).

(** [hsl.h = (hsl.h + hueDeg) % 360; if (hsl.h < 0) hsl.h += 360;] *)
Definition rotateHue (h hueDeg : Q) : Q :=
  let h' := JS.rem (h + hueDeg) 360 in
  if lt h' 0 then h' + 360 else h'.

(** Storing a number in a [Uint8ClampedArray]: clamped to [0, 255] and
    rounded to the nearest integer, halves to the even one. *)
Definition toUint8Clamped (x : Q) : Z :=
  if Qle_bool x 0 then 0%Z
  else if Qle_bool 255 x then 255%Z
       else
         let f := Qfloor x in
         let frac := x - inject_Z f in
         if lt frac (1 # 2) then f
         else if lt (1 # 2) frac then (f + 1)%Z
              else if Z.even f then f else (f + 1)%Z.

(** One pixel [(r, g, b, a)] of the image data. *)
Record Pixel : Type := mkPixel { pr : Z; pg : Z; pb : Z; pa : Z }.

(** The loop body of [processImageData] updates [r], [g] and [b] in nine
    steps; each step is a function of the color the previous step left.
    [pow] stands for [Math.pow]. *)

(** 1. Exposure *)
Definition exposureStep (pow : Q -> Q -> Q) (params : Params) (c : RGB) : RGB :=
  let exposureFactor := pow 2 (exposure params) in
  if neq (exposure params) 0
  then mkRGB (red c * exposureFactor) (green c * exposureFactor)
             (blue c * exposureFactor)
  else c.

(** 2. Brightness *)
Definition brightnessStep (params : Params) (c : RGB) : RGB :=
  let brightnessFactor := brightness params / 100 in
  if neq (brightness params) 0
  then mkRGB (red c + brightnessFactor) (green c + brightnessFactor)
             (blue c + brightnessFactor)
  else c.

(** 3. Contrast *)
Definition contrastStep (params : Params) (c : RGB) : RGB :=
  let contrastFactor := (contrast params + 100) / 100 in
  if neq (contrast params) 0
  then mkRGB ((red c - (1 # 2)) * contrastFactor + (1 # 2))
             ((green c - (1 # 2)) * contrastFactor + (1 # 2))
             ((blue c - (1 # 2)) * contrastFactor + (1 # 2))
  else c.

(** 4. Gamma *)
Definition gammaStep (pow : Q -> Q -> Q) (params : Params) (c : RGB) : RGB :=
  let gammaValue := gamma params in
  if neq (gamma params) 1
  then mkRGB (pow (red c) (1 / gammaValue)) (pow (green c) (1 / gammaValue))
             (pow (blue c) (1 / gammaValue))
  else c.

(** [0.299 * r + 0.587 * g + 0.114 * b] *)
Definition luma (c : RGB) : Q :=
  (299 # 1000) * red c + (587 # 1000) * green c + (114 # 1000) * blue c.

Definition scaleRGB (factor : Q) (c : RGB) : RGB :=
  mkRGB (red c * factor) (green c * factor) (blue c * factor).

(** 5. Highlights and shadows; [luminance] is computed once. *)
Definition highlightsShadowsStep (params : Params) (c : RGB) : RGB :=
  let highlightsFactor := highlights params / 100 in
  let shadowsFactor := shadows params / 100 in
  if neq (highlights params) 0 || neq (shadows params) 0 then
    let luminance := luma c in
    let c' :=
      if lt (1 # 2) luminance && neq (highlights params) 0
      then scaleRGB (1 + highlightsFactor * (luminance - (1 # 2)) * 2) c
      else c in
    if lt luminance (1 # 2) && neq (shadows params) 0
    then scaleRGB (1 + shadowsFactor * ((1 # 2) - luminance) * 2) c'
    else c'
  else c.

(** 6. Temperature *)
Definition temperatureStep (params : Params) (c : RGB) : RGB :=
  let tempFactor := temperature params / 100 in
  if neq (temperature params) 0
  then mkRGB (red c + tempFactor * (3 # 10)) (green c)
             (blue c - tempFactor * (3 # 10))
  else c.

(** 7. Tint *)
Definition tintStep (params : Params) (c : RGB) : RGB :=
  let tintFactor := tint params / 100 in
  if neq (tint params) 0
  then mkRGB (red c + tintFactor * (2 # 10)) (green c - tintFactor * (2 # 10))
             (blue c + tintFactor * (2 # 10))
  else c.

(** [gray + (c - gray) * k] on each channel. *)
Definition towardsGray (gray k : Q) (c : RGB) : RGB :=
  mkRGB (gray + (red c - gray) * k) (gray + (green c - gray) * k)
        (gray + (blue c - gray) * k).

(** 8. Saturation and vibrance; [gray] is computed once. *)
Definition saturationStep (params : Params) (c : RGB) : RGB :=
  let saturationFactor := (saturation params + 100) / 100 in
  let vibranceFactor := vibrance params / 100 in
  if neq (saturation params) 0 || neq (vibrance params) 0 then
    let gray := luma c in
    let c' :=
      if neq (saturation params) 0 then towardsGray gray saturationFactor c
      else c in
    if neq (vibrance params) 0 then
      let maxRGB := max3 (red c') (green c') (blue c') in
      let minRGB := min3 (red c') (green c') (blue c') in
      let currentSat := maxRGB - minRGB in
      let vibranceAmount := (1 - currentSat) * vibranceFactor in
      towardsGray gray (1 + vibranceAmount) c'
    else c'
  else c.

(** 9. Hue rotation *)
Definition hueStep (params : Params) (c : RGB) : RGB :=
  let hueDeg := hue params in
  if neq (hue params) 0 then
    let hsl := rgbToHsl (red c) (green c) (blue c) in
    hslToRgb (rotateHue (hslH hsl) hueDeg) (hslS hsl) (hslL hsl)
  else c.

Definition gradeColor (pow : Q -> Q -> Q) (params : Params) (c : RGB) : RGB :=
  hueStep params
    (saturationStep params
       (tintStep params
          (temperatureStep params
             (highlightsShadowsStep params
                (gammaStep pow params
                   (contrastStep params
                      (brightnessStep params
                         (exposureStep pow params c)))))))).

(** [data[i] = Math.max(0, Math.min(255, v * 255))] *)
Definition writeChannel (v : Q) : Z :=
  toUint8Clamped (JS.Math_max 0 (JS.Math_min 255 (v * 255))).

(** The loop body for the pixel [(r, g, b, a)]: fully transparent pixels
    are skipped. *)
Definition gradePixel (pow : Q -> Q -> Q) (params : Params) (px : Pixel)
  : Pixel :=
  if Z.eqb (pa px) 0 then px
  else
    let c := gradeColor pow params
                        (mkRGB (inject_Z (pr px) / 255) (inject_Z (pg px) / 255)
                               (inject_Z (pb px) / 255)) in
    mkPixel (writeChannel (red c)) (writeChannel (green c))
            (writeChannel (blue c)) (pa px).

(** [processImageData(data, params)], the data read four bytes at a time. *)
Definition processImageData (pow : Q -> Q -> Q) (params : Params)
           (data : list Pixel) : list Pixel :=
  gradePixel pow params <$> data.

(** A byte. *)
Definition isByte (n : Z) : Prop := (0 <= n <= 255)%Z.

End ColorGrading.

(** ** Device profile and image compression (lib/deviceUtils.ts) *)

Module Device.

(** ['low' | 'medium' | 'high'], the type of the profile and of the GPU
    tier. *)
Inductive DeviceProfile : Type := Low | Medium | High.

Definition isLow (p : DeviceProfile) : bool :=
  match p with Low => true | _ => false end.

Definition isMedium (p : DeviceProfile) : bool :=
  match p with Medium => true | _ => false end.

Record QualitySettings : Type := mkQuality {
  textureSize : Z;
  shadowsEnabled : bool;
  backgroundSegments : Z;
  ambientLightIntensity : Q;
  spotLightIntensity : Q;
  contactShadowOpacity : Q;
  maxRecordingFPS : Z;
  recordingBitrate : Z;
  antialias : bool;
  pixelRatio : Q
}.

(** [toLowerCase] on a string of ASCII characters. *)
Definition toLowerAscii (c : ascii) : ascii :=
  let n := nat_of_ascii c in
  if (65 <=? n)%nat && (n <=? 90)%nat then ascii_of_nat (n + 32) else c.

Fixpoint toLowerCase (s : string) : string :=
  match s with
  | EmptyString => EmptyString
  | String c s' => String (toLowerAscii c) (toLowerCase s')
  end.

(** [s.includes(needle)] *)
Definition includes (s needle : string) : bool :=
  match String.index 0 needle s with
  | Some _ => true
  | None => false
  end.

(** [/Android|webOS|iPhone|iPad|iPod|BlackBerry|IEMobile|Opera Mini/i.test(ua)]:
    one of the alternatives occurs in [ua], letter case ignored. *)
Definition mobilePattern : list string :=
  ["Android"; "webOS"; "iPhone"; "iPad"; "iPod"; "BlackBerry"; "IEMobile";
   "Opera Mini"]%string.

Definition isMobile (userAgent : string) : bool :=
  existsb (fun alt => includes (toLowerCase userAgent) (toLowerCase alt))
          mobilePattern.

(** What [getDeviceProfile] reads of the browser: [navigator.userAgent],
    [navigator.deviceMemory] (absent in some browsers), and the WebGL
    context, if there is one, with the renderer string of its
    [WEBGL_debug_renderer_info] extension, if it has one. *)
Record WebGL : Type := mkWebGL { debugRenderer : option string }.

Record Browser : Type := mkBrowser {
  userAgent : string;
  deviceMemory : option Q;
  webgl : option WebGL
}.

(** [navigator.deviceMemory || 4] *)
Definition memoryOf (b : Browser) : Q :=
  match deviceMemory b with
  | Some m => JS.or m 4
  | None => 4
  end.

(** The GPU heuristic of [getDeviceProfile]. *)
Definition gpuTierOf (b : Browser) : DeviceProfile :=
  match webgl b with
  | Some gl =>
      match debugRenderer gl with
      | Some name =>
          let renderer := toLowerCase name in
          if includes renderer "mali" || includes renderer "adreno 3"
             || includes renderer "adreno 4"
          then Low
          else if includes renderer "adreno 6" || includes renderer "adreno 7"
                  || includes renderer "apple"
               then High
               else Medium
      | None => Medium
      end
  | None => Medium
  end.

(** [getDeviceProfile()] *)
Definition getDeviceProfile (b : Browser) : DeviceProfile :=
  let memory := memoryOf b in
  let gpuTier := gpuTierOf b in
  if isMobile (userAgent b) then
    if ColorGrading.lt memory 3 || isLow gpuTier then Low
    else if ColorGrading.lt memory 6 || isMedium gpuTier then Medium
         else Medium
  else if ColorGrading.lt memory 4 then Medium
       else High.

(** [getQualitySettings(profile)], for the [window.devicePixelRatio] given. *)
Definition getQualitySettings (devicePixelRatio : Q) (profile : DeviceProfile)
  : QualitySettings :=
  match profile with
  | Low => mkQuality 512 false 16 (7 # 10) (5 # 10) 0 24 2000000 false 1
  | Medium =>
      mkQuality 1024 true 32 (5 # 10) (8 # 10) (3 # 10) 30 3500000 true
                (JS.Math_min devicePixelRatio (15 # 10))
  | High =>
      mkQuality 2048 true 60 (5 # 10) 1 (5 # 10) 60 5000000 true
                (JS.Math_min devicePixelRatio 2)
  end.

(** [const qualitySettings = useMemo(...)] of the customize page. *)
Definition qualitySettings (b : Browser) (devicePixelRatio : Q)
  : QualitySettings :=
  let profile := getDeviceProfile b in
  getQualitySettings devicePixelRatio profile.




(** Sample inputs. *)

Definition iPhone : Browser :=
  mkBrowser "Mozilla/5.0 (iPhone; CPU iPhone OS 17_0 like Mac OS X) Safari/604.1"
            None (Some (mkWebGL (Some "Apple GPU"%string))).

Definition laptop : Browser :=
  mkBrowser "Mozilla/5.0 (X11; Linux x86_64) Chrome/120.0 Safari/537.36"
            (Some 8) (Some (mkWebGL (Some "Mali-G78"%string))).



End Device.

(** * Properties *)

(** ** The sticker stack *)

Module StackFacts.
Import Editor.

Lemma zIndex_imap_from (k : nat) (l : list Sticker) :
  zIndex <$> imap (fun i => with_zIndex (k + i)) l = seq k (length l).
Proof.
  revert k; induction l as [|s l IH]; intros k; [reflexivity|].
  cbn [imap fmap list_fmap length seq]. f_equal.
  - cbn. lia.
  - rewrite <- (IH (S k)). f_equal. apply imap_ext; intros i x _. cbn.
    f_equal. lia.
Qed.

(** Renumbering establishes the invariant, whatever the list was. *)
Lemma renumber_zIndex_ok (l : list Sticker) : zIndex_ok (renumber l).
Proof.
  unfold zIndex_ok, renumber. rewrite length_imap.
  exact (zIndex_imap_from 0 l).
Qed.

Lemma zIndex_ok_lookup (l : list Sticker) (i : nat) (s : Sticker) :
  zIndex_ok l -> l !! i = Some s -> zIndex s = i.
Proof.
  unfold zIndex_ok; intros Hok Hi.
  assert (H : (zIndex <$> l) !! i = Some (zIndex s)) by (rewrite list_lookup_fmap, Hi; reflexivity).
  rewrite Hok in H. apply lookup_seq in H as [-> _]. reflexivity.
Qed.

(** Removing keeps the invariant. *)
Lemma deleteSelected_zIndex_ok (render st : State) :
  zIndex_ok (stickers st) -> zIndex_ok (stickers (deleteSelected render st)).
Proof.
  intros Hok. unfold deleteSelected.
  destruct (selectedIndex render) as [i|]; [|exact Hok].
  destruct (stickers render !! i); [|exact Hok].
  apply renumber_zIndex_ok.
Qed.

Lemma deleteThumbnail_zIndex_ok (render : State) (idx : nat) (st : State) :
  zIndex_ok (stickers st) -> zIndex_ok (stickers (deleteThumbnail render idx st)).
Proof.
  intros Hok. unfold deleteThumbnail.
  destruct (stickers render !! idx); [|exact Hok].
  apply renumber_zIndex_ok.
Qed.

(** Reordering keeps the invariant. *)
Lemma bringForward_zIndex_ok (render st : State) :
  zIndex_ok (stickers st) -> zIndex_ok (stickers (bringForward render st)).
Proof.
  intros Hok. unfold bringForward.
  destruct (selectedIndex render); [|exact Hok].
  apply renumber_zIndex_ok.
Qed.

Lemma sendBackward_zIndex_ok (render st : State) :
  zIndex_ok (stickers st) -> zIndex_ok (stickers (sendBackward render st)).
Proof.
  intros Hok. unfold sendBackward.
  destruct (selectedIndex render); [|exact Hok].
  apply renumber_zIndex_ok.
Qed.

(** Adding keeps the invariant when the handler's render is as long as the
    array the updater receives. *)
Lemma addSticker_zIndex_ok (render : State) (newId dataUrl : string)
      (ev : ImageEvent) (st : State) :
  zIndex_ok (stickers st) ->
  length (stickers render) = length (stickers st) ->
  zIndex_ok (stickers (addStickerFromDataUrl render newId dataUrl ev st)).
Proof.
  intros Hok Hlen. destruct ev as [w h|]; [|exact Hok].
  unfold zIndex_ok in *. cbn [addStickerFromDataUrl stickers].
  rewrite fmap_app, length_app, Hok. cbn [fmap list_fmap length newSticker zIndex].
  rewrite Hlen, seq_app. reflexivity.
Qed.

(** C1 (evaluation at the failing input).  Two files chosen in one upload
    on the empty stack: both stickers are built by the handler of the same
    render, so both get [zIndex = 0], and the invariant [zIndex = index]
    does not hold after the second add. *)
Theorem upload_two_files_same_zIndex :
  let files := [mkUpload "a" "data:a" (Onload 400 200);
                mkUpload "b" "data:b" (Onload 400 200)] in
  let after := handleImageUpload initial files initial in
  zIndex <$> stickers after = [0; 0]%nat
  /\ length (stickers after) = 2%nat
  /\ ~ zIndex_ok (stickers after).
Proof.
  cbv zeta. split; [reflexivity|]. split; [reflexivity|].
  unfold zIndex_ok. cbn. discriminate.
Qed.

End StackFacts.

(** ** JavaScript arithmetic *)

Module JSFacts.

Lemma clamp_spec (lo hi v : Q) :
  lo <= hi ->
  lo <= Editor.clamp lo hi v <= hi
  /\ (lo <= v <= hi -> Editor.clamp lo hi v == v).
Proof.
  intros Hlh. unfold Editor.clamp, JS.Math_max, JS.Math_min.
  destruct (Q.min_spec hi v) as [[? E1]|[? E1]];
    destruct (Q.max_spec lo (Qmin hi v)) as [[? E2]|[? E2]];
    repeat split; intros; lra.
Qed.

Lemma max_lower (a b : Q) : a <= JS.Math_max a b.
Proof. unfold JS.Math_max. destruct (Q.max_spec a b) as [[? E]|[? E]]; lra. Qed.

Lemma trunc_nonneg (q : Q) :
  0 <= q -> inject_Z (JS.trunc q) <= q /\ q < inject_Z (JS.trunc q) + 1.
Proof.
  intros Hq. assert (E : JS.trunc q = Qfloor q).
  { destruct q as [n d]. unfold JS.trunc, Qfloor. cbn [Qnum Qden].
    apply Z.quot_div_nonneg; [|lia].
    unfold Qle in Hq. cbn in Hq. lia. }
  rewrite E. split; [apply Qfloor_le|].
  pose proof (Qlt_floor q) as H. rewrite inject_Z_plus in H. exact H.
Qed.

Lemma trunc_nonpos (q : Q) :
  q <= 0 -> q <= inject_Z (JS.trunc q) /\ inject_Z (JS.trunc q) - 1 < q.
Proof.
  intros Hq. assert (E : JS.trunc q = (- Qfloor (- q))%Z).
  { destruct q as [n d]. unfold JS.trunc, Qfloor, Qopp. cbn [Qnum Qden].
    rewrite <- (Z.opp_involutive n) at 1. rewrite Z.quot_opp_l by lia.
    f_equal. apply Z.quot_div_nonneg; [|lia].
    unfold Qle in Hq. cbn in Hq. lia. }
  rewrite E, inject_Z_opp.
  pose proof (Qfloor_le (- q)) as H1. pose proof (Qlt_floor (- q)) as H2.
  rewrite inject_Z_plus in H2. change (inject_Z 1) with 1 in H2.
  split; lra.
Qed.

(** [a % 360]: a multiple of 360 away from [a], strictly between -360 and
    360, and of the sign of [a]. *)
Lemma rem_360 (a : Q) :
  JS.rem a 360 == a - 360 * inject_Z (JS.trunc (a / 360))
  /\ - (360) < JS.rem a 360 < 360
  /\ (0 <= a -> 0 <= JS.rem a 360 < 360)
  /\ (a <= 0 -> - (360) < JS.rem a 360 <= 0).
Proof.
  unfold JS.rem. set (q := a / 360).
  assert (Ea : a == 360 * q) by (unfold q; field).
  assert (Hpos : 0 <= a -> 0 <= a - 360 * inject_Z (JS.trunc q) < 360).
  { intros Ha. destruct (trunc_nonneg q) as [H1 H2]; [lra|]. lra. }
  assert (Hneg : a <= 0 -> - (360) < a - 360 * inject_Z (JS.trunc q) <= 0).
  { intros Ha. destruct (trunc_nonpos q) as [H1 H2]; [lra|]. lra. }
  split; [reflexivity|]. split; [|split; assumption].
  destruct (Qlt_le_dec a 0); [destruct Hneg|destruct Hpos]; lra.
Qed.

Lemma or_nonzero (a b : Q) : ~ a == 0 -> JS.or a b = a.
Proof.
  intros Ha. unfold JS.or. destruct (Qeq_bool a 0) eqn:E; [|reflexivity].
  apply Qeq_bool_eq in E. contradiction.
Qed.

End JSFacts.

(** ** Pointer gestures and crop commit *)

Module GestureFacts.
Import Editor.

Lemma lookup_mapAt (k : nat) (f : Sticker -> Sticker) (prev : list Sticker)
      (s : Sticker) :
  prev !! k = Some s -> mapAt k f prev !! k = Some (f s).
Proof.
  intros Hk. unfold mapAt. rewrite list_lookup_imap, Hk. cbn.
  rewrite Nat.eqb_refl. reflexivity.
Qed.

Lemma lookup_mapAt_other (k i : nat) (f : Sticker -> Sticker)
      (prev : list Sticker) :
  i <> k -> mapAt k f prev !! i = prev !! i.
Proof.
  intros Hik. unfold mapAt. rewrite list_lookup_imap.
  destruct (prev !! i); [|reflexivity]. cbn.
  destruct (Nat.eqb_spec i k); [contradiction|reflexivity].
Qed.

(** C6.  A drag move puts the center of the selected sticker at its old
    pixel position plus the pointer delta, clamped to the frame, and
    converts that back to UV; strictly inside the frame the UV position
    changes by [(dx / W, - dy / H)], so that a drag by (10, -5) in a 360 by
    360 frame adds 10/360 to [uvX] and 5/360 to [uvY]. *)
Theorem drag_center_plus_delta_clamped
        (rect : Rect) (dragStart coords : Coords) (prev : list Sticker)
        (k : nat) (s : Sticker) :
  0 < rectWidth rect -> 0 < rectHeight rect -> prev !! k = Some s ->
  let W := rectWidth rect in
  let H := rectHeight rect in
  let dx := clientX coords - clientX dragStart in
  let dy := clientY coords - clientY dragStart in
  exists s',
    dragMove k rect dragStart coords prev !! k = Some s'
    /\ uvX s' = clamp 0 W (uvX s * W + dx) / W
    /\ uvY s' = 1 - clamp 0 H ((1 - uvY s) * H + dy) / H
    /\ uvX s' * W == clamp 0 W (uvX s * W + dx)
    /\ (1 - uvY s') * H == clamp 0 H ((1 - uvY s) * H + dy)
    /\ 0 <= uvX s' * W <= W
    /\ 0 <= (1 - uvY s') * H <= H
    /\ (0 < uvX s * W + dx < W -> uvX s' == uvX s + dx / W)
    /\ (0 < (1 - uvY s) * H + dy < H -> uvY s' == uvY s - dy / H)
    /\ (W == 360 -> H == 360 -> dx == 10 -> dy == - (5) ->
        0 < uvX s * W + dx < W -> 0 < (1 - uvY s) * H + dy < H ->
        uvX s' == uvX s + 10 / 360 /\ uvY s' == uvY s + 5 / 360).
Proof.
  intros HW HH Hk W H dx dy.
  change (0 < W) in HW. change (0 < H) in HH.
  destruct (JSFacts.clamp_spec 0 W (uvX s * W + dx)) as [HbX HinX]; [lra|].
  destruct (JSFacts.clamp_spec 0 H ((1 - uvY s) * H + dy)) as [HbY HinY]; [lra|].
  set (cX := clamp 0 W (uvX s * W + dx)) in *.
  set (cY := clamp 0 H ((1 - uvY s) * H + dy)) in *.
  exists (with_uv (cX / W) (1 - cY / H) s).
  assert (EX : cX / W * W == cX) by (field; lra).
  assert (EY : (1 - (1 - cY / H)) * H == cY) by (field; lra).
  assert (InX : 0 < uvX s * W + dx < W -> cX / W == uvX s + dx / W).
  { intros Hin. rewrite (HinX ltac:(lra)). field. lra. }
  assert (InY : 0 < (1 - uvY s) * H + dy < H -> 1 - cY / H == uvY s - dy / H).
  { intros Hin. rewrite (HinY ltac:(lra)). field. lra. }
  split.
  { unfold dragMove. rewrite Hk. cbn.
    apply list_lookup_insert_eq. eapply lookup_lt_Some, Hk. }
  cbn [uvX uvY with_uv].
  repeat split; try reflexivity; try assumption; try lra.
  - rewrite InX by assumption.
    assert (E : dx / W == 10 / 360) by (rewrite H0, H2; reflexivity).
    rewrite E. reflexivity.
  - rewrite InY by assumption.
    assert (E : dy / H == - (5) / 360) by (rewrite H1, H3; reflexivity).
    rewrite E. field.
Qed.

Lemma drag_example_360 :
  let s := newSticker initial "a" "data:a" 400 200 in
  exists s',
    dragMove 0 (mkRect 0 0 360 360) (mkCoords 100 100) (mkCoords 110 95) [s] !! 0%nat
    = Some s'
    /\ uvX s' == uvX s + 10 / 360 /\ uvY s' == uvY s + 5 / 360.
Proof.
  cbv zeta.
  destruct (drag_center_plus_delta_clamped
              (mkRect 0 0 360 360) (mkCoords 100 100) (mkCoords 110 95)
              [newSticker initial "a" "data:a" 400 200] 0
              (newSticker initial "a" "data:a" 400 200))
    as (s' & Hs' & _ & _ & _ & _ & _ & _ & _ & _ & Hex);
    [reflexivity | reflexivity | reflexivity |].
  exists s'. split; [exact Hs'|].
  apply Hex; cbn; try reflexivity; split; reflexivity.
Defined.

(** C7 (as stated, refuted).  From rotation 0 the -15 degree button stores
    -15, which is outside [0, 360). *)
Lemma rotate_left_from_zero_is_negative :
  let s := newSticker initial "a" "data:a" 400 200 in
  exists s',
    rotateSticker (mkState [s] (Some 0%nat)) RotLeft [s] = [s']
    /\ rotation s' == - (15)
    /\ ~ (0 <= rotation s' /\ rotation s' < 360).
Proof.
  cbv zeta. eexists. split; [reflexivity|]. split; [reflexivity|].
  intros [H _]. vm_compute in H. apply H. reflexivity.
Qed.

(** C7 (amended).  The rotate handle stores the JavaScript remainder
    [(rotation0 + pointer-angle delta) % 360] and the rotate buttons store
    [(rotation + delta) % 360] with [delta] -15 or +15.  The stored value
    differs from the sum by a multiple of 360, lies strictly between -360
    and 360 and has the sign of the sum: it lies in [0, 360) when the sum
    is not negative, and in (-360, 0] when the sum is not positive. *)
Theorem rotation_is_remainder_by_360 :
  (forall (atan2Deg : Q -> Q -> Q) (st : RotateState) (rect : Rect)
          (coords : Coords) (prev : list Sticker) (s : Sticker),
      prev !! rotIndex st = Some s ->
      let sum := startAngle st
                 + (pointerAngleDeg atan2Deg rect coords s - pointerAngle st) in
      exists s',
        rotateMove atan2Deg st rect coords prev !! rotIndex st = Some s'
        /\ rotation s' = JS.rem sum 360
        /\ rotation s' == sum - 360 * inject_Z (JS.trunc (sum / 360))
        /\ - (360) < rotation s' < 360
        /\ (0 <= sum -> 0 <= rotation s' < 360)
        /\ (sum <= 0 -> - (360) < rotation s' <= 0))
  /\
  (forall (render : State) (direction : Direction) (prev : list Sticker)
          (k : nat) (s : Sticker),
      selectedIndex render = Some k -> prev !! k = Some s ->
      let sum := rotation s
                 + match direction with RotLeft => - (15) | RotRight => 15 end in
      exists s',
        rotateSticker render direction prev !! k = Some s'
        /\ rotation s' = JS.rem sum 360
        /\ rotation s' == sum - 360 * inject_Z (JS.trunc (sum / 360))
        /\ - (360) < rotation s' < 360
        /\ (0 <= sum -> 0 <= rotation s' < 360)
        /\ (sum <= 0 -> - (360) < rotation s' <= 0)).
Proof.
  split.
  - intros atan2Deg st rect coords prev s Hs sum.
    exists (with_rotation (JS.rem sum 360) s). split.
    + unfold rotateMove. rewrite Hs. apply lookup_mapAt, Hs.
    + cbn [rotation with_rotation]. split; [reflexivity|].
      apply JSFacts.rem_360.
  - intros render direction prev k s Hsel Hs sum.
    exists (with_rotation (JS.rem sum 360) s). split.
    + unfold rotateSticker, rotateSelectedBy. rewrite Hsel.
      rewrite (lookup_mapAt _ _ _ _ Hs). unfold buttonRotation, sum.
      destruct direction; reflexivity.
    + cbn [rotation with_rotation]. split; [reflexivity|].
      apply JSFacts.rem_360.
Qed.

Lemma rotation_examples :
  (exists s',
      rotateMove (fun _ _ => 45) (mkRotateState 0 30 0) (mkRect 0 0 360 360)
                 (mkCoords 200 200) [newSticker initial "a" "data:a" 400 200]
      !! 0%nat = Some s'
      /\ rotation s' == 75 /\ 0 <= rotation s' < 360)
  /\
  (exists s',
      rotateSticker (mkState [] (Some 0%nat)) RotRight
                    [with_rotation 350 (newSticker initial "a" "data:a" 400 200)]
      !! 0%nat = Some s'
      /\ rotation s' == 5).
Proof.
  destruct rotation_is_remainder_by_360 as [Hhandle Hbutton]. split.
  - destruct (Hhandle (fun _ _ => 45) (mkRotateState 0 30 0) (mkRect 0 0 360 360)
                      (mkCoords 200 200) [newSticker initial "a" "data:a" 400 200]
                      (newSticker initial "a" "data:a" 400 200) eq_refl)
      as (s' & Hs' & Hrot & _ & _ & Hpos & _).
    exists s'. split; [exact Hs'|]. split; [rewrite Hrot; reflexivity|].
    apply Hpos. discriminate.
  - destruct (Hbutton (mkState [] (Some 0%nat)) RotRight
                      [with_rotation 350 (newSticker initial "a" "data:a" 400 200)]
                      0%nat
                      (with_rotation 350 (newSticker initial "a" "data:a" 400 200))
                      eq_refl eq_refl)
      as (s' & Hs' & Hrot & _).
    exists s'. split; [exact Hs'|]. rewrite Hrot. reflexivity.
Defined.

Lemma round_integer (q : Q) (n : Z) :
  q == inject_Z n -> JS.Math_round q == inject_Z n.
Proof.
  intros Hq. unfold JS.Math_round.
  assert (E : Qfloor (q + (1 # 2)) = n); [|rewrite E; reflexivity].
  apply Z.le_antisymm.
  - apply Z.lt_succ_r. rewrite Zlt_Qlt.
    eapply Qle_lt_trans; [apply Qfloor_le|].
    unfold Z.succ. rewrite inject_Z_plus. change (inject_Z 1) with 1. lra.
  - rewrite <- (Qfloor_Z n). apply Qfloor_resp_le. lra.
Qed.

(** C8 (as stated, refuted).  A sticker of 100 by 50 pixels with aspect
    ratio 2, shrunk by 100 pixels: width and height both stop at 24, and 24
    is not 24 / 2. *)
Lemma resize_height_is_not_width_over_aspect :
  let s := mkSticker "a" (DataUrl "data:a") None (1 # 2) (1 # 2) (15 # 100)
                     100 50 0 2 0 (Some fullCrop) in
  let rs := mkResizeState "a" 200 200 100 50 in
  let s' := resizeOne rs (mkRect 0 0 360 360) (mkCoords 100 100) s in
  startResize (mkState [s] (Some 0%nat)) (mkCoords 200 200) "a" = Some rs
  /\ width s' == 24 /\ height s' == 24
  /\ ~ height s' == width s' / aspectRatio s'.
Proof.
  cbv zeta. split; [reflexivity|]. split; [reflexivity|]. split; [reflexivity|].
  intros H. vm_compute in H. discriminate H.
Qed.

(** C8 (amended).  For a sticker whose [aspectRatio] is not zero, in a
    frame that has a size, and with [delta = max(dx, dy)] the displacement
    of the pointer from the grab point, a resize move stores
    [width = max(24, round(startWidth + delta))] and
    [height = max(24, round(startHeight + delta / aspectRatio))], so neither
    is below 24 pixels; [aspectRatio] itself is left as it was; the new
    [scale] is the new width over [max(frameWidth, frameHeight)], clamped to
    [0.05, 0.5].  The height equals the width divided by [aspectRatio] when
    the grabbed size had that ratio and neither the rounding nor the 24
    pixel floor changes either dimension. *)
Theorem resize_width_height_scale
        (rs : ResizeState) (rect : Rect) (coords : Coords) (s : Sticker) :
  id s = rsId rs -> ~ aspectRatio s == 0 ->
  0 < JS.Math_max (rectWidth rect) (rectHeight rect) ->
  let delta := JS.Math_max (clientX coords - rsX rs) (clientY coords - rsY rs) in
  let biggest := JS.Math_max (rectWidth rect) (rectHeight rect) in
  let s' := resizeOne rs rect coords s in
  width s' = JS.Math_max 24 (JS.Math_round (rsWidth rs + delta))
  /\ 24 <= width s'
  /\ height s' = JS.Math_max 24 (JS.Math_round (rsHeight rs + delta / aspectRatio s))
  /\ 24 <= height s'
  /\ aspectRatio s' = aspectRatio s
  /\ scale s' = JS.Math_min (1 # 2) (JS.Math_max (5 # 100) (width s' / biggest))
  /\ 5 # 100 <= scale s' <= 1 # 2
  /\ (5 # 100 <= width s' / biggest <= 1 # 2 -> scale s' == width s' / biggest)
  /\ (forall n m : Z,
         rsWidth rs == rsHeight rs * aspectRatio s ->
         rsWidth rs + delta == inject_Z n -> (24 <= n)%Z ->
         rsHeight rs + delta / aspectRatio s == inject_Z m -> (24 <= m)%Z ->
         height s' == width s' / aspectRatio s).
Proof.
  intros Hid Ha Hbig delta biggest s'.
  assert (Es' : s' = with_size
                       (JS.Math_max 24 (JS.Math_round (rsWidth rs + delta)))
                       (JS.Math_max 24 (JS.Math_round (rsHeight rs + delta / aspectRatio s)))
                       (JS.Math_min (1 # 2)
                          (JS.Math_max (5 # 100)
                             (JS.Math_max 24 (JS.Math_round (rsWidth rs + delta)) / biggest)))
                       s).
  { unfold s', resizeOne. rewrite Hid, String.eqb_refl. reflexivity. }
  rewrite Es'. cbn [width height scale aspectRatio with_size].
  set (w := JS.Math_max 24 (JS.Math_round (rsWidth rs + delta))).
  set (h := JS.Math_max 24 (JS.Math_round (rsHeight rs + delta / aspectRatio s))).
  assert (Hscale : forall v : Q,
             (5 # 100 <= JS.Math_min (1 # 2) (JS.Math_max (5 # 100) v) <= 1 # 2)
             /\ (5 # 100 <= v <= 1 # 2
                 -> JS.Math_min (1 # 2) (JS.Math_max (5 # 100) v) == v)).
  { intros v. unfold JS.Math_min, JS.Math_max.
    pose proof (Q.max_spec (5 # 100) v) as HM.
    generalize dependent (Qmax (5 # 100) v). intros M HM.
    pose proof (Q.min_spec (1 # 2) M) as Hm.
    generalize dependent (Qmin (1 # 2) M). intros m Hm.
    destruct HM as [[? ?]|[? ?]], Hm as [[? ?]|[? ?]]; repeat split; intros; lra. }
  split; [reflexivity|]. split; [apply JSFacts.max_lower|].
  split; [reflexivity|]. split; [apply JSFacts.max_lower|].
  split; [reflexivity|]. split; [reflexivity|].
  split; [apply Hscale|]. split; [apply Hscale|].
  intros n m Hstart Hn Hn24 Hm Hm24.
  assert (Ew : w == inject_Z n).
  { unfold w, JS.Math_max. rewrite (round_integer _ _ Hn).
    apply Q.max_r. rewrite Zle_Qle in Hn24. exact Hn24. }
  assert (Eh : h == inject_Z m).
  { unfold h, JS.Math_max. rewrite (round_integer _ _ Hm).
    apply Q.max_r. rewrite Zle_Qle in Hm24. exact Hm24. }
  rewrite Ew, Eh, <- Hn, <- Hm, Hstart. field. exact Ha.
Qed.

Lemma resize_example :
  let s := mkSticker "a" (DataUrl "data:a") None (1 # 2) (1 # 2) (15 # 100)
                     100 50 0 2 0 (Some fullCrop) in
  let s' := resizeOne (mkResizeState "a" 200 200 100 50) (mkRect 0 0 360 360)
                      (mkCoords 220 210) s in
  width s' == 120 /\ height s' == 60 /\ scale s' == 120 / 360
  /\ height s' == width s' / aspectRatio s.
Proof.
  cbv zeta.
  destruct (resize_width_height_scale
              (mkResizeState "a" 200 200 100 50) (mkRect 0 0 360 360)
              (mkCoords 220 210)
              (mkSticker "a" (DataUrl "data:a") None (1 # 2) (1 # 2) (15 # 100)
                         100 50 0 2 0 (Some fullCrop))
              eq_refl ltac:(discriminate) eq_refl)
    as (Hw & _ & Hh & _ & _ & Hsc & _ & _ & Hasp).
  split; [rewrite Hw; reflexivity|]. split; [rewrite Hh; reflexivity|].
  split; [rewrite Hsc, Hw; reflexivity|].
  apply (Hasp 120%Z 60%Z); try reflexivity; try discriminate.
Defined.

Lemma isFull_fullCrop : isFull fullCrop = true.
Proof. reflexivity. Qed.

Lemma crop_pixels_positive (c : Crop) (w h : Z) :
  0 < cropWidth c -> 0 < cropHeight c -> (0 < w)%Z -> (0 < h)%Z ->
  0 < cropWidth c / 100 * inject_Z w
  /\ 0 < cropHeight c / 100 * inject_Z h
  /\ 0 < (cropWidth c / 100 * inject_Z w) / (cropHeight c / 100 * inject_Z h).
Proof.
  intros Hcw Hch Hw Hh. rewrite Zlt_Qlt in Hw, Hh.
  change (inject_Z 0) with 0 in Hw, Hh.
  assert (HW : 0 < cropWidth c / 100 * inject_Z w)
    by (apply Qmult_lt_0_compat; [apply Qlt_shift_div_l; lra|exact Hw]).
  assert (HH : 0 < cropHeight c / 100 * inject_Z h)
    by (apply Qmult_lt_0_compat; [apply Qlt_shift_div_l; lra|exact Hh]).
  split; [exact HW|]. split; [exact HH|].
  apply Qlt_shift_div_l; [exact HH|]. lra.
Qed.

(** C9.  Committing a crop that differs from the full image replaces the
    sticker's [src] by the sub-rectangle of the loaded image, taken in
    source pixels ([x/100*W], [y/100*H], [width/100*W], [height/100*H]) and
    drawn on a canvas of that size; [aspectRatio] becomes pixel width over
    pixel height, which is positive; [crop] is reset to the full image.
    Cropping 50% by 50% of a 200 by 100 image gives 100 by 50 and aspect
    ratio 2.  Committing the full-image crop changes nothing. *)
Theorem commitCrop_rasterizes_and_resets
        (render : State) (idx : nat) (s x : Sticker) (c : Crop)
        (w h : Z) (prev : list Sticker) :
  stickers render !! idx = Some s -> crop s = Some c ->
  prev !! idx = Some x ->
  0 < cropWidth c -> 0 < cropHeight c -> (0 < w)%Z -> (0 < h)%Z ->
  let cropW := cropWidth c / 100 * inject_Z w in
  let cropH := cropHeight c / 100 * inject_Z h in
  (isFull c = false ->
   exists x',
     commitCrop render idx (Onload w h) true prev !! idx = Some x'
     /\ src x' = CanvasDataUrl (src s)
                               (cropX c / 100 * inject_Z w)
                               (cropY c / 100 * inject_Z h)
                               cropW cropH cropW cropH
     /\ aspectRatio x' = cropW / cropH
     /\ 0 < aspectRatio x'
     /\ crop x' = Some fullCrop
     /\ (forall i, i <> idx ->
           commitCrop render idx (Onload w h) true prev !! i = prev !! i)
     /\ (cropWidth c == 50 -> cropHeight c == 50 -> w = 200%Z -> h = 100%Z ->
         cropW == 100 /\ cropH == 50 /\ aspectRatio x' == 2))
  /\ (isFull c = true ->
      forall ev ctx2d, commitCrop render idx ev ctx2d prev = prev).
Proof.
  intros Hs Hc Hx Hcw Hch Hw Hh cropW cropH.
  destruct (crop_pixels_positive c w h Hcw Hch Hw Hh) as (HW & HH & Hasp).
  fold cropW cropH in HW, HH, Hasp.
  split.
  - intros Hfull.
    assert (E : commitCrop render idx (Onload w h) true prev
                = mapAt idx (cropped s c w h) prev).
    { unfold commitCrop. rewrite Hs, Hc, Hfull. reflexivity. }
    rewrite E. exists (cropped s c w h x).
    split; [apply lookup_mapAt, Hx|].
    assert (Ea : aspectRatio (cropped s c w h x) = cropW / cropH).
    { unfold cropped, cropPixels. cbn [aspectRatio].
      apply JSFacts.or_nonzero. fold cropW cropH. lra. }
    split; [reflexivity|]. split; [exact Ea|].
    split; [rewrite Ea; exact Hasp|]. split; [reflexivity|].
    split; [intros i Hi; apply lookup_mapAt_other, Hi|].
    intros E50w E50h -> ->. rewrite Ea. unfold cropW, cropH.
    rewrite E50w, E50h. repeat split; reflexivity.
  - intros Hfull ev ctx2d. unfold commitCrop. rewrite Hs, Hc, Hfull.
    reflexivity.
Qed.

(** When the loaded image reports no width, the quotient is falsy and the
    sticker keeps its aspect ratio. *)
Lemma commitCrop_without_width_keeps_aspect
      (s x : Sticker) (c : Crop) (h : Z) :
  aspectRatio (cropped s c 0 h x) = aspectRatio x.
Proof.
  unfold cropped, cropPixels. cbn [aspectRatio]. unfold JS.or.
  assert (E : Qeq_bool (cropWidth c / 100 * inject_Z 0
                        / (cropHeight c / 100 * inject_Z h)) 0 = true).
  { apply Qeq_bool_iff. change (inject_Z 0) with 0.
    unfold Qdiv. rewrite Qmult_0_r. apply Qmult_0_l. }
  rewrite E. reflexivity.
Qed.

Lemma commitCrop_example_200_by_100 :
  let s := mkSticker "a" (DataUrl "data:a") (Some (DataUrl "data:a"))
                     (1 # 2) (1 # 2) (15 # 100) 100 50 0 2 0
                     (Some (mkCrop 0 0 50 50)) in
  exists x',
    commitCrop (mkState [s] (Some 0%nat)) 0 (Onload 200 100) true [s] !! 0%nat
    = Some x'
    /\ src x' = CanvasDataUrl (DataUrl "data:a")
                              (0 / 100 * 200) (0 / 100 * 100)
                              (50 / 100 * 200) (50 / 100 * 100)
                              (50 / 100 * 200) (50 / 100 * 100)
    /\ aspectRatio x' == 2
    /\ crop x' = Some fullCrop.
Proof.
  cbv zeta.
  set (s0 := mkSticker "a" (DataUrl "data:a") (Some (DataUrl "data:a"))
                       (1 # 2) (1 # 2) (15 # 100) 100 50 0 2 0
                       (Some (mkCrop 0 0 50 50))).
  destruct (commitCrop_rasterizes_and_resets
              (mkState [s0] (Some 0%nat)) 0 s0 s0 (mkCrop 0 0 50 50) 200 100 [s0]
              eq_refl eq_refl eq_refl eq_refl eq_refl eq_refl eq_refl)
    as [Hcommit _].
  destruct (Hcommit eq_refl) as (x' & Hx' & Hsrc & _ & _ & Hcrop & _ & Hex).
  exists x'. split; [exact Hx'|]. split; [exact Hsrc|].
  split; [|exact Hcrop].
  apply Hex; reflexivity.
Defined.

End GestureFacts.

(** ** The bake *)

Module BakeFacts.
Import Scene.

Section Run.
Context (decode : Editor.Src -> option Image).

Lemma run_bind {A B : Type} (latency : Editor.Src -> nat)
      (m : Async A) (k : A -> Async B) (now : nat) :
  run decode latency (bind m k) now
  = let o1 := run decode latency m now in
    let o2 := run decode latency (k (result o1)) (finishedAt o1) in
    mkOutcome (result o2) (finishedAt o2) (events o1 ++ events o2).
Proof.
  revert now. induction m as [a|s loaded IHl failed IHf]; intros now.
  - cbn. destruct (run decode latency (k a) now); reflexivity.
  - cbn. destruct (decode s) as [img|].
    + rewrite IHl. reflexivity.
    + rewrite IHf. reflexivity.
Qed.

Lemma stickerOps_cons (texWidth texHeight : Z)
      (entry : option Editor.StickerForScene)
      (rest : list (option Editor.StickerForScene)) :
  stickerOps decode texWidth texHeight (entry :: rest)
  = match entry with
    | Some sticker =>
        match decode (Editor.sceneSrc sticker) with
        | Some img => [stickerOp texWidth texHeight sticker img]
        | None => []
        end
    | None => []
    end ++ stickerOps decode texWidth texHeight rest.
Proof.
  unfold stickerOps. cbn [omap list_omap].
  destruct entry as [sticker|]; [|reflexivity]. cbn.
  destruct (decode (Editor.sceneSrc sticker)); reflexivity.
Qed.

Lemma stickerWarnings_cons (entry : option Editor.StickerForScene)
      (rest : list (option Editor.StickerForScene)) :
  stickerWarnings decode (entry :: rest)
  = match entry with
    | Some sticker =>
        match decode (Editor.sceneSrc sticker) with
        | Some _ => []
        | None => [(warning, Editor.sceneSrc sticker)]
        end
    | None => []
    end ++ stickerWarnings decode rest.
Proof.
  unfold stickerWarnings. cbn [omap list_omap].
  destruct entry as [sticker|]; [|reflexivity]. cbn.
  destruct (decode (Editor.sceneSrc sticker)); reflexivity.
Qed.

(** The loop leaves on the canvas one paint for each sticker that decodes,
    in the order of the array, and one warning for each that does not. *)
Lemma run_drawAll (latency : Editor.Src -> nat) (texWidth texHeight : Z)
      (stickers : list (option Editor.StickerForScene)) (st : BakeState)
      (now : nat) :
  result (run decode latency (drawAll texWidth texHeight stickers st) now)
  = mkBakeState
      (mkCanvas (canvasWidth (canvas st)) (canvasHeight (canvas st))
                (painted (canvas st)
                 ++ stickerOps decode texWidth texHeight stickers))
      (console st ++ stickerWarnings decode stickers).
Proof.
  revert st now. induction stickers as [|entry rest IH]; intros st now.
  - cbn. rewrite !app_nil_r. destruct st as [[? ? ?] ?]; reflexivity.
  - rewrite stickerOps_cons, stickerWarnings_cons.
    destruct entry as [sticker|]; cbn [drawAll].
    + rewrite run_bind. cbn [result]. rewrite IH.
      cbn [drawSticker run]. destruct (decode (Editor.sceneSrc sticker)) as [img|];
        cbn [result run onload onerror canvas console paint canvasWidth
             canvasHeight painted];
        rewrite <- ?app_assoc; reflexivity.
    + rewrite IH. reflexivity.
Qed.

Lemma run_drawAll_events (latency : Editor.Src -> nat) (texWidth texHeight : Z)
      (stickers : list (option Editor.StickerForScene)) (st : BakeState)
      (now : nat) :
  let out := run decode latency (drawAll texWidth texHeight stickers st) now in
  oneAtATime now (events out)
  /\ (now <= finishedAt out)%nat
  /\ requests (events out) = Editor.sceneSrc <$> omap id stickers.
Proof.
  revert st now. induction stickers as [|entry rest IH]; intros st now.
  - cbn. repeat split; lia.
  - destruct entry as [sticker|]; cbn [drawAll].
    + cbv zeta. rewrite run_bind. cbn [events finishedAt].
      cbn [drawSticker run].
      destruct (decode (Editor.sceneSrc sticker)) as [img|];
        cbn [result events finishedAt run app];
        match goal with
        | |- context [run decode latency (drawAll _ _ rest ?st') ?t] =>
            destruct (IH st' t) as (H1 & H2 & H3)
        end;
        cbn [oneAtATime requests omap list_omap fmap list_fmap];
        (split; [repeat split; try lia; exact H1|]);
        (split; [lia|]); cbn; f_equal; exact H3.
    + apply IH.
Qed.

End Run.

Lemma pixelOf_snoc (sample : Rasterizer) (ops : list CanvasOp) (op : CanvasOp)
      (px py : Z) :
  pixelOf sample (ops ++ [op]) px py
  = match opAt sample op px py with
    | Some c => Some c
    | None => pixelOf sample ops px py
    end.
Proof. unfold pixelOf. rewrite foldl_app. reflexivity. Qed.

(** The last paint that touches a pixel decides its color. *)
Lemma pixelOf_last_cover (sample : Rasterizer) (pre post : list CanvasOp)
      (op : CanvasOp) (px py : Z) (c : Color) :
  opAt sample op px py = Some c ->
  (forall op', op' ∈ post -> opAt sample op' px py = None) ->
  pixelOf sample (pre ++ op :: post) px py = Some c.
Proof.
  intros Hop Hpost. induction post as [|op' post IH] using rev_ind.
  - rewrite pixelOf_snoc, Hop. reflexivity.
  - change (pre ++ op :: post ++ [op']) with (pre ++ (op :: post) ++ [op']).
    rewrite app_assoc, pixelOf_snoc.
    rewrite (Hpost op') by (apply elem_of_app; right; apply list_elem_of_singleton; reflexivity).
    apply IH. intros o Ho. apply Hpost, elem_of_app. left; exact Ho.
Qed.

(** What a bake returns for a mesh that has a material and a snapshot. *)
Lemma run_bakeChild (decode : Editor.Src -> option Image)
      (latency : Editor.Src -> nat) (now : nat) (modelColor : string)
      (stickers : list (option Editor.StickerForScene))
      (child : Child) (mat : Material.t) (st0 : OriginalMaps.t) :
  isMesh child = true -> material child = Some mat -> stored child = Some st0 ->
  let size := texSize (textureImage (OriginalMaps.map st0)) in
  let out := run decode latency (bakeChild true modelColor stickers child) now in
  result out
  = mkBaked
      (with_material
         (assignComposite st0
            (mkCanvas size.1 size.2
                      (background modelColor st0 size.1 size.2
                       :: stickerOps decode size.1 size.2 stickers))
            mat)
         child)
      (stickerWarnings decode stickers)
  /\ oneAtATime now (events out)
  /\ requests (events out) = Editor.sceneSrc <$> omap id stickers.
Proof.
  intros Hmesh Hmat Hst size out. unfold out, bakeChild.
  rewrite Hmesh, Hmat, Hst. fold size. destruct size as [W H]. cbn [fst snd].
  rewrite run_bind. cbn [result events run]. rewrite run_drawAll, app_nil_r.
  split; [reflexivity|].
  match goal with
  | |- context [run decode latency (drawAll ?w ?h stickers ?st) now] =>
      destruct (run_drawAll_events decode latency w h stickers st now)
        as (H1 & _ & H3)
  end.
  split; assumption.
Qed.

Lemma stickerOps_app (decode : Editor.Src -> option Image) (W H : Z)
      (l1 l2 : list (option Editor.StickerForScene)) :
  stickerOps decode W H (l1 ++ l2)
  = stickerOps decode W H l1 ++ stickerOps decode W H l2.
Proof. unfold stickerOps. apply omap_app. Qed.

Lemma stickerWarnings_app (decode : Editor.Src -> option Image)
      (l1 l2 : list (option Editor.StickerForScene)) :
  stickerWarnings decode (l1 ++ l2)
  = stickerWarnings decode l1 ++ stickerWarnings decode l2.
Proof. unfold stickerWarnings. apply omap_app. Qed.

(** The paints of the page's stack, split at position [j]. *)
Lemma stickerOps_split (decode : Editor.Src -> option Image) (W H : Z)
      (l : list Editor.Sticker) (j : nat) (B : Editor.Sticker) (imgB : Image) :
  l !! j = Some B -> decode (Editor.src B) = Some imgB ->
  stickerOps decode W H (Some <$> Editor.stickerPropsForScene l)
  = stickerOps decode W H (Some <$> Editor.stickerPropsForScene (take j l))
    ++ stickerOp W H (Editor.forScene B) imgB
    :: stickerOps decode W H (Some <$> Editor.stickerPropsForScene (drop (S j) l)).
Proof.
  intros Hj HB. rewrite <- (take_drop_middle l j B Hj) at 1.
  unfold Editor.stickerPropsForScene. rewrite !fmap_app, stickerOps_app.
  f_equal. cbn [fmap list_fmap]. rewrite stickerOps_cons.
  cbn [Editor.forScene Editor.sceneSrc]. rewrite HB. reflexivity.
Qed.

(** Every paint of the part of the stack above position [j] comes from a
    sticker at a higher position whose image decodes. *)
Lemma stickerOps_above (decode : Editor.Src -> option Image) (W H : Z)
      (l : list Editor.Sticker) (j : nat) (op : CanvasOp) :
  op ∈ stickerOps decode W H (Some <$> Editor.stickerPropsForScene (drop (S j) l)) ->
  exists (k : nat) (C : Editor.Sticker) (imgC : Image),
    (j < k)%nat /\ l !! k = Some C /\ decode (Editor.src C) = Some imgC
    /\ op = stickerOp W H (Editor.forScene C) imgC.
Proof.
  unfold stickerOps. intros Hop.
  apply list_elem_of_omap in Hop as (entry & Hentry & Hf).
  unfold Editor.stickerPropsForScene in Hentry.
  apply list_elem_of_fmap in Hentry as (sc & -> & Hsc).
  apply list_elem_of_fmap in Hsc as (C & -> & HC).
  apply list_elem_of_lookup in HC as (i & Hi). rewrite lookup_drop in Hi.
  cbn in Hf. destruct (decode (Editor.src C)) as [imgC|] eqn:HdC; [|discriminate].
  exists (S j + i)%nat, C, imgC. repeat split; try lia; try assumption.
  cbn in Hf. congruence.
Qed.

(** C2.  For every list of stickers the bake requests one image at a time,
    in the order of the array, and paints each sticker when its image has
    decoded, before the next request; the canvas it assigns holds the
    background and then the paints in the order of the array, and does not
    depend on how long any image takes.  So, for a stack whose [zIndex] is
    the array index, where two stickers overlap the color of the one with
    the higher [zIndex] is the one in the composite (unless a sticker
    still higher covers the pixel too). *)
Theorem bake_paints_in_stack_order
        (decode : Editor.Src -> option Image) (modelColor : string)
        (child : Child) (mat : Material.t) (st0 : OriginalMaps.t) :
  isMesh child = true -> material child = Some mat -> stored child = Some st0 ->
  let W := (texSize (textureImage (OriginalMaps.map st0))).1 in
  let H := (texSize (textureImage (OriginalMaps.map st0))).2 in
  (forall (stickers : list (option Editor.StickerForScene))
          (latency : Editor.Src -> nat) (now : nat),
      let out := run decode latency (bakeChild true modelColor stickers child) now in
      oneAtATime now (events out)
      /\ requests (events out) = Editor.sceneSrc <$> omap id stickers
      /\ (exists c,
             material (bakedChild (result out)) = Some (assignComposite st0 c mat)
             /\ painted c = background modelColor st0 W H
                            :: stickerOps decode W H stickers)
      /\ (forall (latency' : Editor.Src -> nat) (now' : nat),
             result (run decode latency'
                         (bakeChild true modelColor stickers child) now')
             = result out))
  /\
  (forall (sample : Rasterizer) (l : list Editor.Sticker)
          (latency : Editor.Src -> nat) (now : nat)
          (i j : nat) (A B : Editor.Sticker) (imgA imgB : Image)
          (px py : Z) (cA cB : Color),
      Editor.zIndex_ok l ->
      l !! i = Some A -> l !! j = Some B ->
      (Editor.zIndex A < Editor.zIndex B)%nat ->
      decode (Editor.src A) = Some imgA -> decode (Editor.src B) = Some imgB ->
      opAt sample (stickerOp W H (Editor.forScene A) imgA) px py = Some cA ->
      opAt sample (stickerOp W H (Editor.forScene B) imgB) px py = Some cB ->
      (forall (k : nat) (C : Editor.Sticker) (imgC : Image),
          l !! k = Some C -> (Editor.zIndex B < Editor.zIndex C)%nat ->
          decode (Editor.src C) = Some imgC ->
          opAt sample (stickerOp W H (Editor.forScene C) imgC) px py = None) ->
      mapPixel sample
               (bakedChild
                  (result
                     (run decode latency
                          (bakeChild true modelColor
                                     (Some <$> Editor.stickerPropsForScene l)
                                     child) now)))
               px py
      = Some cB).
Proof.
  intros Hmesh Hmat Hst W H. split.
  - intros stickers latency now out.
    destruct (run_bakeChild decode latency now modelColor stickers child mat st0
                            Hmesh Hmat Hst) as (Hres & Hseq & Hreq).
    fold out in Hres, Hseq, Hreq. fold W H in Hres.
    split; [exact Hseq|]. split; [exact Hreq|]. split.
    + eexists. rewrite Hres. cbn [bakedChild material with_material].
      split; reflexivity.
    + intros latency' now'.
      destruct (run_bakeChild decode latency' now' modelColor stickers child
                              mat st0 Hmesh Hmat Hst) as (Hres' & _).
      rewrite Hres', Hres. reflexivity.
  - intros sample l latency now i j A B imgA imgB px py cA cB
           Hok Hi Hj Hlt HdA HdB HcA HcB Habove.
    destruct (run_bakeChild decode latency now modelColor
                            (Some <$> Editor.stickerPropsForScene l) child mat
                            st0 Hmesh Hmat Hst) as (Hres & _).
    rewrite Hres. fold W H.
    cbn [bakedChild material with_material mapPixel assignComposite
         Material.map pixelAt painted].
    rewrite (stickerOps_split decode W H l j B imgB Hj HdB), app_comm_cons.
    apply pixelOf_last_cover; [exact HcB|].
    intros op Hop.
    apply stickerOps_above in Hop as (k & C & imgC & Hjk & Hk & HdC & ->).
    apply (Habove k C imgC Hk); [|exact HdC].
    rewrite (StackFacts.zIndex_ok_lookup l j B Hok Hj),
            (StackFacts.zIndex_ok_lookup l k C Hok Hk).
    exact Hjk.
Qed.

Lemma bake_two_overlapping_stickers :
  let l := [sampleSticker "data:a" 0; sampleSticker "data:b" 1] in
  let out latency :=
    run sampleDecode latency
        (bakeChild true "original" (Some <$> Editor.stickerPropsForScene l)
                   sampleChild) 0 in
  mapPixel sampleRaster (bakedChild (result (out sampleLatency))) 1024 1024
  = Some "data:b"
  /\ oneAtATime 0 (events (out sampleLatency))
  /\ result (out (fun _ => 0%nat)) = result (out sampleLatency).
Proof.
  cbv zeta.
  destruct (bake_paints_in_stack_order
              sampleDecode "original" sampleChild sampleMaterial
              (snapshot sampleMaterial) eq_refl eq_refl eq_refl)
    as [Horder Htop].
  split.
  - apply (Htop sampleRaster
                [sampleSticker "data:a" 0; sampleSticker "data:b" 1]
                sampleLatency 0%nat 0%nat 1%nat
                (sampleSticker "data:a" 0) (sampleSticker "data:b" 1)
                (mkImage "data:a" 400 200 true) (mkImage "data:b" 400 200 true)
                1024%Z 1024%Z "data:a" "data:b");
      try reflexivity.
    + cbn. lia.
    + intros k C imgC Hk Hz.
      destruct k as [|[|k]]; cbn in Hk; try discriminate;
        injection Hk as <-; cbn in Hz; lia.
  - destruct (Horder (Some <$> Editor.stickerPropsForScene
                               [sampleSticker "data:a" 0; sampleSticker "data:b" 1])
                     sampleLatency 0%nat) as (Hseq & _ & _ & Hsame).
    split; [exact Hseq|]. apply Hsame.
Defined.

(** The first image takes 100 ticks and the second one tick: the second is
    requested only when the first has been painted. *)
Example slow_first_image_is_painted_first :
  let l := [sampleSticker "data:a" 0; sampleSticker "data:b" 1] in
  events (run sampleDecode sampleLatency
              (bakeChild true "original"
                         (Some <$> Editor.stickerPropsForScene l)
                         sampleChild) 0)
  = [Requested (Editor.DataUrl "data:a") 0; Loaded (Editor.DataUrl "data:a") 100;
     Requested (Editor.DataUrl "data:b") 100; Loaded (Editor.DataUrl "data:b") 101].
Proof. reflexivity. Qed.

Lemma stickerOps_failed (decode : Editor.Src -> option Image) (W H : Z)
      (before after : list (option Editor.StickerForScene))
      (bad : Editor.StickerForScene) :
  decode (Editor.sceneSrc bad) = None ->
  stickerOps decode W H (before ++ Some bad :: after)
  = stickerOps decode W H (before ++ after).
Proof.
  intros Hbad. rewrite !stickerOps_app, stickerOps_cons, Hbad. reflexivity.
Qed.

(** C3.  A sticker whose image fails to decode is skipped: the bake logs a
    warning naming its source, goes on with the stickers after it, and
    assigns a composite; the mesh it leaves is the mesh left by the bake of
    the same stack without that sticker. *)
Theorem failed_sticker_is_skipped
        (decode : Editor.Src -> option Image) (latency : Editor.Src -> nat)
        (now : nat) (modelColor : string) (child : Child)
        (mat : Material.t) (st0 : OriginalMaps.t)
        (before after : list (option Editor.StickerForScene))
        (bad : Editor.StickerForScene) :
  isMesh child = true -> material child = Some mat -> stored child = Some st0 ->
  decode (Editor.sceneSrc bad) = None ->
  let W := (texSize (textureImage (OriginalMaps.map st0))).1 in
  let H := (texSize (textureImage (OriginalMaps.map st0))).2 in
  let out := run decode latency
                 (bakeChild true modelColor (before ++ Some bad :: after) child)
                 now in
  let without := run decode latency
                     (bakeChild true modelColor (before ++ after) child) now in
  bakedChild (result out) = bakedChild (result without)
  /\ (warning, Editor.sceneSrc bad) ∈ bakedConsole (result out)
  /\ exists c,
      material (bakedChild (result out)) = Some (assignComposite st0 c mat)
      /\ painted c = background modelColor st0 W H
                     :: stickerOps decode W H (before ++ after)
      /\ forall sample px py,
          mapPixel sample (bakedChild (result out)) px py
          = mapPixel sample (bakedChild (result without)) px py.
Proof.
  intros Hmesh Hmat Hst Hbad W H out without.
  destruct (run_bakeChild decode latency now modelColor
                          (before ++ Some bad :: after) child mat st0
                          Hmesh Hmat Hst) as (Hres & _).
  destruct (run_bakeChild decode latency now modelColor
                          (before ++ after) child mat st0
                          Hmesh Hmat Hst) as (Hres' & _).
  fold out in Hres. fold without in Hres'. fold W H in Hres, Hres'.
  rewrite (stickerOps_failed decode W H before after bad Hbad) in Hres.
  assert (E : bakedChild (result out) = bakedChild (result without))
    by (rewrite Hres, Hres'; reflexivity).
  split; [exact E|]. split.
  - rewrite Hres. cbn [bakedConsole]. rewrite stickerWarnings_app.
    apply elem_of_app. right. rewrite stickerWarnings_cons, Hbad.
    apply list_elem_of_here.
  - eexists. rewrite Hres. cbn [bakedChild material with_material].
    split; [reflexivity|]. split; [reflexivity|].
    intros sample px py. fold (bakedChild (mkBaked (with_material
      (assignComposite st0 (mkCanvas W H (background modelColor st0 W H
        :: stickerOps decode W H (before ++ after))) mat) child)
      (stickerWarnings decode (before ++ Some bad :: after)))).
    rewrite <- Hres, E. reflexivity.
Qed.

Lemma bake_with_broken_sticker :
  let a := Editor.forScene (sampleSticker "data:a" 0) in
  let broken := Editor.forScene (sampleSticker "data:broken" 1) in
  let b := Editor.forScene (sampleSticker "data:b" 2) in
  let out := run sampleDecode sampleLatency
                 (bakeChild true "original" [Some a; Some broken; Some b]
                            sampleChild) 0 in
  bakedChild (result out)
  = bakedChild (result (run sampleDecode sampleLatency
                            (bakeChild true "original" [Some a; Some b]
                                       sampleChild) 0))
  /\ bakedConsole (result out) = [(warning, Editor.DataUrl "data:broken")].
Proof.
  cbv zeta.
  destruct (failed_sticker_is_skipped
              sampleDecode sampleLatency 0 "original" sampleChild sampleMaterial
              (snapshot sampleMaterial)
              [Some (Editor.forScene (sampleSticker "data:a" 0))]
              [Some (Editor.forScene (sampleSticker "data:b" 2))]
              (Editor.forScene (sampleSticker "data:broken" 1))
              eq_refl eq_refl eq_refl eq_refl) as (Hsame & _ & _).
  split; [exact Hsame|reflexivity].
Defined.

Lemma texSize_of_image (im : Image) :
  imgWidth im <> 0%Z -> imgHeight im <> 0%Z ->
  texSize (Some im) = (imgWidth im, imgHeight im).
Proof.
  intros Hw Hh. unfold texSize, JS.truthy.
  destruct (Z.eqb_spec (imgWidth im) 0); [contradiction|].
  destruct (Z.eqb_spec (imgHeight im) 0); [contradiction|]. reflexivity.
Qed.

(** The size of the canvas in full: a missing or zero width gives 2048, a
    missing or zero height gives the width just chosen. *)
Lemma texSize_spec (baseImage : option Image) :
  texSize baseImage
  = match baseImage with
    | None => (2048%Z, 2048%Z)
    | Some im =>
        let w := if Z.eqb (imgWidth im) 0 then 2048%Z else imgWidth im in
        (w, if Z.eqb (imgHeight im) 0 then w else imgHeight im)
    end.
Proof.
  destruct baseImage as [im|]; [|reflexivity].
  unfold texSize, JS.truthy.
  destruct (Z.eqb (imgWidth im) 0), (Z.eqb (imgHeight im) 0); reflexivity.
Qed.

Lemma fillAll_covers (sample : Rasterizer) (style : Color) (W H px py : Z) :
  (0 <= px < W)%Z -> (0 <= py < H)%Z ->
  opAt sample (fillAll style W H) px py = Some style.
Proof.
  intros [Hx0 Hx1] [Hy0 Hy1]. unfold fillAll, opAt.
  assert (E1 : Qle_bool 0 (inject_Z px) = true)
    by (apply Qle_bool_iff; rewrite Zle_Qle in Hx0; exact Hx0).
  assert (E2 : Qle_bool (0 + inject_Z W) (inject_Z px) = false).
  { destruct (Qle_bool (0 + inject_Z W) (inject_Z px)) eqn:E; [|reflexivity].
    apply Qle_bool_iff in E. rewrite Zlt_Qlt in Hx1. lra. }
  assert (E3 : Qle_bool 0 (inject_Z py) = true)
    by (apply Qle_bool_iff; rewrite Zle_Qle in Hy0; exact Hy0).
  assert (E4 : Qle_bool (0 + inject_Z H) (inject_Z py) = false).
  { destruct (Qle_bool (0 + inject_Z H) (inject_Z py)) eqn:E; [|reflexivity].
    apply Qle_bool_iff in E. rewrite Zlt_Qlt in Hy1. lra. }
  rewrite E1, E2, E3, E4. reflexivity.
Qed.

(** C4.  The canvas of a bake has the size of the image of the mesh's
    original color map when there is one (with a width and a height), and
    is 2048 by 2048 when there is none.  Its first paint is the background:
    a fill of the whole canvas with the custom color in custom mode; in
    original mode the original image drawn over the whole canvas, or a fill
    with the stored base color when there is no map.  With an empty stack
    and a custom color, every pixel of the composite has that color, and
    ["#ff0000"] is a custom color. *)
Theorem bake_canvas_size_and_background
        (decode : Editor.Src -> option Image) (latency : Editor.Src -> nat)
        (now : nat) (modelColor : string)
        (stickers : list (option Editor.StickerForScene))
        (child : Child) (mat : Material.t) (st0 : OriginalMaps.t) :
  isMesh child = true -> material child = Some mat -> stored child = Some st0 ->
  let baseImage := textureImage (OriginalMaps.map st0) in
  let out := run decode latency (bakeChild true modelColor stickers child) now in
  exists (c : Canvas) (rest : list CanvasOp),
    material (bakedChild (result out)) = Some (assignComposite st0 c mat)
    /\ painted c
       = background modelColor st0 (canvasWidth c) (canvasHeight c) :: rest
    /\ (forall im, baseImage = Some im ->
                   imgWidth im <> 0%Z -> imgHeight im <> 0%Z ->
                   canvasWidth c = imgWidth im /\ canvasHeight c = imgHeight im)
    /\ (baseImage = None ->
        canvasWidth c = 2048%Z /\ canvasHeight c = 2048%Z)
    /\ (isCustom modelColor = true ->
        background modelColor st0 (canvasWidth c) (canvasHeight c)
        = FillRect modelColor 0 0 (inject_Z (canvasWidth c))
                   (inject_Z (canvasHeight c)))
    /\ (isCustom modelColor = false ->
        forall im, baseImage = Some im -> imgUsable im = true ->
                   background modelColor st0 (canvasWidth c) (canvasHeight c)
                   = DrawImage im 0 0 0 0 0 (inject_Z (canvasWidth c))
                               (inject_Z (canvasHeight c)))
    /\ (isCustom modelColor = false -> baseImage = None ->
        background modelColor st0 (canvasWidth c) (canvasHeight c)
        = FillRect (OriginalMaps.color st0) 0 0 (inject_Z (canvasWidth c))
                   (inject_Z (canvasHeight c)))
    /\ (isCustom modelColor = true -> stickers = [] ->
        forall (sample : Rasterizer) (px py : Z),
          (0 <= px < canvasWidth c)%Z -> (0 <= py < canvasHeight c)%Z ->
          mapPixel sample (bakedChild (result out)) px py = Some modelColor)
    /\ isCustom "#ff0000" = true.
Proof.
  intros Hmesh Hmat Hst baseImage out.
  destruct (run_bakeChild decode latency now modelColor stickers child mat st0
                          Hmesh Hmat Hst) as (Hres & _).
  fold out baseImage in Hres.
  set (W := (texSize baseImage).1) in *. set (H := (texSize baseImage).2) in *.
  exists (mkCanvas W H (background modelColor st0 W H
                        :: stickerOps decode W H stickers)),
         (stickerOps decode W H stickers).
  cbn [canvasWidth canvasHeight painted].
  split; [rewrite Hres; reflexivity|]. split; [reflexivity|].
  split.
  { intros im Him Hw Hh. unfold W, H. rewrite Him, texSize_of_image by assumption.
    split; reflexivity. }
  split.
  { intros Hnone. unfold W, H. rewrite Hnone. split; reflexivity. }
  split.
  { intros Hc. unfold background. rewrite Hc. reflexivity. }
  split.
  { intros Hc im Him Hu. unfold background. fold baseImage.
    rewrite Hc, Him, Hu. reflexivity. }
  split.
  { intros Hc Hnone. unfold background. fold baseImage.
    rewrite Hc, Hnone. reflexivity. }
  split; [|reflexivity].
  intros Hc -> sample px py Hpx Hpy. rewrite Hres.
  cbn [bakedChild material with_material mapPixel assignComposite
       Material.map pixelAt painted].
  change (stickerOps decode W H []) with (@nil CanvasOp).
  apply (pixelOf_last_cover sample [] []); [|intros op Hop; inversion Hop].
  unfold background. rewrite Hc. apply fillAll_covers; assumption.
Qed.

Lemma bake_empty_stack_custom_red :
  let out := run sampleDecode sampleLatency
                 (bakeChild true "#ff0000" [] sampleChild) 0 in
  let textured := run sampleDecode sampleLatency
                      (bakeChild true "original" [] sampleTexturedChild) 0 in
  mapPixel sampleRaster (bakedChild (result out)) 0 0 = Some "#ff0000"
  /\ mapPixel sampleRaster (bakedChild (result out)) 2047 2047 = Some "#ff0000"
  /\ (exists c rest,
         material (bakedChild (result textured))
         = Some (assignComposite (snapshot sampleTexturedMaterial) c
                                 sampleTexturedMaterial)
         /\ canvasWidth c = 1024%Z /\ canvasHeight c = 512%Z
         /\ painted c
            = DrawImage (mkImage "base" 1024 512 true) 0 0 0 0 0 1024 512 :: rest).
Proof.
  cbv zeta.
  destruct (bake_canvas_size_and_background
              sampleDecode sampleLatency 0 "#ff0000" [] sampleChild
              sampleMaterial (snapshot sampleMaterial) eq_refl eq_refl eq_refl)
    as (c & rest & _ & _ & _ & Hsize & _ & _ & _ & Hred & _).
  destruct (Hsize eq_refl) as [HW HH].
  split; [apply (Hred eq_refl eq_refl); rewrite ?HW, ?HH; lia|].
  split; [apply (Hred eq_refl eq_refl); rewrite ?HW, ?HH; lia|].
  destruct (bake_canvas_size_and_background
              sampleDecode sampleLatency 0 "original" [] sampleTexturedChild
              sampleTexturedMaterial (snapshot sampleTexturedMaterial)
              eq_refl eq_refl eq_refl)
    as (c' & rest' & Hmat & Hpaint & Hdims & _ & _ & Hdraw & _).
  destruct (Hdims (mkImage "base" 1024 512 true) eq_refl) as [HW' HH'];
    [discriminate | discriminate |].
  exists c', rest'. split; [exact Hmat|].
  cbn in HW', HH'. split; [exact HW'|]. split; [exact HH'|].
  rewrite Hpaint, (Hdraw eq_refl (mkImage "base" 1024 512 true) eq_refl eq_refl).
  rewrite HW', HH'. reflexivity.
Defined.

(** C5.  A bake assigns the finished composite, a canvas texture with
    [flipY] off, as the material's color map, and assigns the normal,
    roughness, metalness, ambient-occlusion and emissive maps from the
    snapshot; when the snapshot is the one taken of a material at load
    time, these are that material's maps. *)
Theorem bake_replaces_only_color_map
        (decode : Editor.Src -> option Image) (latency : Editor.Src -> nat)
        (now : nat) (modelColor : string)
        (stickers : list (option Editor.StickerForScene))
        (child : Child) (mat : Material.t) (st0 : OriginalMaps.t) :
  isMesh child = true -> material child = Some mat -> stored child = Some st0 ->
  let W := (texSize (textureImage (OriginalMaps.map st0))).1 in
  let H := (texSize (textureImage (OriginalMaps.map st0))).2 in
  let out := run decode latency (bakeChild true modelColor stickers child) now in
  exists (c : Canvas) (mat' : Material.t),
    material (bakedChild (result out)) = Some mat'
    /\ stored (bakedChild (result out)) = Some st0
    /\ Material.map mat' = Some (CanvasTexture c false)
    /\ painted c = background modelColor st0 W H
                   :: stickerOps decode W H stickers
    /\ Material.normalMap mat' = OriginalMaps.normalMap st0
    /\ Material.roughnessMap mat' = OriginalMaps.roughnessMap st0
    /\ Material.metalnessMap mat' = OriginalMaps.metalnessMap st0
    /\ Material.aoMap mat' = OriginalMaps.aoMap st0
    /\ Material.emissiveMap mat' = OriginalMaps.emissiveMap st0
    /\ (forall mat0 : Material.t,
           st0 = snapshot mat0 ->
           Material.normalMap mat' = Material.normalMap mat0
           /\ Material.roughnessMap mat' = Material.roughnessMap mat0
           /\ Material.metalnessMap mat' = Material.metalnessMap mat0
           /\ Material.aoMap mat' = Material.aoMap mat0
           /\ Material.emissiveMap mat' = Material.emissiveMap mat0).
Proof.
  intros Hmesh Hmat Hst W H out.
  destruct (run_bakeChild decode latency now modelColor stickers child mat st0
                          Hmesh Hmat Hst) as (Hres & _).
  fold out in Hres. fold W H in Hres. rewrite Hres.
  cbn [bakedChild material stored with_material].
  do 2 eexists. split; [reflexivity|]. split; [exact Hst|].
  cbn [assignComposite Material.map Material.normalMap Material.roughnessMap
       Material.metalnessMap Material.aoMap Material.emissiveMap].
  split; [reflexivity|]. split; [reflexivity|].
  do 5 (split; [reflexivity|]).
  intros mat0 ->. repeat split; reflexivity.
Qed.

Lemma bake_keeps_sample_normal_map :
  let out := run sampleDecode sampleLatency
                 (bakeChild true "#ff0000"
                            [Some (Editor.forScene (sampleSticker "data:a" 0))]
                            sampleTexturedChild) 0 in
  exists c mat',
    material (bakedChild (result out)) = Some mat'
    /\ Material.map mat' = Some (CanvasTexture c false)
    /\ Material.normalMap mat' = Some (ModelTexture "normal" None).
Proof.
  cbv zeta.
  destruct (bake_replaces_only_color_map
              sampleDecode sampleLatency 0 "#ff0000"
              [Some (Editor.forScene (sampleSticker "data:a" 0))]
              sampleTexturedChild sampleTexturedMaterial
              (snapshot sampleTexturedMaterial) eq_refl eq_refl eq_refl)
    as (c & mat' & Hmat & _ & Hmap & _ & _ & _ & _ & _ & _ & Hsnap).
  exists c, mat'. split; [exact Hmat|]. split; [exact Hmap|].
  destruct (Hsnap sampleTexturedMaterial eq_refl) as (Hn & _). exact Hn.
Defined.

(** C10.  A bake that completes leaves the material's color white,
    whatever the model color is; the reset effect, which runs its body only
    for the model color ["reset"], puts back the stored maps and the stored
    base color, and for any other model color leaves the mesh alone. *)
Theorem bake_sets_material_color_white :
  (forall (decode : Editor.Src -> option Image) (latency : Editor.Src -> nat)
          (now : nat) (modelColor : string)
          (stickers : list (option Editor.StickerForScene))
          (child : Child) (mat : Material.t) (st0 : OriginalMaps.t),
      isMesh child = true -> material child = Some mat ->
      stored child = Some st0 ->
      exists mat',
        material (bakedChild
                    (result (run decode latency
                                 (bakeChild true modelColor stickers child) now)))
        = Some mat'
        /\ Material.color mat' = Some "#ffffff")
  /\
  (forall (child : Child) (mat : Material.t) (st0 : OriginalMaps.t),
      isMesh child = true -> material child = Some mat ->
      stored child = Some st0 ->
      material (restoreChild "reset" child)
      = Some (Material.mk (OriginalMaps.map st0) (OriginalMaps.normalMap st0)
                          (OriginalMaps.roughnessMap st0)
                          (OriginalMaps.metalnessMap st0)
                          (OriginalMaps.aoMap st0)
                          (OriginalMaps.emissiveMap st0)
                          (Some (OriginalMaps.color st0)) true))
  /\
  (forall (modelColor : string) (child : Child),
      modelColor <> "reset" -> restoreChild modelColor child = child).
Proof.
  split; [|split].
  - intros decode latency now modelColor stickers child mat st0 Hmesh Hmat Hst.
    destruct (run_bakeChild decode latency now modelColor stickers child mat st0
                            Hmesh Hmat Hst) as (Hres & _).
    rewrite Hres. eexists. split; reflexivity.
  - intros child mat st0 Hmesh Hmat Hst. unfold restoreChild.
    rewrite Hmesh, Hmat, Hst. reflexivity.
  - intros modelColor child Hneq. unfold restoreChild.
    destruct (String.eqb_spec modelColor "reset"); [contradiction|reflexivity].
Qed.

Lemma bake_original_mode_is_white_then_reset :
  let baked := bakedChild
                 (result (run sampleDecode sampleLatency
                              (bakeChild true "original" [] sampleChild) 0)) in
  (exists mat', material baked = Some mat'
                /\ Material.color mat' = Some "#ffffff")
  /\ (exists mat', material (restoreChild "reset" baked) = Some mat'
                   /\ Material.color mat' = Some "#808080")
  /\ restoreChild "original" baked = baked.
Proof.
  cbv zeta.
  destruct bake_sets_material_color_white as (Hbake & Hreset & Hother).
  split; [|split].
  - apply (Hbake sampleDecode sampleLatency 0%nat "original" [] sampleChild
                 sampleMaterial (snapshot sampleMaterial));
      reflexivity.
  - eexists. split.
    + apply (Hreset _ (assignComposite (snapshot sampleMaterial)
                         (mkCanvas 2048 2048
                            [background "original" (snapshot sampleMaterial)
                                        2048 2048])
                         sampleMaterial)
                    (snapshot sampleMaterial)); reflexivity.
    + reflexivity.
  - apply Hother. discriminate.
Defined.

End BakeFacts.

(** ** More on the sticker stack *)

Module StackExtra.
Import Editor.

Lemma shape_zIndex (l : list Sticker) : zIndex <$> l = snd <$> shape l.
Proof. unfold shape. rewrite <- list_fmap_compose. reflexivity. Qed.

Lemma shape_length (l : list Sticker) : length (shape l) = length l.
Proof. unfold shape. apply length_fmap. Qed.

Lemma shape_zIndex_ok (l l' : list Sticker) :
  shape l' = shape l -> zIndex_ok l -> zIndex_ok l'.
Proof.
  unfold zIndex_ok. intros Hshape Hok.
  rewrite shape_zIndex, Hshape, <- shape_zIndex, Hok.
  rewrite <- (shape_length l), <- Hshape, shape_length. reflexivity.
Qed.

Lemma shape_fmap (f : Sticker -> Sticker) (l : list Sticker) :
  (forall s, id (f s) = id s /\ zIndex (f s) = zIndex s) ->
  shape (f <$> l) = shape l.
Proof.
  intros Hf. unfold shape. rewrite <- list_fmap_compose.
  apply list_fmap_ext. intros i s _. cbn. destruct (Hf s) as [-> ->].
  reflexivity.
Qed.

Lemma shape_mapAt (k : nat) (f : Sticker -> Sticker) (l : list Sticker) :
  (forall s, id (f s) = id s /\ zIndex (f s) = zIndex s) ->
  shape (mapAt k f l) = shape l.
Proof.
  intros Hf. unfold shape, mapAt. apply list_eq. intros i.
  rewrite !list_lookup_fmap, list_lookup_imap.
  destruct (l !! i) as [s|]; [|reflexivity]. cbn.
  destruct (i =? k)%nat; [|reflexivity].
  destruct (Hf s) as [-> ->]. reflexivity.
Qed.

Lemma shape_insert (k : nat) (s s' : Sticker) (l : list Sticker) :
  l !! k = Some s -> id s' = id s -> zIndex s' = zIndex s ->
  shape (<[k := s']> l) = shape l.
Proof.
  intros Hk Hid Hz. unfold shape. rewrite list_fmap_insert, Hid, Hz.
  apply list_insert_id. rewrite list_lookup_fmap, Hk. reflexivity.
Qed.

Lemma shape_dragMove (l : list Sticker) (k : nat) (rect : Rect)
      (dragStart coords : Coords) :
  shape (dragMove k rect dragStart coords l) = shape l.
Proof.
  unfold dragMove. destruct (l !! k) as [s|] eqn:Hk; [|reflexivity].
  destruct (dragCenter rect dragStart coords s) as [cx cy].
  apply (shape_insert k s); [exact Hk|reflexivity|reflexivity].
Qed.

Lemma shape_dragPath (path : list Coords) (l : list Sticker) (k : nat)
      (rect : Rect) (dragStart : Coords) :
  shape (dragPath k rect dragStart path l) = shape l.
Proof.
  revert dragStart l. induction path as [|c path IH]; intros dragStart l;
    [reflexivity|].
  cbn [dragPath]. rewrite IH. apply shape_dragMove.
Qed.

Lemma shape_cropLive (l : list Sticker) (k : nat) (cs : CropState)
      (thumb : Rect) (e : Coords) :
  shape (cropLive k cs thumb e l) = shape l.
Proof. apply shape_mapAt. intros s. split; reflexivity. Qed.

Lemma shape_commitCrop (l : list Sticker) (render : State) (k : nat)
      (ev : ImageEvent) (ctx2d : bool) :
  shape (commitCrop render k ev ctx2d l) = shape l.
Proof.
  unfold commitCrop.
  destruct (stickers render !! k) as [s|]; [|reflexivity].
  destruct (crop s) as [c|]; [|reflexivity].
  destruct (isFull c); [reflexivity|].
  destruct ev as [w h|]; [|reflexivity].
  destruct ctx2d; [|reflexivity].
  apply shape_mapAt. intros x. unfold cropped.
  destruct (cropPixels c w h) as [[[? ?] ?] ?]. split; reflexivity.
Qed.

Lemma shape_cropDrag (l : list Sticker) (grab : State) (k : nat)
      (cs : CropState) (thumb : Rect) (moves : list Coords)
      (ev : ImageEvent) (ctx2d : bool) :
  shape (cropDrag grab k cs thumb moves ev ctx2d l) = shape l.
Proof.
  unfold cropDrag. rewrite shape_commitCrop.
  induction moves as [|e moves IH] using rev_ind; [reflexivity|].
  rewrite foldl_app. cbn [foldl]. rewrite shape_cropLive. exact IH.
Qed.

(** X1.  No gesture and no control button adds, removes, reorders or
    renumbers stickers: drag, resize, the rotate handle, the rotate, move,
    scale, flip and reset buttons, the crop drag, the crop commit and the
    grading reset all leave the identifier and the [zIndex] of every
    position as they were; so they keep [zIndex = index] when it holds. *)
Theorem updaters_keep_ids_and_zIndex (prev : list Sticker) :
  let kept (next : list Sticker) :=
    shape next = shape prev /\ (zIndex_ok prev -> zIndex_ok next) in
  (forall k rect dragStart coords, kept (dragMove k rect dragStart coords prev))
  /\ (forall k rect dragStart path, kept (dragPath k rect dragStart path prev))
  /\ (forall rs rect coords, kept (resizeMove rs rect coords prev))
  /\ (forall atan2Deg st rect coords,
         kept (rotateMove atan2Deg st rect coords prev))
  /\ (forall render deg, kept (rotateSelectedBy render deg prev))
  /\ (forall render direction, kept (rotateSticker render direction prev))
  /\ (forall render frame direction, kept (moveSticker render frame direction prev))
  /\ (forall render frame direction, kept (scaleSticker render frame direction prev))
  /\ (forall render direction, kept (flipSticker render direction prev))
  /\ (forall render frame, kept (resetSticker render frame prev))
  /\ (forall k cs thumb e, kept (cropLive k cs thumb e prev))
  /\ (forall render k ev ctx2d, kept (commitCrop render k ev ctx2d prev))
  /\ (forall grab k cs thumb moves ev ctx2d,
         kept (cropDrag grab k cs thumb moves ev ctx2d prev))
  /\ (forall render, kept (resetColorGrading render prev)).
Proof.
  intros kept.
  assert (Hkept : forall next, shape next = shape prev -> kept next).
  { intros next Hs. split; [exact Hs|]. apply shape_zIndex_ok, Hs. }
  repeat match goal with |- _ /\ _ => split end; intros; apply Hkept.
  - apply shape_dragMove.
  - apply shape_dragPath.
  - apply shape_fmap. intros sk. unfold resizeOne.
    destruct (negb _); split; reflexivity.
  - unfold rotateMove. destruct (prev !! rotIndex st); [|reflexivity].
    apply shape_mapAt. intros sk. split; reflexivity.
  - unfold rotateSelectedBy. destruct (selectedIndex render); [|reflexivity].
    apply shape_mapAt. intros sk. split; reflexivity.
  - unfold rotateSticker, rotateSelectedBy.
    destruct (selectedIndex render); [|reflexivity].
    apply shape_mapAt. intros sk. split; reflexivity.
  - unfold moveSticker. destruct (selectedIndex render), frame; try reflexivity.
    apply shape_mapAt. intros sk. split; reflexivity.
  - unfold scaleSticker. destruct (selectedIndex render), frame; try reflexivity.
    apply shape_mapAt. intros sk. split; reflexivity.
  - unfold flipSticker. destruct (selectedIndex render); [|reflexivity].
    apply shape_mapAt. intros sk. destruct direction; split; reflexivity.
  - unfold resetSticker. destruct (selectedIndex render), frame; try reflexivity.
    apply shape_mapAt. intros sk. split; reflexivity.
  - apply shape_cropLive.
  - apply shape_commitCrop.
  - apply shape_cropDrag.
  - unfold resetColorGrading. destruct (selectedIndex render) as [k|]; [|reflexivity].
    destruct (stickers render !! k); [|reflexivity].
    destruct (srcTruthy _); [|reflexivity].
    apply shape_mapAt. intros sk. split; reflexivity.
Qed.

Lemma updaters_keep_sample_stack :
  let l := [Scene.sampleSticker "a" 0; Scene.sampleSticker "b" 1] in
  zIndex_ok (dragPath 1 (mkRect 0 0 360 360) (mkCoords 0 0)
                      [mkCoords 10 10; mkCoords 400 5] l)
  /\ shape (resizeMove (mkResizeState "a" 0 0 100 50) (mkRect 0 0 360 360)
                       (mkCoords 30 10) l) = [("a", 0%nat); ("b", 1%nat)].
Proof.
  cbv zeta.
  destruct (updaters_keep_ids_and_zIndex
              [Scene.sampleSticker "a" 0; Scene.sampleSticker "b" 1])
    as (_ & Hpath & Hresize & _).
  split.
  - apply Hpath. reflexivity.
  - apply Hresize.
Defined.

Lemma filter_keeps_all (P : Sticker -> Prop) `{!forall x, Decision (P x)}
      (l : list Sticker) :
  (forall x, x ∈ l -> P x) -> filter P l = l.
Proof.
  induction l as [|x l IH]; intros Hall; [reflexivity|].
  rewrite filter_cons_True by (apply Hall, list_elem_of_here).
  f_equal. apply IH. intros y Hy. apply Hall, list_elem_of_further, Hy.
Qed.

Lemma filter_other_ids (l : list Sticker) (k : nat) (s : Sticker) :
  NoDup (id <$> l) -> l !! k = Some s ->
  filter (fun x => id x <> id s) l = delete k l.
Proof.
  revert k. induction l as [|x l IH]; intros k Hnd Hk; [discriminate|].
  cbn [fmap list_fmap] in Hnd. apply NoDup_cons in Hnd as [Hx Hnd].
  destruct k as [|k]; cbn in Hk.
  - injection Hk as ->. rewrite filter_cons_False by (intros H; apply H; reflexivity).
    cbn [delete]. apply filter_keeps_all.
    intros y Hy Heq. apply Hx. rewrite <- Heq.
    apply list_elem_of_fmap. exists y. split; [reflexivity|exact Hy].
  - assert (Hne : id x <> id s).
    { intros Heq. apply Hx. rewrite Heq. apply list_elem_of_fmap. exists s.
      split; [reflexivity|]. eapply list_elem_of_lookup_2, Hk. }
    rewrite filter_cons_True by exact Hne.
    change (delete (S k) (x :: l)) with (x :: delete k l). f_equal.
    apply IH; assumption.
Qed.

(** X2.  With distinct identifiers, deleting the selected sticker (or the
    sticker of a thumbnail) removes that sticker and no other: the others
    stay in their order, are renumbered from 0, and the selection is
    cleared. *)
Theorem delete_removes_exactly_one (st : State) (k : nat) (s : Sticker) :
  NoDup (id <$> stickers st) -> stickers st !! k = Some s ->
  (selectedIndex st = Some k ->
   stickers (deleteSelected st st) = renumber (delete k (stickers st))
   /\ selectedIndex (deleteSelected st st) = None)
  /\ stickers (deleteThumbnail st k st) = renumber (delete k (stickers st))
  /\ selectedIndex (deleteThumbnail st k st) = None
  /\ id <$> renumber (delete k (stickers st)) = delete k (id <$> stickers st)
  /\ S (length (renumber (delete k (stickers st)))) = length (stickers st)
  /\ zIndex_ok (renumber (delete k (stickers st))).
Proof.
  intros Hnd Hk.
  assert (Hids : forall l : list Sticker, id <$> renumber l = id <$> l).
  { intros l. unfold renumber. apply list_eq. intros i.
    rewrite !list_lookup_fmap, list_lookup_imap.
    destruct (l !! i); reflexivity. }
  split; [|split; [|split; [|split; [|split]]]].
  - intros Hsel. unfold deleteSelected. rewrite Hsel, Hk. cbn.
    unfold removeById. rewrite (filter_other_ids _ k s Hnd Hk). split; reflexivity.
  - unfold deleteThumbnail. rewrite Hk. cbn. unfold removeById.
    rewrite (filter_other_ids _ k s Hnd Hk). reflexivity.
  - unfold deleteThumbnail. rewrite Hk. reflexivity.
  - rewrite Hids. apply list_fmap_delete.
  - unfold renumber. rewrite length_imap, length_delete by (rewrite Hk; eauto).
    apply lookup_lt_Some in Hk. lia.
  - apply StackFacts.renumber_zIndex_ok.
Qed.

Lemma delete_middle_of_three :
  let st := mkState [Scene.sampleSticker "a" 0; Scene.sampleSticker "b" 1;
                     Scene.sampleSticker "c" 2] (Some 1%nat) in
  shape (stickers (deleteSelected st st)) = [("a", 0%nat); ("c", 1%nat)]
  /\ selectedIndex (deleteSelected st st) = None.
Proof.
  cbv zeta.
  destruct (delete_removes_exactly_one
              (mkState [Scene.sampleSticker "a" 0; Scene.sampleSticker "b" 1;
                        Scene.sampleSticker "c" 2] (Some 1%nat))
              1 (Scene.sampleSticker "b" 1)) as (Hsel & _).
  - compute_done.
  - reflexivity.
  - destruct (Hsel eq_refl) as [-> ->]. split; reflexivity.
Defined.

Lemma renumber_ids (l : list Sticker) : id <$> renumber l = id <$> l.
Proof.
  unfold renumber. apply list_eq. intros i.
  rewrite !list_lookup_fmap, list_lookup_imap. destruct (l !! i); reflexivity.
Qed.

Lemma renumber_lookup (l : list Sticker) (i : nat) (s : Sticker) :
  l !! i = Some s -> renumber l !! i = Some (with_zIndex i s).
Proof.
  intros Hi. unfold renumber. rewrite list_lookup_imap, Hi. reflexivity.
Qed.

(** X3.  For a selected index inside the stack, [bringForward] moves that
    sticker to the end of the array (painted last) and [sendBackward] to
    the start (painted first); the other stickers keep their relative
    order, nothing is added or lost, the stack is renumbered, and the
    selection follows the moved sticker. *)
Theorem reorder_moves_selected_to_an_end (st : State) (k : nat) (s : Sticker) :
  selectedIndex st = Some k -> stickers st !! k = Some s ->
  let l := stickers st in
  let front := bringForward st st in
  let back := sendBackward st st in
  id <$> stickers front = delete k (id <$> l) ++ [id s]
  /\ length (stickers front) = length l
  /\ selectedIndex front = Some (length l - 1)%nat
  /\ stickers front !! (length l - 1)%nat
     = Some (with_zIndex (length l - 1) s)
  /\ id <$> stickers back = id s :: delete k (id <$> l)
  /\ length (stickers back) = length l
  /\ selectedIndex back = Some 0%nat
  /\ stickers back !! 0%nat = Some (with_zIndex 0 s)
  /\ id <$> stickers front ≡ₚ id <$> l
  /\ id <$> stickers back ≡ₚ id <$> l.
Proof.
  intros Hsel Hk l front back.
  assert (Hlen : (k < length l)%nat) by (eapply lookup_lt_Some, Hk).
  assert (Hdel : length (delete k l) = (length l - 1)%nat).
  { rewrite length_delete by (unfold l; rewrite Hk; eauto). reflexivity. }
  assert (Efront : stickers front = renumber (delete k l ++ [s])).
  { unfold front, bringForward. rewrite Hsel. cbn. fold l. unfold l at 2.
    rewrite Hk. reflexivity. }
  assert (Eback : stickers back = renumber (s :: delete k l)).
  { unfold back, sendBackward. rewrite Hsel. cbn. fold l. unfold l at 1.
    rewrite Hk. reflexivity. }
  assert (Hperm : id <$> l ≡ₚ id s :: delete k (id <$> l)).
  { apply delete_Permutation. rewrite list_lookup_fmap. unfold l. rewrite Hk.
    reflexivity. }
  split; [|split; [|split; [|split; [|split; [|split; [|split; [|split; [|split]]]]]]]].
  - rewrite Efront, renumber_ids, fmap_app, list_fmap_delete. reflexivity.
  - rewrite Efront. unfold renumber. rewrite length_imap, length_app, Hdel.
    cbn. lia.
  - unfold front, bringForward. rewrite Hsel. cbn [selectedIndex]. fold l.
    rewrite (proj2 (Nat.ltb_lt 0 (length l))) by lia. reflexivity.
  - rewrite Efront. rewrite <- Hdel.
    rewrite (renumber_lookup _ _ s); [reflexivity|].
    apply list_lookup_middle. reflexivity.
  - rewrite Eback, renumber_ids. cbn [fmap list_fmap].
    rewrite list_fmap_delete. reflexivity.
  - rewrite Eback. unfold renumber. rewrite length_imap. cbn [length].
    rewrite Hdel. lia.
  - unfold back, sendBackward. rewrite Hsel. reflexivity.
  - rewrite Eback. reflexivity.
  - rewrite Efront, renumber_ids, fmap_app, list_fmap_delete. cbn.
    rewrite Hperm at 2. rewrite <- Permutation_cons_append. reflexivity.
  - rewrite Eback, renumber_ids. cbn [fmap list_fmap].
    rewrite list_fmap_delete. symmetry. exact Hperm.
Qed.

Lemma reorder_three_stickers :
  let st := mkState [Scene.sampleSticker "a" 0; Scene.sampleSticker "b" 1;
                     Scene.sampleSticker "c" 2] (Some 0%nat) in
  shape (stickers (bringForward st st)) = [("b", 0%nat); ("c", 1%nat); ("a", 2%nat)]
  /\ selectedIndex (bringForward st st) = Some 2%nat
  /\ id <$> stickers (sendBackward st st) = ["a"; "b"; "c"].
Proof.
  cbv zeta.
  destruct (reorder_moves_selected_to_an_end
              (mkState [Scene.sampleSticker "a" 0; Scene.sampleSticker "b" 1;
                        Scene.sampleSticker "c" 2] (Some 0%nat))
              0 (Scene.sampleSticker "a" 0) eq_refl eq_refl)
    as (_ & _ & Hsel & _ & Hback & _).
  split; [reflexivity|]. split; [exact Hsel|exact Hback].
Defined.

(** X4.  Adding from the handler of the current render appends the new
    sticker after the others, which are untouched, and selects it.  For an
    image with non-negative dimensions the new sticker is well formed: it
    sits at the center, with scale 0.15, no rotation, the full crop, and a
    positive aspect ratio, which is width over height when both are not
    zero and 1 otherwise.  A failed image load changes nothing. *)
Theorem add_appends_a_well_formed_sticker
        (st : State) (newId dataUrl : string) (w h : Z) :
  (0 <= w)%Z -> (0 <= h)%Z ->
  let n := newSticker st newId dataUrl w h in
  let st' := addStickerFromDataUrl st newId dataUrl (Onload w h) st in
  stickers st' = stickers st ++ [n]
  /\ selectedIndex st' = Some (length (stickers st))
  /\ stickers st' !! length (stickers st) = Some n
  /\ zIndex n = length (stickers st)
  /\ wellFormed n
  /\ uvX n == 1 # 2 /\ uvY n == 1 # 2 /\ scale n == 15 # 100
  /\ rotation n == 0 /\ crop n = Some fullCrop
  /\ originalSrc n = Some (src n)
  /\ ((0 < w)%Z -> (0 < h)%Z -> aspectRatio n == inject_Z w / inject_Z h)
  /\ (w = 0%Z \/ h = 0%Z -> aspectRatio n == 1)
  /\ addStickerFromDataUrl st newId dataUrl Onerror st = st.
Proof.
  intros Hw Hh n st'.
  assert (Hasp : 0 < aspectRatio n
                 /\ ((0 < w)%Z -> (0 < h)%Z ->
                     aspectRatio n == inject_Z w / inject_Z h)
                 /\ (w = 0%Z \/ h = 0%Z -> aspectRatio n == 1)).
  { unfold n, newSticker. cbn [aspectRatio]. unfold JS.truthy.
    destruct (Z.eqb_spec w 0) as [->|Hw0]; cbn [negb andb].
    - split; [reflexivity|]. split; [lia|reflexivity].
    - destruct (Z.eqb_spec h 0) as [->|Hh0]; cbn [negb].
      + split; [reflexivity|]. split; [lia|reflexivity].
      + split; [|split; [reflexivity|lia]].
        apply Qlt_shift_div_l.
        * change 0 with (inject_Z 0). rewrite <- Zlt_Qlt. lia.
        * rewrite Qmult_0_l. change 0 with (inject_Z 0).
          rewrite <- Zlt_Qlt. lia. }
  destruct Hasp as (Hpos & Hquot & Hone).
  split; [reflexivity|]. split.
  { unfold st'. cbn. rewrite length_app. cbn. f_equal. lia. }
  split.
  { unfold st'. cbn. apply list_lookup_middle. reflexivity. }
  split; [reflexivity|]. split.
  { unfold wellFormed. repeat split; try exact Hpos; discriminate. }
  repeat split; try reflexivity; assumption.
Qed.

Lemma add_second_sticker :
  let st := mkState [Scene.sampleSticker "a" 0] (Some 0%nat) in
  let st' := addStickerFromDataUrl st "b" "data:b" (Onload 400 200) st in
  shape (stickers st') = [("a", 0%nat); ("b", 1%nat)]
  /\ selectedIndex st' = Some 1%nat
  /\ (exists n, stickers st' !! 1%nat = Some n /\ aspectRatio n == 2).
Proof.
  cbv zeta.
  destruct (add_appends_a_well_formed_sticker
              (mkState [Scene.sampleSticker "a" 0] (Some 0%nat))
              "b" "data:b" 400 200 ltac:(discriminate) ltac:(discriminate))
    as (_ & Hsel & Hlook & _ & _ & _ & _ & _ & _ & _ & _ & Hasp & _).
  split; [reflexivity|]. split; [exact Hsel|].
  eexists. split; [exact Hlook|]. rewrite Hasp by reflexivity. reflexivity.
Defined.

End StackExtra.

(** ** More on gestures and buttons *)

Module GestureExtra.
Import Editor.

Ltac minmax :=
  repeat match goal with
         | |- context [Qmin ?a ?b] =>
             lazymatch a with context [Qmin _ _] => fail | context [Qmax _ _] => fail | _ => idtac end;
             lazymatch b with context [Qmin _ _] => fail | context [Qmax _ _] => fail | _ => idtac end;
             let H := fresh "Hmin" in
             pose proof (Q.min_spec a b) as H;
             generalize dependent (Qmin a b); intros
         | |- context [Qmax ?a ?b] =>
             lazymatch a with context [Qmin _ _] => fail | context [Qmax _ _] => fail | _ => idtac end;
             lazymatch b with context [Qmin _ _] => fail | context [Qmax _ _] => fail | _ => idtac end;
             let H := fresh "Hmax" in
             pose proof (Q.max_spec a b) as H;
             generalize dependent (Qmax a b); intros
         end.

Ltac minmax_lra :=
  unfold clamp, JS.Math_max, JS.Math_min in *; minmax;
  repeat match goal with
         | H : (_ /\ _) \/ (_ /\ _) |- _ => destruct H as [[? ?]|[? ?]]
         end;
  repeat split; intros; lra.










(** [a % 360] for a dividend that is not negative: the one value in
    [0, 360) that differs from it by a multiple of 360. *)
Lemma rem_360_unique (a : Q) (n : Z) :
  0 <= a -> 0 <= a - 360 * inject_Z n < 360 ->
  JS.rem a 360 == a - 360 * inject_Z n.
Proof.
  intros Ha [Hn0 Hn1].
  destruct (JSFacts.rem_360 a) as (E & _ & Hpos & _).
  destruct (Hpos Ha) as [Hm0 Hm1]. rewrite E in *.
  set (m := JS.trunc (a / 360)) in *.
  assert (Hnm : n = m).
  { apply Z.le_antisymm.
    - apply Z.lt_succ_r. rewrite Zlt_Qlt. unfold Z.succ.
      rewrite inject_Z_plus. change (inject_Z 1) with 1. lra.
    - apply Z.lt_succ_r. rewrite Zlt_Qlt. unfold Z.succ.
      rewrite inject_Z_plus. change (inject_Z 1) with 1. lra. }
  rewrite Hnm. reflexivity.
Qed.



(** X9.  The reset button puts the selected sticker back at the center
    with scale 0.15 and no rotation, sizes it from the frame and its
    aspect ratio, and keeps its image, crop, identifier and [zIndex];
    pressing it again changes nothing more, and the result is well formed
    whenever the aspect ratio is positive. *)
Theorem resetSticker_is_idempotent
        (render : State) (rect : Rect) (prev : list Sticker)
        (k : nat) (s : Sticker) :
  selectedIndex render = Some k -> prev !! k = Some s ->
  let once := resetSticker render (Some rect) prev in
  resetSticker render (Some rect) once = once
  /\ exists s',
      once !! k = Some s'
      /\ uvX s' = 1 # 2 /\ uvY s' = 1 # 2 /\ scale s' = 15 # 100
      /\ rotation s' = 0
      /\ width s'
         = JS.Math_round ((15 # 100)
                          * JS.Math_max (rectWidth rect) (rectHeight rect))
      /\ height s' = JS.Math_round (width s' / aspectRatio s)
      /\ src s' = src s /\ originalSrc s' = originalSrc s
      /\ crop s' = crop s /\ aspectRatio s' = aspectRatio s
      /\ (0 < aspectRatio s -> wellFormed s')
      /\ (forall i, i <> k -> once !! i = prev !! i).
Proof.
  intros Hsel Hk once. split.
  - unfold once, resetSticker. rewrite Hsel. unfold mapAt. apply list_eq.
    intros i. rewrite !list_lookup_imap.
    destruct (prev !! i) as [x|]; [|reflexivity]. cbn.
    destruct (i =? k)%nat; reflexivity.
  - exists (resetOne rect s). split.
    { unfold once, resetSticker. rewrite Hsel.
      apply GestureFacts.lookup_mapAt, Hk. }
    cbn [resetOne uvX uvY scale rotation width height src originalSrc crop
         aspectRatio].
    do 10 (split; [reflexivity|]). split.
    + intros Ha. unfold wellFormed. cbn [resetOne uvX uvY scale aspectRatio].
      repeat split; try discriminate. exact Ha.
    + intros i Hi. unfold once, resetSticker. rewrite Hsel.
      apply GestureFacts.lookup_mapAt_other, Hi.
Qed.

Lemma reset_after_drag :
  let s := with_uv (1 # 10) (9 # 10)
                   (with_rotation 45 (Scene.sampleSticker "a" 0)) in
  let render := mkState [s] (Some 0%nat) in
  exists s',
    resetSticker render (Some (mkRect 0 0 360 360)) [s] !! 0%nat = Some s'
    /\ uvX s' = 1 # 2 /\ rotation s' = 0 /\ width s' == 54 /\ height s' == 27.
Proof.
  cbv zeta.
  destruct (resetSticker_is_idempotent
              (mkState [with_uv (1 # 10) (9 # 10)
                                (with_rotation 45 (Scene.sampleSticker "a" 0))]
                       (Some 0%nat))
              (mkRect 0 0 360 360)
              [with_uv (1 # 10) (9 # 10)
                       (with_rotation 45 (Scene.sampleSticker "a" 0))]
              0 _ eq_refl eq_refl)
    as (_ & s' & Hs' & Hu & _ & _ & Hr & Hw & Hh & _).
  exists s'. split; [exact Hs'|]. split; [exact Hu|]. split; [exact Hr|].
  split; [rewrite Hw; reflexivity|]. rewrite Hh, Hw. reflexivity.
Defined.

(** X10.  Whatever the handle and wherever the pointer goes, a crop drag
    that starts from a rectangle inside the image, at least 5 percent wide
    and high, yields such a rectangle again. *)
Theorem cropMove_keeps_rectangle_valid
        (cs : CropState) (thumb : Rect) (e : Coords) :
  0 < rectWidth thumb -> 0 < rectHeight thumb ->
  validCrop (startCrop cs) -> validCrop (cropMove cs thumb e).
Proof.
  intros _ _ (Hx & Hy & Hw & Hh & Hxw & Hyh).
  unfold cropMove, validCrop.
  generalize ((clientX e - startX cs) / rectWidth thumb * 100).
  generalize ((clientY e - startY cs) / rectHeight thumb * 100).
  intros dY dX. destruct cs as [h sx sy [x0 y0 w0 h0]].
  cbn [startCrop handle cropX cropY cropWidth cropHeight] in *.
  destruct h as [[]|]; cbn -[Qplus Qminus Qmult Qle Qlt Qmax Qmin];
    minmax_lra.
Qed.

Lemma crop_drag_far_outside :
  validCrop (cropMove (mkCropState (Some GrabNW) 50 50 (mkCrop 10 10 80 80))
                      (mkRect 0 0 64 64) (mkCoords 5000 (- (5000)))).
Proof.
  apply cropMove_keeps_rectangle_valid; try reflexivity.
  unfold validCrop. cbn. repeat split; discriminate.
Defined.

(** X11.  A crop drag moves only the edges its handle names.  A handle
    with [n] leaves the bottom edge where it was, one with [w] the right
    edge; without [n] the top edge stays, without [w] the left edge; a
    handle with neither [n] nor [s] keeps the height and one with neither
    [w] nor [e] the width.  A missing handle acts as [se]. *)
Theorem cropMove_moves_only_named_edges
        (cs : CropState) (thumb : Rect) (e : Coords) :
  let h := default GrabSE (handle cs) in
  let c0 := startCrop cs in
  let c := cropMove cs thumb e in
  (includesN h = true -> cropY c + cropHeight c == cropY c0 + cropHeight c0)
  /\ (includesN h = false -> cropY c = cropY c0)
  /\ (includesW h = true -> cropX c + cropWidth c == cropX c0 + cropWidth c0)
  /\ (includesW h = false -> cropX c = cropX c0)
  /\ (includesN h = false -> includesS h = false ->
      cropHeight c = cropHeight c0)
  /\ (includesW h = false -> includesE h = false ->
      cropWidth c = cropWidth c0).
Proof.
  intros h c0 c. unfold c, c0, h, cropMove.
  destruct cs as [[[]|] sx sy [x0 y0 w0 h0]];
    cbn -[Qplus Qminus Qmult Qdiv Qeq Qmax Qmin];
    repeat split; intros; try discriminate; try reflexivity; ring.
Qed.

Lemma crop_drag_north_keeps_bottom :
  let c := cropMove (mkCropState (Some GrabN) 50 50 (mkCrop 10 10 80 80))
                    (mkRect 0 0 64 64) (mkCoords 50 82) in
  cropY c + cropHeight c == 90 /\ cropX c = 10 /\ cropWidth c = 80
  /\ cropY c == 60.
Proof.
  cbv zeta.
  destruct (cropMove_moves_only_named_edges
              (mkCropState (Some GrabN) 50 50 (mkCrop 10 10 80 80))
              (mkRect 0 0 64 64) (mkCoords 50 82))
    as (Hbottom & _ & _ & Hleft & _ & Hwidth).
  split; [rewrite (Hbottom eq_refl); reflexivity|].
  split; [exact (Hleft eq_refl)|]. split; [exact (Hwidth eq_refl eq_refl)|].
  reflexivity.
Defined.

Lemma foldl_cropLive_lookup (k : nat) (cs : CropState) (thumb : Rect)
      (moves : list Coords) (l : list Sticker) (x : Sticker) :
  l !! k = Some x ->
  foldl (fun acc e => cropLive k cs thumb e acc) l moves !! k
  = Some (match last moves with
          | Some e => with_crop (cropMove cs thumb e) x
          | None => x
          end).
Proof.
  revert x. induction moves as [|e moves IH] using rev_ind; intros x Hx;
    [exact Hx|].
  rewrite foldl_app, last_snoc. cbn [foldl]. unfold cropLive at 1.
  rewrite (GestureFacts.lookup_mapAt _ _ _ _ (IH x Hx)).
  destruct (last moves); reflexivity.
Qed.

(** X12.  The release of a crop drag commits the rectangle the sticker had
    when the drag began, not the one just dragged.  So a drag that begins
    on the full image commits nothing: the image and the aspect ratio stay
    and the dragged rectangle stays in [crop].  A drag that begins on a
    sticker with a smaller rectangle rasterizes that earlier rectangle and
    resets [crop] to the full image, whatever the moves were. *)
Theorem cropDrag_commits_the_crop_at_grab
        (grab : State) (k : nat) (s : Sticker) (cs : CropState)
        (thumb : Rect) (moves : list Coords) (e : Coords) :
  selectedIndex grab = Some k -> stickers grab !! k = Some s ->
  let dragged := cropMove cs thumb e in
  (forall ev ctx2d c,
      crop s = Some c -> isFull c = true ->
      cropDrag grab k cs thumb (moves ++ [e]) ev ctx2d (stickers grab) !! k
      = Some (with_crop dragged s))
  /\ (forall c w h,
         crop s = Some c -> isFull c = false ->
         cropDrag grab k cs thumb (moves ++ [e]) (Onload w h) true
                  (stickers grab) !! k
         = Some (cropped s c w h (with_crop dragged s))
         /\ src (cropped s c w h (with_crop dragged s))
            = CanvasDataUrl (src s)
                            (cropX c / 100 * inject_Z w)
                            (cropY c / 100 * inject_Z h)
                            (cropWidth c / 100 * inject_Z w)
                            (cropHeight c / 100 * inject_Z h)
                            (cropWidth c / 100 * inject_Z w)
                            (cropHeight c / 100 * inject_Z h)
         /\ crop (cropped s c w h (with_crop dragged s)) = Some fullCrop).
Proof.
  intros Hsel Hk dragged.
  pose proof (foldl_cropLive_lookup k cs thumb (moves ++ [e]) _ s Hk) as Hmoved.
  rewrite last_snoc in Hmoved. fold dragged in Hmoved.
  split.
  - intros ev ctx2d c Hc Hfull. unfold cropDrag, commitCrop.
    rewrite Hk, Hc, Hfull. exact Hmoved.
  - intros c w h Hc Hfull. split; [|split; reflexivity].
    unfold cropDrag, commitCrop. rewrite Hk, Hc, Hfull.
    apply GestureFacts.lookup_mapAt, Hmoved.
Qed.

Lemma first_crop_drag_commits_nothing :
  let s := Scene.sampleSticker "a" 0 in
  let grab := mkState [s] (Some 0%nat) in
  let cs := mkCropState (Some GrabSE) 64 64 fullCrop in
  exists x,
    cropDrag grab 0 cs (mkRect 0 0 64 64) [mkCoords 40 40; mkCoords 32 32]
             (Onload 400 200) true [s] !! 0%nat = Some x
    /\ src x = src s /\ aspectRatio x = aspectRatio s
    /\ (exists c, crop x = Some c /\ cropWidth c == 50 /\ cropHeight c == 50).
Proof.
  cbv zeta.
  destruct (cropDrag_commits_the_crop_at_grab
              (mkState [Scene.sampleSticker "a" 0] (Some 0%nat)) 0
              (Scene.sampleSticker "a" 0)
              (mkCropState (Some GrabSE) 64 64 fullCrop) (mkRect 0 0 64 64)
              [mkCoords 40 40] (mkCoords 32 32) eq_refl eq_refl)
    as [Hfull _].
  eexists. split; [apply (Hfull (Onload 400 200) true fullCrop); reflexivity|].
  split; [reflexivity|]. split; [reflexivity|].
  eexists. split; [reflexivity|]. split; reflexivity.
Defined.

(** X13.  Resetting the color grading of a sticker whose crop was
    committed puts the uploaded image back in [src], so the crop is gone
    from the image, while [aspectRatio] stays the ratio of the cropped
    rectangle and [crop] stays the full image. *)
Theorem grading_reset_drops_committed_crop
        (render : State) (k : nat) (s x : Sticker) (c : Crop) (w h : Z)
        (prev : list Sticker) (o : Src) :
  stickers render !! k = Some s -> crop s = Some c -> isFull c = false ->
  prev !! k = Some x ->
  originalSrc x = Some o -> srcTruthy (Some o) = true ->
  0 < cropWidth c -> 0 < cropHeight c -> (0 < w)%Z -> (0 < h)%Z ->
  let committed := commitCrop render k (Onload w h) true prev in
  let after := resetColorGrading (mkState committed (Some k)) committed in
  exists y z,
    committed !! k = Some y /\ after !! k = Some z
    /\ src y = CanvasDataUrl (src s)
                             (cropX c / 100 * inject_Z w)
                             (cropY c / 100 * inject_Z h)
                             (cropWidth c / 100 * inject_Z w)
                             (cropHeight c / 100 * inject_Z h)
                             (cropWidth c / 100 * inject_Z w)
                             (cropHeight c / 100 * inject_Z h)
    /\ src z = o
    /\ aspectRatio z = aspectRatio y
    /\ aspectRatio z
       = (cropWidth c / 100 * inject_Z w) / (cropHeight c / 100 * inject_Z h)
    /\ crop z = Some fullCrop.
Proof.
  intros Hs Hc Hfull Hx Ho Htruthy Hcw Hch Hw Hh committed after.
  destruct (GestureFacts.crop_pixels_positive c w h Hcw Hch Hw Hh)
    as (_ & _ & Hasp).
  assert (Hy : committed !! k = Some (cropped s c w h x)).
  { unfold committed, commitCrop. rewrite Hs, Hc, Hfull.
    apply GestureFacts.lookup_mapAt, Hx. }
  assert (Horig : originalSrc (cropped s c w h x) = Some o)
    by (rewrite <- Ho; reflexivity).
  assert (Hz : after !! k = Some (ungraded (cropped s c w h x))).
  { unfold after, resetColorGrading. cbn [selectedIndex stickers].
    rewrite Hy, Horig, Htruthy. apply GestureFacts.lookup_mapAt, Hy. }
  exists (cropped s c w h x), (ungraded (cropped s c w h x)).
  split; [exact Hy|]. split; [exact Hz|]. split; [reflexivity|].
  split.
  { unfold ungraded. cbn [src]. rewrite Horig, Htruthy. reflexivity. }
  split; [reflexivity|]. split; [|reflexivity].
  unfold ungraded, cropped, cropPixels. cbn [aspectRatio].
  apply JSFacts.or_nonzero. lra.
Qed.

Lemma grading_reset_after_half_crop :
  let s := with_crop (mkCrop 0 0 50 100) (Scene.sampleSticker "a" 0) in
  let committed := commitCrop (mkState [s] (Some 0%nat)) 0 (Onload 400 200)
                              true [s] in
  exists z,
    resetColorGrading (mkState committed (Some 0%nat)) committed !! 0%nat
    = Some z
    /\ src z = DataUrl "a" /\ aspectRatio z == 1.
Proof.
  cbv zeta.
  destruct (grading_reset_drops_committed_crop
              (mkState [with_crop (mkCrop 0 0 50 100) (Scene.sampleSticker "a" 0)]
                       (Some 0%nat))
              0
              (with_crop (mkCrop 0 0 50 100) (Scene.sampleSticker "a" 0))
              (with_crop (mkCrop 0 0 50 100) (Scene.sampleSticker "a" 0))
              (mkCrop 0 0 50 100) 400 200
              [with_crop (mkCrop 0 0 50 100) (Scene.sampleSticker "a" 0)]
              (DataUrl "a")
              eq_refl eq_refl eq_refl eq_refl eq_refl eq_refl eq_refl eq_refl
              eq_refl eq_refl)
    as (y & z & _ & Hz & _ & Hsrc & _ & Hasp & _).
  exists z. split; [exact Hz|]. split; [exact Hsrc|].
  rewrite Hasp. reflexivity.
Defined.

End GestureExtra.

(** ** More on the bake *)

Module BakeExtra.
Import Scene.

(** X14.  A bake leaves a child alone, requests no image and logs nothing
    when the child is not a mesh, has no material, has no snapshot, or
    when no 2D context can be had. *)
Theorem bake_without_mesh_snapshot_or_context
        (decode : Editor.Src -> option Image) (latency : Editor.Src -> nat)
        (now : nat) (ctx2d : bool) (modelColor : string)
        (stickers : list (option Editor.StickerForScene)) (child : Child) :
  isMesh child = false \/ material child = None \/ stored child = None
  \/ ctx2d = false ->
  run decode latency (bakeChild ctx2d modelColor stickers child) now
  = mkOutcome (mkBaked child []) now [].
Proof.
  intros Hcase. unfold bakeChild.
  destruct (isMesh child); [|reflexivity].
  destruct (material child) as [mat|]; [|reflexivity].
  destruct (stored child) as [st0|]; [|reflexivity].
  destruct (texSize _) as [W H].
  destruct ctx2d; [|reflexivity].
  destruct Hcase as [Hc|[Hc|[Hc|Hc]]]; discriminate.
Qed.

Lemma bake_of_a_group_node :
  let group := mkChild false None None in
  run sampleDecode sampleLatency
      (bakeChild true "#ff0000"
                 [Some (Editor.forScene (sampleSticker "data:a" 0))] group) 5
  = mkOutcome (mkBaked group []) 5 [].
Proof.
  cbv zeta.
  apply (bake_without_mesh_snapshot_or_context
           sampleDecode sampleLatency 5 true "#ff0000"
           [Some (Editor.forScene (sampleSticker "data:a" 0))]
           (mkChild false None None)).
  left. reflexivity.
Defined.

(** X15.  A bake starts from the snapshot, not from what the material
    holds: baking a mesh that earlier bakes have already written gives the
    mesh that baking it as loaded gives, so stickers never pile up from
    one bake to the next. *)
Theorem bake_does_not_depend_on_earlier_bakes
        (decode : Editor.Src -> option Image)
        (latency latency' : Editor.Src -> nat) (now now' : nat)
        (modelColor modelColor' : string)
        (stickers stickers' : list (option Editor.StickerForScene))
        (child : Child) (mat : Material.t) (st0 : OriginalMaps.t) :
  isMesh child = true -> material child = Some mat -> stored child = Some st0 ->
  let earlier :=
    bakedChild (result (run decode latency'
                            (bakeChild true modelColor' stickers' child) now')) in
  bakedChild (result (run decode latency
                          (bakeChild true modelColor stickers earlier) now))
  = bakedChild (result (run decode latency
                            (bakeChild true modelColor stickers child) now)).
Proof.
  intros Hmesh Hmat Hst earlier.
  destruct (BakeFacts.run_bakeChild decode latency' now' modelColor' stickers'
                                    child mat st0 Hmesh Hmat Hst) as (He & _).
  destruct (BakeFacts.run_bakeChild decode latency now modelColor stickers
                                    child mat st0 Hmesh Hmat Hst) as (Hc & _).
  assert (Hmat' : exists mat', material earlier = Some mat'
                               /\ isMesh earlier = true
                               /\ stored earlier = Some st0).
  { unfold earlier. rewrite He. eexists. repeat split; assumption. }
  destruct Hmat' as (mat' & Hm' & Hmesh' & Hst').
  destruct (BakeFacts.run_bakeChild decode latency now modelColor stickers
                                    earlier mat' st0 Hmesh' Hm' Hst')
    as (Hn & _).
  rewrite Hn, Hc. cbn [bakedChild]. unfold with_material, assignComposite.
  rewrite Hmesh', Hst', Hmesh, Hst. reflexivity.
Qed.

Lemma bake_twice_same_as_once :
  let stack := [Some (Editor.forScene (sampleSticker "data:a" 0))] in
  let once := bakedChild (result (run sampleDecode sampleLatency
                                      (bakeChild true "#ff0000" stack
                                                 sampleTexturedChild) 0)) in
  bakedChild (result (run sampleDecode sampleLatency
                          (bakeChild true "#ff0000" stack once) 0))
  = once.
Proof.
  cbv zeta.
  apply (bake_does_not_depend_on_earlier_bakes
           sampleDecode sampleLatency sampleLatency 0 0 "#ff0000" "#ff0000"
           [Some (Editor.forScene (sampleSticker "data:a" 0))]
           [Some (Editor.forScene (sampleSticker "data:a" 0))]
           sampleTexturedChild sampleTexturedMaterial
           (snapshot sampleTexturedMaterial));
    reflexivity.
Defined.




(** X17.  A sticker with a positive aspect ratio is drawn in a box
    centered on [(uvX * W, (1 - uvY) * H)], whose width over height is the
    aspect ratio and whose longer side is [scale * max(W, H)], turned by
    the sticker's rotation (0 when it has none). *)
Theorem sticker_box_geometry
        (W H : Z) (sticker : Editor.StickerForScene) (img : Image) (a : Q) :
  Editor.sceneAspectRatio sticker = Some a -> 0 < a ->
  0 <= Editor.sceneScale sticker -> (0 <= W)%Z -> (0 <= H)%Z ->
  exists cx cy dw dh,
    stickerOp W H sticker img
    = DrawImage img cx cy (default 0 (Editor.sceneRotation sticker))
                (- dw / 2) (- dh / 2) dw dh
    /\ cx == Editor.sceneUvX sticker * inject_Z W
    /\ cy == (1 - Editor.sceneUvY sticker) * inject_Z H
    /\ dw == a * dh
    /\ 0 <= dw /\ 0 <= dh
    /\ JS.Math_max dw dh
       == Editor.sceneScale sticker * JS.Math_max (inject_Z W) (inject_Z H).
Proof.
  intros Ha Hpos Hscale HW HH. unfold stickerOp. rewrite Ha.
  set (base := Editor.sceneScale sticker
               * JS.Math_max (inject_Z W) (inject_Z H)).
  assert (Hbase : 0 <= base).
  { apply Qmult_le_0_compat; [exact Hscale|].
    eapply Qle_trans; [|apply JSFacts.max_lower].
    change 0 with (inject_Z 0). rewrite <- Zle_Qle. exact HW. }
  destruct (Qle_bool a 1) eqn:E; cbn [negb].
  - apply Qle_bool_iff in E.
    assert (Hprod : 0 <= base * a) by (apply Qmult_le_0_compat; lra).
    assert (Hle : base * a <= base).
    { assert (0 <= base * (1 - a)) by (apply Qmult_le_0_compat; lra). lra. }
    do 4 eexists. split; [reflexivity|].
    split; [ring|]. split; [ring|]. split; [ring|].
    split; [exact Hprod|]. split; [exact Hbase|].
    unfold JS.Math_max at 1. apply Q.max_r. exact Hle.
  - assert (Hgt : 1 < a).
    { destruct (Qlt_le_dec 1 a) as [Hlt|Hle]; [exact Hlt|].
      apply Qle_bool_iff in Hle. congruence. }
    assert (Hdiv : 0 <= base / a) by (apply Qle_shift_div_l; lra).
    assert (Hle : base / a <= base).
    { apply Qle_shift_div_r; [lra|].
      assert (0 <= base * (a - 1)) by (apply Qmult_le_0_compat; lra). lra. }
    do 4 eexists. split; [reflexivity|].
    split; [ring|]. split; [ring|]. split; [field; lra|].
    split; [exact Hbase|]. split; [exact Hdiv|].
    unfold JS.Math_max at 1. apply Q.max_l. exact Hle.
Qed.

Lemma sample_sticker_box :
  exists cx cy dw dh,
    stickerOp 2048 1024 (Editor.forScene (sampleSticker "data:a" 0))
              (mkImage "data:a" 400 200 true)
    = DrawImage (mkImage "data:a" 400 200 true) cx cy 0
                (- dw / 2) (- dh / 2) dw dh
    /\ cx == 1024 /\ cy == 512 /\ dw == 2 * dh.
Proof.
  destruct (sticker_box_geometry
              2048 1024 (Editor.forScene (sampleSticker "data:a" 0))
              (mkImage "data:a" 400 200 true) 2
              eq_refl eq_refl ltac:(discriminate) ltac:(discriminate)
              ltac:(discriminate))
    as (cx & cy & dw & dh & Hop & Hcx & Hcy & Hasp & _).
  exists cx, cy, dw, dh. split; [exact Hop|].
  split; [rewrite Hcx; reflexivity|]. split; [rewrite Hcy; reflexivity|].
  exact Hasp.
Defined.

Lemma finishedAt_drawAll (decode : Editor.Src -> option Image)
      (latency : Editor.Src -> nat) (W H : Z)
      (stickers : list (option Editor.StickerForScene)) (st : BakeState)
      (now : nat) :
  finishedAt (run decode latency (drawAll W H stickers st) now)
  = (now + sum_list (latency <$> (Editor.sceneSrc <$> omap id stickers)))%nat.
Proof.
  revert st now. induction stickers as [|entry rest IH]; intros st now.
  - cbn. lia.
  - destruct entry as [sticker|]; cbn [drawAll omap list_omap id].
    + rewrite BakeFacts.run_bind. cbn [finishedAt]. rewrite IH.
      unfold drawSticker. cbn [run].
      destruct (decode (Editor.sceneSrc sticker)); cbn; lia.
    + apply IH.
Qed.

(** X18.  A bake lasts as long as its images take one after the other:
    it completes at the start time plus the sum of the latencies of all
    the stickers of the list, those that decode and those that fail. *)
Theorem bake_lasts_the_sum_of_latencies
        (decode : Editor.Src -> option Image) (latency : Editor.Src -> nat)
        (now : nat) (modelColor : string)
        (stickers : list (option Editor.StickerForScene))
        (child : Child) (mat : Material.t) (st0 : OriginalMaps.t) :
  isMesh child = true -> material child = Some mat -> stored child = Some st0 ->
  let out := run decode latency (bakeChild true modelColor stickers child) now in
  finishedAt out
  = (now + sum_list (latency <$> (Editor.sceneSrc <$> omap id stickers)))%nat
  /\ (omap id stickers = [] -> finishedAt out = now /\ events out = []).
Proof.
  intros Hmesh Hmat Hst out.
  assert (E : finishedAt out
              = (now + sum_list (latency <$> (Editor.sceneSrc <$> omap id stickers)))%nat).
  { unfold out, bakeChild. rewrite Hmesh, Hmat, Hst.
    destruct (texSize _) as [W H]. rewrite BakeFacts.run_bind.
    cbn [finishedAt run]. apply finishedAt_drawAll. }
  split; [exact E|]. intros Hnone. split.
  - rewrite E, Hnone. cbn. lia.
  - destruct (BakeFacts.run_bakeChild decode latency now modelColor stickers
                                      child mat st0 Hmesh Hmat Hst)
      as (_ & _ & Hreq).
    fold out in Hreq. rewrite Hnone in Hreq. cbn in Hreq.
    destruct (BakeFacts.run_bakeChild decode latency now modelColor stickers
                                      child mat st0 Hmesh Hmat Hst)
      as (_ & Hseq & _).
    fold out in Hseq. destruct (events out) as [|[s t|s t|s t] rest];
      [reflexivity|discriminate|contradiction|contradiction].
Qed.

Lemma sample_bake_lasts_101_ticks :
  finishedAt (run sampleDecode sampleLatency
                  (bakeChild true "original"
                             [Some (Editor.forScene (sampleSticker "data:a" 0));
                              Some (Editor.forScene (sampleSticker "data:b" 1))]
                             sampleChild) 0)
  = 101%nat.
Proof.
  destruct (bake_lasts_the_sum_of_latencies
              sampleDecode sampleLatency 0 "original"
              [Some (Editor.forScene (sampleSticker "data:a" 0));
               Some (Editor.forScene (sampleSticker "data:b" 1))]
              sampleChild sampleMaterial (snapshot sampleMaterial)
              eq_refl eq_refl eq_refl) as [-> _].
  reflexivity.
Defined.

Lemma drawAll_shape (W H : Z) (stickers : list (option Editor.StickerForScene))
      (st : BakeState) :
  (omap id stickers = [] -> drawAll W H stickers st = Done st)
  /\ (omap id stickers <> [] ->
      exists src loaded failed,
        drawAll W H stickers st = AwaitImage src loaded failed).
Proof.
  induction stickers as [|entry rest IH];
    [split; [reflexivity|intros Hne; exfalso; apply Hne; reflexivity]|].
  destruct entry as [sticker|]; cbn [drawAll omap list_omap id].
  - split; [discriminate|]. intros _. do 3 eexists. reflexivity.
  - exact IH.
Qed.

(** X19.  When the model color becomes ["reset"], the bake effect and the
    reset effect both run.  With no sticker to draw the bake has finished
    inside its own effect, so the reset effect has the last word: the
    material gets the stored maps and the stored base color back.  With a
    sticker to draw the bake assigns after the reset effect: the color map
    is a composite of the stickers over the original background and the
    material color is white. *)
Theorem reset_then_bake_or_bake_then_reset
        (decode : Editor.Src -> option Image) (latency : Editor.Src -> nat)
        (now : nat) (stickers : list (option Editor.StickerForScene))
        (child : Child) (mat : Material.t) (st0 : OriginalMaps.t) :
  isMesh child = true -> material child = Some mat -> stored child = Some st0 ->
  let W := (texSize (textureImage (OriginalMaps.map st0))).1 in
  let H := (texSize (textureImage (OriginalMaps.map st0))).2 in
  let final := modelColorEffects decode latency now true "reset" stickers child in
  (omap id stickers = [] ->
   material final
   = Some (Material.mk (OriginalMaps.map st0) (OriginalMaps.normalMap st0)
                       (OriginalMaps.roughnessMap st0)
                       (OriginalMaps.metalnessMap st0)
                       (OriginalMaps.aoMap st0) (OriginalMaps.emissiveMap st0)
                       (Some (OriginalMaps.color st0)) true))
  /\ (omap id stickers <> [] ->
      exists c,
        material final = Some (assignComposite st0 c mat)
        /\ painted c = background "reset" st0 W H
                       :: stickerOps decode W H stickers
        /\ background "reset" st0 W H = background "original" st0 W H
        /\ Material.color (assignComposite st0 c mat) = Some "#ffffff").
Proof.
  intros Hmesh Hmat Hst W H final.
  assert (Ebake : bakeChild true "reset" stickers child
                  = bind (drawAll W H stickers
                            (mkBakeState
                               (paint (background "reset" st0 W H)
                                      (mkCanvas W H [])) []))
                         (fun st =>
                            Done (mkBaked
                                    (with_material
                                       (assignComposite st0 (canvas st) mat) child)
                                    (console st)))).
  { unfold bakeChild. rewrite Hmesh, Hmat, Hst. unfold W, H.
    destruct (texSize _) as [w h]. reflexivity. }
  destruct (drawAll_shape W H stickers
              (mkBakeState (paint (background "reset" st0 W H)
                                  (mkCanvas W H [])) []))
    as [Hnone Hsome].
  split.
  - intros Hempty. unfold final, modelColorEffects.
    rewrite Ebake, (Hnone Hempty). cbn [bind bakedChild].
    unfold restoreChild. cbn [String.eqb Ascii.eqb Bool.eqb andb isMesh material stored with_material].
    rewrite Hmesh, Hst. reflexivity.
  - intros Hsticker. destruct (Hsome Hsticker) as (src & loaded & failed & Edraw).
    destruct (BakeFacts.run_bakeChild decode latency now "reset" stickers
                                      child mat st0 Hmesh Hmat Hst)
      as (Hres & _).
    fold W H in Hres.
    unfold final, modelColorEffects.
    assert (Epending : exists src' loaded' failed',
               bakeChild true "reset" stickers child
               = AwaitImage src' loaded' failed').
    { rewrite Ebake, Edraw. do 3 eexists. reflexivity. }
    destruct Epending as (src' & loaded' & failed' & Epending).
    rewrite Epending, <- Epending, Hres.
    cbn [bakedChild material with_material].
    eexists. split; [|split; [|split]]; reflexivity.
Qed.

Lemma reset_with_a_sticker_stays_baked :
  let withSticker :=
    modelColorEffects sampleDecode sampleLatency 0 true "reset"
                      [Some (Editor.forScene (sampleSticker "data:a" 0))]
                      sampleTexturedChild in
  let without :=
    modelColorEffects sampleDecode sampleLatency 0 true "reset" []
                      sampleTexturedChild in
  (exists mat', material withSticker = Some mat'
                /\ Material.color mat' = Some "#ffffff")
  /\ material without
     = Some (Material.mk
               (Some (ModelTexture "base" (Some (mkImage "base" 1024 512 true))))
               (Some (ModelTexture "normal" None)) None None None None
               (Some "#808080") true).
Proof.
  cbv zeta.
  split.
  - destruct (reset_then_bake_or_bake_then_reset
                sampleDecode sampleLatency 0
                [Some (Editor.forScene (sampleSticker "data:a" 0))]
                sampleTexturedChild sampleTexturedMaterial
                (snapshot sampleTexturedMaterial) eq_refl eq_refl eq_refl)
      as [_ Hbaked].
    destruct (Hbaked ltac:(discriminate)) as (c & Hmat & _ & _ & Hcolor).
    eexists. split; [exact Hmat|exact Hcolor].
  - destruct (reset_then_bake_or_bake_then_reset
                sampleDecode sampleLatency 0 []
                sampleTexturedChild sampleTexturedMaterial
                (snapshot sampleTexturedMaterial) eq_refl eq_refl eq_refl)
      as [Hreset _].
    apply Hreset. reflexivity.
Defined.

(** X20.  The snapshot is a faithful restore point: whatever bake has
    written the material, the reset effect gives back exactly the maps the
    material had when the snapshot was taken, and its color (white if it
    had none). *)
Theorem reset_restores_the_loaded_material
        (decode : Editor.Src -> option Image) (latency : Editor.Src -> nat)
        (now : nat) (modelColor : string)
        (stickers : list (option Editor.StickerForScene))
        (mat0 mat : Material.t) :
  let child := mkChild true (Some mat) (Some (snapshot mat0)) in
  let baked := bakedChild (result (run decode latency
                                       (bakeChild true modelColor stickers child)
                                       now)) in
  material (restoreChild "reset" baked)
  = Some (Material.mk (Material.map mat0) (Material.normalMap mat0)
                      (Material.roughnessMap mat0) (Material.metalnessMap mat0)
                      (Material.aoMap mat0) (Material.emissiveMap mat0)
                      (Some (default white (Material.color mat0))) true)
  /\ material (restoreChild "reset" child) = material (restoreChild "reset" baked)
  /\ stored (restoreChild "reset" baked) = Some (snapshot mat0).
Proof.
  intros child baked.
  destruct (BakeFacts.run_bakeChild decode latency now modelColor stickers
                                    child mat (snapshot mat0)
                                    eq_refl eq_refl eq_refl) as (Hres & _).
  unfold baked. rewrite Hres. repeat split; reflexivity.
Qed.

End BakeExtra.

(** ** Color grading *)

Module ColorExtra.
Import ColorGrading.

(** *** Comparisons and the write-back into the byte array *)

Lemma lt_true (a b : Q) : lt a b = true <-> a < b.
Proof.
  unfold lt. destruct (Qle_bool b a) eqn:E; cbn.
  - apply Qle_bool_iff in E. split; [discriminate|lra].
  - split; [intros _|reflexivity].
    destruct (Qlt_le_dec a b) as [H|H]; [exact H|].
    apply Qle_bool_iff in H. congruence.
Qed.

Lemma lt_false (a b : Q) : lt a b = false <-> b <= a.
Proof.
  unfold lt. destruct (Qle_bool b a) eqn:E; cbn.
  - apply Qle_bool_iff in E. split; [intros _; exact E|reflexivity].
  - split; [discriminate|]. intros H. apply Qle_bool_iff in H. congruence.
Qed.

Lemma lt_proper (a a' b b' : Q) : a == a' -> b == b' -> lt a b = lt a' b'.
Proof. intros Ha Hb. unfold lt. rewrite Ha, Hb. reflexivity. Qed.

(** Case analysis on every comparison of the goal, innermost first. *)
Ltac lt_cases :=
  repeat match goal with
         | |- context [lt ?a ?b] =>
             lazymatch a with context [lt _ _] => fail | _ => idtac end;
             lazymatch b with context [lt _ _] => fail | _ => idtac end;
             let E := fresh "E" in
             destruct (lt a b) eqn:E;
             [apply lt_true in E | apply lt_false in E]
         end.

Lemma toUint8Clamped_proper (x y : Q) :
  x == y -> toUint8Clamped x = toUint8Clamped y.
Proof.
  intros H. unfold toUint8Clamped, lt.
  assert (E1 : Qle_bool x 0 = Qle_bool y 0) by (rewrite H; reflexivity).
  assert (E2 : Qle_bool 255 x = Qle_bool 255 y) by (rewrite H; reflexivity).
  assert (E3 : Qfloor x = Qfloor y) by (rewrite H; reflexivity).
  assert (E4 : Qle_bool (1 # 2) (x - inject_Z (Qfloor x))
               = Qle_bool (1 # 2) (y - inject_Z (Qfloor y)))
    by (rewrite E3, H; reflexivity).
  assert (E5 : Qle_bool (x - inject_Z (Qfloor x)) (1 # 2)
               = Qle_bool (y - inject_Z (Qfloor y)) (1 # 2))
    by (rewrite E3, H; reflexivity).
  rewrite E1, E2, E4, E5, E3. reflexivity.
Qed.

Lemma toUint8Clamped_byte (x : Q) (n : Z) :
  x == inject_Z n -> isByte n -> toUint8Clamped x = n.
Proof.
  intros Hx [H0 H1]. rewrite (toUint8Clamped_proper _ _ Hx).
  unfold toUint8Clamped.
  destruct (Qle_bool (inject_Z n) 0) eqn:E0.
  { apply Qle_bool_iff in E0. change 0 with (inject_Z 0) in E0.
    rewrite <- Zle_Qle in E0. lia. }
  destruct (Qle_bool 255 (inject_Z n)) eqn:E1.
  { apply Qle_bool_iff in E1. change 255 with (inject_Z 255) in E1.
    rewrite <- Zle_Qle in E1. lia. }
  rewrite Qfloor_Z.
  assert (E : lt (inject_Z n - inject_Z n) (1 # 2) = true)
    by (apply lt_true; lra).
  rewrite E. reflexivity.
Qed.

Lemma clamp_byte (n : Z) :
  isByte n ->
  JS.Math_max 0 (JS.Math_min 255 (inject_Z n / 255 * 255)) == inject_Z n.
Proof.
  intros [H0 H1]. rewrite Zle_Qle in H0, H1.
  change (inject_Z 0) with 0 in H0. change (inject_Z 255) with 255 in H1.
  assert (E : inject_Z n / 255 * 255 == inject_Z n) by field.
  unfold JS.Math_max, JS.Math_min.
  pose proof (Q.min_spec 255 (inject_Z n / 255 * 255)) as Hm.
  generalize dependent (Qmin 255 (inject_Z n / 255 * 255)). intros m Hm.
  pose proof (Q.max_spec 0 m) as HM.
  generalize dependent (Qmax 0 m). intros M HM.
  generalize dependent (inject_Z n / 255 * 255). intros v E Hm.
  destruct Hm as [[? ?]|[? ?]], HM as [[? ?]|[? ?]]; lra.
Qed.

Lemma writeChannel_byte (n : Z) :
  isByte n -> writeChannel (inject_Z n / 255) = n.
Proof.
  intros Hn. unfold writeChannel. apply toUint8Clamped_byte; [|exact Hn].
  apply clamp_byte, Hn.
Qed.


Lemma gradeColor_default (pow : Q -> Q -> Q) (c : RGB) :
  gradeColor pow DEFAULT_COLOR_GRADING c = c.
Proof. destruct c. reflexivity. Qed.

(** X21.  With no parameter given, [applyColorGrading] uses the defaults,
    and the default grading changes no pixel: every byte is written back as
    it was read.  Whatever the parameters, a fully transparent pixel is left
    alone and the alpha channel is never changed. *)
Theorem default_grading_changes_no_pixel (pow : Q -> Q -> Q) :
  merge noParams = DEFAULT_COLOR_GRADING
  /\ (forall px, isByte (pr px) -> isByte (pg px) -> isByte (pb px) ->
                 gradePixel pow DEFAULT_COLOR_GRADING px = px)
  /\ (forall params px, pa px = 0%Z -> gradePixel pow params px = px)
  /\ (forall params px, pa (gradePixel pow params px) = pa px).
Proof.
  split; [reflexivity|]. split; [|split].
  - intros [r g b a] Hr Hg Hb. cbn [pr pg pb] in *. unfold gradePixel.
    cbn [pa pr pg pb]. destruct (Z.eqb a 0); [reflexivity|].
    rewrite gradeColor_default. cbn [red green blue].
    rewrite (writeChannel_byte r Hr), (writeChannel_byte g Hg), (writeChannel_byte b Hb).
    reflexivity.
  - intros params [r g b a] Ha. cbn in Ha. subst a. reflexivity.
  - intros params [r g b a]. unfold gradePixel. cbn [pa].
    destruct (Z.eqb a 0); reflexivity.
Qed.

Lemma default_grading_sample_pixel :
  gradePixel (fun _ _ => 1) DEFAULT_COLOR_GRADING (mkPixel 10 20 30 255)
  = mkPixel 10 20 30 255.
Proof.
  apply (proj1 (proj2 (default_grading_changes_no_pixel (fun _ _ => 1))));
    cbn; unfold isByte; lia.
Defined.



(** *** The conversion between RGB and HSL *)

Lemma max3_spec (a b c : Q) :
  (max3 a b c == a \/ max3 a b c == b \/ max3 a b c == c)
  /\ a <= max3 a b c /\ b <= max3 a b c /\ c <= max3 a b c.
Proof.
  unfold max3. pose proof (Q.max_spec a b) as H1.
  generalize dependent (Qmax a b). intros x H1.
  pose proof (Q.max_spec x c) as H2.
  generalize dependent (Qmax x c). intros y H2.
  destruct H1 as [[? ?]|[? ?]], H2 as [[? ?]|[? ?]];
    (split; [|repeat split; lra]);
    first [left; lra | right; left; lra | right; right; lra].
Qed.

Lemma min3_spec (a b c : Q) :
  (min3 a b c == a \/ min3 a b c == b \/ min3 a b c == c)
  /\ min3 a b c <= a /\ min3 a b c <= b /\ min3 a b c <= c.
Proof.
  unfold min3. pose proof (Q.min_spec a b) as H1.
  generalize dependent (Qmin a b). intros x H1.
  pose proof (Q.min_spec x c) as H2.
  generalize dependent (Qmin x c). intros y H2.
  destruct H1 as [[? ?]|[? ?]], H2 as [[? ?]|[? ?]];
    (split; [|repeat split; lra]);
    first [left; lra | right; left; lra | right; right; lra].
Qed.

Lemma hue2rgb_proper (p p' q q' t t' : Q) :
  p == p' -> q == q' -> t == t' -> hue2rgb p q t == hue2rgb p' q' t'.
Proof.
  intros Hp Hq Ht. unfold hue2rgb.
  rewrite (lt_proper t t' 0 0 Ht (Qeq_refl 0)).
  set (t1 := if lt t' 0 then t + 1 else t).
  set (t1' := if lt t' 0 then t' + 1 else t').
  assert (Ht1 : t1 == t1') by (unfold t1, t1'; destruct (lt t' 0); lra).
  clearbody t1 t1'.
  rewrite (lt_proper 1 1 t1 t1' (Qeq_refl 1) Ht1).
  set (t2 := if lt 1 t1' then t1 - 1 else t1).
  set (t2' := if lt 1 t1' then t1' - 1 else t1').
  assert (Ht2 : t2 == t2') by (unfold t2, t2'; destruct (lt 1 t1'); lra).
  clearbody t2 t2'.
  rewrite (lt_proper t2 t2' _ _ Ht2 (Qeq_refl _)),
          (lt_proper t2 t2' _ _ Ht2 (Qeq_refl (1 / 2))),
          (lt_proper t2 t2' _ _ Ht2 (Qeq_refl (2 / 3))).
  destruct (lt t2' (1 / 6)); [rewrite Hp, Hq, Ht2; reflexivity|].
  destruct (lt t2' (1 / 2)); [exact Hq|].
  destruct (lt t2' (2 / 3)); [rewrite Hp, Hq, Ht2; reflexivity|exact Hp].
Qed.

Lemma sat_light (M m : Q) :
  0 <= m -> m < M -> M <= 1 ->
  let l := (M + m) / 2 in
  let d := M - m in
  let s := if lt (1 # 2) l then d / (2 - M - m) else d / (M + m) in
  let q := if lt l (1 # 2) then l * (1 + s) else l + s - l * s in
  0 < s /\ q == M /\ 2 * l - q == m.
Proof.
  intros Hm HmM HM l d s q.
  assert (El : l == (M + m) * (1 # 2)) by (unfold l; field).
  clearbody l.
  assert (Hq : 0 < s /\ q == M).
  { subst q s d. destruct (lt (1 # 2) l) eqn:E1.
    - apply lt_true in E1.
      assert (E2 : lt l (1 # 2) = false) by (apply lt_false; lra).
      rewrite E2. assert (Hden : 0 < 2 - M - m) by lra. split.
      + apply Qlt_shift_div_l; [exact Hden|]. lra.
      + rewrite El. field. lra.
    - apply lt_false in E1. assert (Hden : 0 < M + m) by lra. split.
      + apply Qlt_shift_div_l; [exact Hden|]. lra.
      + destruct (lt l (1 # 2)) eqn:E2.
        * rewrite El. field. lra.
        * apply lt_false in E2.
          assert (Em : m == 1 - M) by lra.
          rewrite El, Em. field. lra. }
  destruct Hq as [Hs Hq]. split; [exact Hs|]. split; [exact Hq|].
  rewrite Hq, El. field.
Qed.

Lemma quotient_cases (n d : Q) :
  0 < d -> - d <= n <= d ->
  (n / d) * d == n
  /\ ((n / d == - (1) /\ n == - d) \/ (- (1) < n / d < 0 /\ - d < n < 0)
      \/ (n / d == 0 /\ n == 0) \/ (0 < n / d < 1 /\ 0 < n < d)
      \/ (n / d == 1 /\ n == d)).
Proof.
  intros Hd [Hlo Hhi].
  assert (E : n / d * d == n) by (field; lra). split; [exact E|].
  set (v := n / d) in *. clearbody v.
  destruct (Qlt_le_dec n 0) as [Hn|Hn].
  - destruct (Qlt_le_dec (- d) n) as [Hn'|Hn'].
    + right; left. split; [|lra].
      split.
      * destruct (Qlt_le_dec (- (1)) v) as [?|Hv]; [assumption|].
        assert (0 <= (- (1) - v) * d) by (apply Qmult_le_0_compat; lra). lra.
      * destruct (Qlt_le_dec v 0) as [?|Hv]; [assumption|].
        assert (0 <= v * d) by (apply Qmult_le_0_compat; lra). lra.
    + left. assert (En : n == - d) by lra. split; [|exact En].
      assert (Ev : (v + 1) * d == 0) by lra.
      destruct (Qmult_integral _ _ Ev); lra.
  - destruct (Qlt_le_dec 0 n) as [Hn0|Hn0].
    + destruct (Qlt_le_dec n d) as [Hn'|Hn'].
      * right; right; right; left. split; [|lra]. split.
        -- destruct (Qlt_le_dec 0 v) as [?|Hv]; [assumption|].
           assert (0 <= (- v) * d) by (apply Qmult_le_0_compat; lra). lra.
        -- destruct (Qlt_le_dec v 1) as [?|Hv]; [assumption|].
           assert (0 <= (v - 1) * d) by (apply Qmult_le_0_compat; lra). lra.
      * right; right; right; right. assert (En : n == d) by lra.
        split; [|exact En].
        assert (Ev : (v - 1) * d == 0) by lra.
        destruct (Qmult_integral _ _ Ev); lra.
    + right; right; left. assert (En : n == 0) by lra. split; [|exact En].
      assert (Ev : v * d == 0) by lra.
      destruct (Qmult_integral _ _ Ev); lra.
Qed.

Ltac consts :=
  change (1 / 6) with (1 # 6) in *; change (1 / 2) with (1 # 2) in *;
  change (2 / 3) with (2 # 3) in *; change (1 / 3) with (1 # 3) in *.

(** A channel of [hslToRgb]: [hue2rgb p q T] for [p == m], [q == M] and [T]
    a linear expression in the quotient [v]. *)
Ltac channel Hp Hq ET :=
  rewrite (hue2rgb_proper _ _ _ _ _ _ Hp Hq ET);
  unfold hue2rgb; consts; lt_cases; lra.

Lemma rgbToHsl_hue_range (r g b : Q) :
  0 <= r <= 1 -> 0 <= g <= 1 -> 0 <= b <= 1 ->
  0 <= hslH (rgbToHsl r g b) < 360.
Proof.
  intros Hr Hg Hb. unfold rgbToHsl.
  destruct (max3_spec r g b) as (HMc & HMr & HMg & HMb).
  destruct (min3_spec r g b) as (Hmc & Hmr & Hmg & Hmb).
  set (M := max3 r g b) in *. set (m := min3 r g b) in *. clearbody M m.
  destruct (Qeq_bool M m) eqn:EMm.
  - cbn [hslH]. split; [discriminate|reflexivity].
  - assert (Hne : ~ M == m) by (intros E; apply Qeq_bool_iff in E; congruence).
    assert (Hd : m < M) by lra. assert (Hdpos : 0 < M - m) by lra.
    cbn [hslH].
    assert (Hh : 0 <= (if Qeq_bool M r
                       then ((g - b) / (M - m) + (if lt g b then 6 else 0)) / 6
                       else if Qeq_bool M g then ((b - r) / (M - m) + 2) / 6
                            else ((r - g) / (M - m) + 4) / 6) * 360 < 360).
    { destruct (Qeq_bool M r) eqn:EMr.
      - apply Qeq_bool_iff in EMr.
        destruct (quotient_cases (g - b) (M - m) Hdpos ltac:(lra)) as (_ & Hv).
        set (v := (g - b) / (M - m)) in *.
        destruct (lt g b) eqn:Egb; [apply lt_true in Egb|apply lt_false in Egb].
        + assert (E : (v + 6) / 6 * 360 == (v + 6) * 60) by field.
          rewrite E. clearbody v.
          destruct Hv as [[? ?]|[[? ?]|[[? ?]|[[? ?]|[? ?]]]]]; lra.
        + assert (E : (v + 0) / 6 * 360 == v * 60) by field.
          rewrite E. clearbody v.
          destruct Hv as [[? ?]|[[? ?]|[[? ?]|[[? ?]|[? ?]]]]]; lra.
      - destruct (Qeq_bool M g) eqn:EMg.
        + destruct (quotient_cases (b - r) (M - m) Hdpos ltac:(lra)) as (_ & Hv).
          set (v := (b - r) / (M - m)) in *.
          assert (E : (v + 2) / 6 * 360 == (v + 2) * 60) by field.
          rewrite E. clearbody v.
          destruct Hv as [[? ?]|[[? ?]|[[? ?]|[[? ?]|[? ?]]]]]; lra.
        + destruct (quotient_cases (r - g) (M - m) Hdpos ltac:(lra)) as (_ & Hv).
          set (v := (r - g) / (M - m)) in *.
          assert (E : (v + 4) / 6 * 360 == (v + 4) * 60) by field.
          rewrite E. clearbody v.
          destruct Hv as [[? ?]|[[? ?]|[[? ?]|[[? ?]|[? ?]]]]]; lra. }
    exact Hh.
Qed.

Lemma hslToRgb_proper (h h' s l : Q) :
  h == h' ->
  red (hslToRgb h s l) == red (hslToRgb h' s l)
  /\ green (hslToRgb h s l) == green (hslToRgb h' s l)
  /\ blue (hslToRgb h s l) == blue (hslToRgb h' s l).
Proof.
  intros H. unfold hslToRgb. destruct (Qeq_bool s 0).
  - repeat split; reflexivity.
  - cbn [red green blue].
    repeat split; apply hue2rgb_proper; try reflexivity; rewrite H; reflexivity.
Qed.

Lemma rotateHue_full_turn (h turn : Q) :
  0 <= h < 360 -> turn == 360 \/ turn == - (360) -> rotateHue h turn == h.
Proof.
  intros [H0 H1] Hh. unfold rotateHue. destruct Hh as [Hh|Hh].
  - assert (R := GestureExtra.rem_360_unique (h + turn) 1).
    change (inject_Z 1) with 1 in R.
    assert (R' : JS.rem (h + turn) 360 == h) by (rewrite R; lra).
    destruct (lt _ 0) eqn:El; [apply lt_true in El; lra|exact R'].
  - destruct (JSFacts.rem_360 (h + turn)) as (Erem & _ & _ & Hneg).
    specialize (Hneg ltac:(lra)).
    set (a := h + turn) in *.
    set (t := JS.trunc (a / 360)) in *.
    assert (Ea : a == h - 360) by (unfold a; lra).
    assert (Hlo : inject_Z (-2) < inject_Z t)
      by (change (inject_Z (-2)) with (- (2)); lra).
    assert (Hhi : inject_Z t < inject_Z 1)
      by (change (inject_Z 1) with 1; lra).
    rewrite <- Zlt_Qlt in Hlo, Hhi.
    assert (Hc : t = (-1)%Z \/ t = 0%Z) by lia.
    destruct Hc as [Et|Et]; rewrite Et in *.
    + change (inject_Z (-1)) with (- (1)) in *.
      destruct (lt _ 0) eqn:El; [apply lt_true in El|apply lt_false in El]; lra.
    + change (inject_Z 0) with 0 in *.
      destruct (lt _ 0) eqn:El; [apply lt_true in El|apply lt_false in El]; lra.
Qed.

(** X23.  In exact arithmetic [hslToRgb] undoes [rgbToHsl]: a color with
    its three channels in [0, 1] converted to HSL and back is the same
    color.  So a hue rotation by a full turn, 360 or -360 degrees, changes
    nothing: step 9 gives back the color it was given. *)
Theorem hsl_round_trip (r g b : Q) :
  0 <= r <= 1 -> 0 <= g <= 1 -> 0 <= b <= 1 ->
  let hsl := rgbToHsl r g b in
  let c := hslToRgb (hslH hsl) (hslS hsl) (hslL hsl) in
  (red c == r /\ green c == g /\ blue c == b)
  /\ (forall params,
        hue params == 360 \/ hue params == - (360) ->
        let c' := hueStep params (mkRGB r g b) in
        red c' == r /\ green c' == g /\ blue c' == b).
Proof.
  intros Hr Hg Hb.
  assert (RT : let hsl := rgbToHsl r g b in
               let c := hslToRgb (hslH hsl) (hslS hsl) (hslL hsl) in
               red c == r /\ green c == g /\ blue c == b).
  {
    cbv zeta. unfold rgbToHsl.
  destruct (max3_spec r g b) as (HMc & HMr & HMg & HMb).
  destruct (min3_spec r g b) as (Hmc & Hmr & Hmg & Hmb).
  set (M := max3 r g b) in *. set (m := min3 r g b) in *. clearbody M m.
  destruct (Qeq_bool M m) eqn:EMm.
  - apply Qeq_bool_iff in EMm. cbn [hslH hslS hslL]. unfold hslToRgb.
    change (Qeq_bool 0 0) with true. cbn [red green blue].
    assert (E : (M + m) / 2 == M) by (rewrite EMm; field).
    rewrite E. repeat split; lra.
  - assert (Hne : ~ M == m) by (intros E; apply Qeq_bool_iff in E; congruence).
    assert (Hd : m < M) by lra.
    assert (Hm0 : 0 <= m) by (destruct Hmc as [E|[E|E]]; lra).
    assert (HM1 : M <= 1) by (destruct HMc as [E|[E|E]]; lra).
    destruct (sat_light M m Hm0 Hd HM1) as (Hs & Hq & Hp).
    cbv zeta in Hs, Hq, Hp. cbn [hslH hslS hslL]. unfold hslToRgb.
    set (s := if lt (1 # 2) ((M + m) / 2) then _ else _) in *.
    assert (Es : Qeq_bool s 0 = false).
    { destruct (Qeq_bool s 0) eqn:E; [|reflexivity].
      apply Qeq_bool_iff in E. lra. }
    rewrite Es. cbn [red green blue].
    set (q := if lt ((M + m) / 2) (1 # 2) then _ else _) in *.
    set (p := 2 * ((M + m) / 2) - q) in *.
    clearbody p q s.
    assert (Hdpos : 0 < M - m) by lra.
    destruct (Qeq_bool M r) eqn:EMr.
    + apply Qeq_bool_iff in EMr.
      destruct (quotient_cases (g - b) (M - m) Hdpos ltac:(lra)) as (Hdv & Hv).
      set (v := (g - b) / (M - m)) in *.
      destruct (lt g b) eqn:Egb; [apply lt_true in Egb|apply lt_false in Egb].
      * assert (EG : (v + 6) / 6 * 360 / 360 == (v + 6) * (1 # 6)) by field.
        assert (ER : (v + 6) / 6 * 360 / 360 + 1 / 3 == (v + 6) * (1 # 6) + (1 # 3)) by field.
        assert (EB : (v + 6) / 6 * 360 / 360 - 1 / 3 == (v + 6) * (1 # 6) - (1 # 3)) by field.
        clearbody v.
        destruct Hv as [[? ?]|[[? ?]|[[? ?]|[[? ?]|[? ?]]]]];
          destruct Hmc as [Em|[Em|Em]]; try lra;
          (split; [channel Hp Hq ER|split; [channel Hp Hq EG|channel Hp Hq EB]]).
      * assert (EG : (v + 0) / 6 * 360 / 360 == v * (1 # 6)) by field.
        assert (ER : (v + 0) / 6 * 360 / 360 + 1 / 3 == v * (1 # 6) + (1 # 3)) by field.
        assert (EB : (v + 0) / 6 * 360 / 360 - 1 / 3 == v * (1 # 6) - (1 # 3)) by field.
        clearbody v.
        destruct Hv as [[? ?]|[[? ?]|[[? ?]|[[? ?]|[? ?]]]]];
          destruct Hmc as [Em|[Em|Em]]; try lra;
          (split; [channel Hp Hq ER|split; [channel Hp Hq EG|channel Hp Hq EB]]).
    + assert (HnMr : ~ M == r) by (intros E; apply Qeq_bool_iff in E; congruence).
      destruct (Qeq_bool M g) eqn:EMg.
      * apply Qeq_bool_iff in EMg.
        destruct (quotient_cases (b - r) (M - m) Hdpos ltac:(lra)) as (Hdv & Hv).
        set (v := (b - r) / (M - m)) in *.
        assert (EG : (v + 2) / 6 * 360 / 360 == (v + 2) * (1 # 6)) by field.
        assert (ER : (v + 2) / 6 * 360 / 360 + 1 / 3 == (v + 2) * (1 # 6) + (1 # 3)) by field.
        assert (EB : (v + 2) / 6 * 360 / 360 - 1 / 3 == (v + 2) * (1 # 6) - (1 # 3)) by field.
        clearbody v.
        destruct Hv as [[? ?]|[[? ?]|[[? ?]|[[? ?]|[? ?]]]]];
          destruct Hmc as [Em|[Em|Em]]; try lra;
          (split; [channel Hp Hq ER|split; [channel Hp Hq EG|channel Hp Hq EB]]).
      * assert (HnMg : ~ M == g) by (intros E; apply Qeq_bool_iff in E; congruence).
        assert (EMb : M == b) by (destruct HMc as [E|[E|E]]; [contradiction|contradiction|exact E]).
        destruct (quotient_cases (r - g) (M - m) Hdpos ltac:(lra)) as (Hdv & Hv).
        set (v := (r - g) / (M - m)) in *.
        assert (EG : (v + 4) / 6 * 360 / 360 == (v + 4) * (1 # 6)) by field.
        assert (ER : (v + 4) / 6 * 360 / 360 + 1 / 3 == (v + 4) * (1 # 6) + (1 # 3)) by field.
        assert (EB : (v + 4) / 6 * 360 / 360 - 1 / 3 == (v + 4) * (1 # 6) - (1 # 3)) by field.
        clearbody v.
        destruct Hv as [[? ?]|[[? ?]|[[? ?]|[[? ?]|[? ?]]]]];
          destruct Hmc as [Em|[Em|Em]]; try lra;
          (split; [channel Hp Hq ER|split; [channel Hp Hq EG|channel Hp Hq EB]]).
  }
  cbv zeta in *. split; [exact RT|].
  intros params Hh. unfold hueStep.
  assert (E : neq (hue params) 0 = true).
  { unfold neq. destruct (Qeq_bool (hue params) 0) eqn:E; [|reflexivity].
    apply Qeq_bool_iff in E. destruct Hh; lra. }
  rewrite E. cbn [red green blue].
  pose proof (rgbToHsl_hue_range r g b Hr Hg Hb) as Hrange.
  set (hsl := rgbToHsl r g b) in *.
  pose proof (rotateHue_full_turn (hslH hsl) (hue params) Hrange Hh) as Erot.
  destruct (hslToRgb_proper _ _ (hslS hsl) (hslL hsl) Erot) as (Pr & Pg & Pb).
  rewrite Pr, Pg, Pb. exact RT.
Qed.

Lemma hsl_round_trip_orange :
  let hsl := rgbToHsl 1 (1 # 2) 0 in
  let c := hslToRgb (hslH hsl) (hslS hsl) (hslL hsl) in
  (red c == 1 /\ green c == 1 # 2 /\ blue c == 0)
  /\ (forall params,
        hue params == 360 \/ hue params == - (360) ->
        let c' := hueStep params (mkRGB 1 (1 # 2) 0) in
        red c' == 1 /\ green c' == 1 # 2 /\ blue c' == 0).
Proof. apply (hsl_round_trip 1 (1 # 2) 0); lra. Defined.




End ColorExtra.

(** ** The device profile and the compression of uploads *)

Module DeviceExtra.
Import Device.

(** X26.  On a mobile device the profile is never ['high']: it is ['low']
    exactly when the memory (4 when the browser does not tell) is under 3
    or the GPU is in the low tier, and ['medium'] otherwise.  The quality
    settings of the page are then at most a 1024 texture, 30 frames per
    second and a pixel ratio of 1.5. *)
Theorem mobile_profile_is_capped (b : Browser) (devicePixelRatio : Q) :
  isMobile (userAgent b) = true ->
  let q := qualitySettings b devicePixelRatio in
  getDeviceProfile b <> High
  /\ (getDeviceProfile b = Low <-> memoryOf b < 3 \/ gpuTierOf b = Low)
  /\ (textureSize q <= 1024)%Z /\ (maxRecordingFPS q <= 30)%Z
  /\ pixelRatio q <= 15 # 10.
Proof.
  intros Hm q. unfold q, qualitySettings. cbv zeta. unfold getDeviceProfile.
  cbv zeta. rewrite Hm.
  assert (Em : forall t, (if ColorGrading.lt (memoryOf b) 6 || isMedium t
                          then Medium else Medium) = Medium)
    by (intros t; destruct (_ || _); reflexivity).
  destruct (ColorGrading.lt (memoryOf b) 3) eqn:E3;
    [apply ColorExtra.lt_true in E3|apply ColorExtra.lt_false in E3].
  - cbn. split; [discriminate|]. split; [split; [intros _; left; exact E3|reflexivity]|].
    split; [lia|]. split; [lia|lra].
  - destruct (gpuTierOf b) eqn:Eg; cbn [isLow orb]; rewrite ?Em.
    + cbn. split; [discriminate|].
      split; [split; [intros _; right; reflexivity|reflexivity]|].
      split; [lia|]. split; [lia|lra].
    + cbn -[JS.Math_min]. split; [discriminate|].
      split; [split; [discriminate|intros [H|H]; [lra|discriminate]]|].
      split; [lia|]. split; [lia|apply Q.le_min_r].
    + cbn -[JS.Math_min]. split; [discriminate|].
      split; [split; [discriminate|intros [H|H]; [lra|discriminate]]|].
      split; [lia|]. split; [lia|apply Q.le_min_r].
Qed.

Lemma iPhone_gets_medium :
  let q := qualitySettings iPhone 3 in
  getDeviceProfile iPhone <> High
  /\ (getDeviceProfile iPhone = Low
      <-> memoryOf iPhone < 3 \/ gpuTierOf iPhone = Low)
  /\ (textureSize q <= 1024)%Z /\ (maxRecordingFPS q <= 30)%Z
  /\ pixelRatio q <= 15 # 10.
Proof. apply (mobile_profile_is_capped iPhone 3). vm_compute. reflexivity. Defined.

(** X27.  On a desktop the profile is never ['low'] and the GPU is not
    looked at: it is ['high'] exactly when the memory is at least 4, which
    is the case when the browser does not tell its memory. *)
Theorem desktop_profile_ignores_gpu (b : Browser) :
  isMobile (userAgent b) = false ->
  getDeviceProfile b <> Low
  /\ (getDeviceProfile b = High <-> 4 <= memoryOf b)
  /\ (deviceMemory b = None -> getDeviceProfile b = High)
  /\ (forall gl, getDeviceProfile (mkBrowser (userAgent b) (deviceMemory b) gl)
                 = getDeviceProfile b).
Proof.
  intros Hm. unfold getDeviceProfile. cbv zeta. cbn [userAgent]. rewrite Hm.
  split; [|split; [|split]].
  - destruct (ColorGrading.lt _ 4); discriminate.
  - destruct (ColorGrading.lt _ 4) eqn:E;
      [apply ColorExtra.lt_true in E|apply ColorExtra.lt_false in E]; split;
      try discriminate; try reflexivity; intros; try lra; assumption.
  - intros Hn. unfold memoryOf. rewrite Hn. reflexivity.
  - intros gl. reflexivity.
Qed.

Lemma laptop_with_a_low_tier_gpu_gets_high :
  getDeviceProfile laptop <> Low
  /\ (getDeviceProfile laptop = High <-> 4 <= memoryOf laptop)
  /\ (deviceMemory laptop = None -> getDeviceProfile laptop = High)
  /\ (forall gl, getDeviceProfile
                   (mkBrowser (userAgent laptop) (deviceMemory laptop) gl)
                 = getDeviceProfile laptop).
Proof. apply (desktop_profile_ignores_gpu laptop). vm_compute. reflexivity. Defined.




End DeviceExtra.

(** ** The recording clock *)

Module ClockExtra.
Import Editor.

Lemma pad2_ok (a : nat) :
  (a < 100)%nat ->
  exists c1 c2, padStart (String_ a) 2 "0" = String c1 (String c2 EmptyString)
                /\ readNat (padStart (String_ a) 2 "0") = Some a.
Proof.
  intros Ha.
  assert (Hall : forallb (fun a => match padStart (String_ a) 2 "0" with
                                   | String _ (String _ EmptyString) =>
                                       match readNat (padStart (String_ a) 2 "0") with
                                       | Some b => Nat.eqb a b
                                       | None => false
                                       end
                                   | _ => false
                                   end) (seq 0 100) = true)
    by (vm_compute; reflexivity).
  rewrite forallb_forall in Hall.
  specialize (Hall a ltac:(apply in_seq; lia)).
  destruct (padStart (String_ a) 2 "0") as [|c1 [|c2 [|]]]; try discriminate.
  exists c1, c2. split; [reflexivity|].
  destruct (readNat _) as [b|]; [|discriminate].
  apply Nat.eqb_eq in Hall. congruence.
Qed.

(** X29.  Under 100 minutes the recording clock shows five characters,
    two digits, a colon and two digits, and the digits read back as the
    minutes and the seconds of the time shown: nothing is cut or
    rounded. *)
Theorem formatRecordingTime_reads_back (seconds : nat) :
  (seconds < 60 * 100)%nat ->
  let shown := formatRecordingTime seconds in
  String.length shown = 5%nat
  /\ substring 2 1 shown = ":"%string
  /\ readNat (substring 0 2 shown) = Some (seconds / 60)%nat
  /\ readNat (substring 3 2 shown) = Some (seconds mod 60)%nat.
Proof.
  intros Hs shown. unfold shown, formatRecordingTime. cbv zeta.
  assert (Hm : (seconds / 60 < 100)%nat)
    by (apply Nat.Div0.div_lt_upper_bound; lia).
  assert (Hr : (seconds mod 60 < 100)%nat)
    by (pose proof (Nat.mod_upper_bound seconds 60 ltac:(lia)); lia).
  destruct (pad2_ok _ Hm) as (m1 & m2 & Em & Rm).
  destruct (pad2_ok _ Hr) as (s1 & s2 & Es & Rs).
  rewrite Em in *. rewrite Es in *.
  repeat split; try reflexivity; assumption.
Qed.

Lemma clock_after_75_seconds :
  let shown := formatRecordingTime 75 in
  String.length shown = 5%nat
  /\ substring 2 1 shown = ":"%string
  /\ readNat (substring 0 2 shown) = Some (75 / 60)%nat
  /\ readNat (substring 3 2 shown) = Some (75 mod 60)%nat.
Proof. apply (formatRecordingTime_reads_back 75). cbn. lia. Defined.

End ClockExtra.
